(** * network-monitor: the alerting core of [alert_system.py]

    A shallow embedding of the class [AlertSystem] (configuration loading,
    bounded alert history, cooldown tracking, notification channels, the five
    checks, the check cycle, the status display and the monitoring loop) and
    of the main program, together with the properties its specification
    states and further properties of the code.

    Conventions of the embedding:
    - Python [float] is IEEE binary64, embedded as Rocq's primitive [float];
      Python [int] is [Z]; [str] is [string], the sequence of the bytes of its
      UTF-8 encoding, so that [len] counts the bytes that begin a character
      and [strip] removes the white space of Unicode by its encoding.
    - [self.last_alert_time] is a dict used as a map: [gmap string float].
    - [self.config] is a dict used as a struct once it has been merged with
      the defaults: a record [Config] whose fields have the types of the
      defaults (thresholds are floats, the cooldown and the interval are ints).
      A configuration whose values have other types, or whose nested objects
      lack keys, is outside the embedding: the source then raises [TypeError]
      or [KeyError] where the value is used, so whatever is stated of a method
      that reads the configuration is stated of complete configurations.
    - A file is what was written to it: a JSON document ([json.dump] followed
      by [json.load] gives the document back) and the lines appended after it;
      [json.load] accepts it when only white space follows the document.
    - Everything the program asks of its surroundings (clock, metric probes,
      file system, SMTP server, HTTP endpoint, [systemctl]) is answered by an
      oracle [Env]; a family of counters in the state says how many questions
      of each sort have been asked so far, so successive calls may be
      answered differently. The formatting of numbers inside messages
      ([:.1f], [str]) and the wording of the errors of the parser of JSON
      and of [time.sleep] are functions of the oracle as well.
    - Methods are computations in a state-and-exception monad [M]; a method
      that can raise returns [Raise], and [try_except] is the [try] statement.
    - [monitor_loop] runs until the keyboard interrupts it; the number of
      turns it completes before that is a parameter of its embedding. The
      command line ([argparse]) is not embedded: [main] takes what it reads. *)

From Stdlib Require Import ZArith Floats.
From stdpp Require Import gmap strings list pretty.

Local Open Scope string_scope.
Local Open Scope Z_scope.

(** ** Numbers *)

(** Python compares a [float] with an [int] exactly, on their mathematical
    values; [SF_compare_Z] does so on the decoded float [±m·2^e]. *)
Definition SF_compare_Z (x : spec_float) (n : Z) : option comparison :=
  match x with
  | S754_nan => None
  | S754_infinity s => Some (if s then Lt else Gt)
  | S754_zero _ => Some (0 ?= n)
  | S754_finite s m e =>
      let v := if s then Z.neg m else Z.pos m in
      Some (if 0 <=? e then (v * 2 ^ e ?= n) else (v ?= n * 2 ^ (- e)))
  end.

(** [x >= n] for a float [x] and an int [n]. *)
Definition float_ge_int (x : float) (n : Z) : bool :=
  match SF_compare_Z (Prim2SF x) n with
  | Some Gt | Some Eq => true
  | _ => false
  end.

(** [x == n] for a float [x] and an int [n]. *)
Definition float_eq_int (x : float) (n : Z) : bool :=
  match SF_compare_Z (Prim2SF x) n with
  | Some Eq => true
  | _ => false
  end.

(** [x < n] for a float [x] and an int [n]. *)
Definition float_lt_int (x : float) (n : Z) : bool :=
  match SF_compare_Z (Prim2SF x) n with
  | Some Lt => true
  | _ => false
  end.

(** [r > t] on two floats. *)
Definition float_gt (r t : float) : bool := PrimFloat.ltb t r.

(** [r < t] on two floats. *)
Definition float_lt (r t : float) : bool := PrimFloat.ltb r t.

(** The longest sleep, in seconds, whose count of nanoseconds fits a signed
    integer of 64 bits: [(2^63 - 1) / 10^9]. *)
Definition sleep_max : Z := 9223372036.

(** ** Strings *)

Definition nl : string := String (Ascii.ascii_of_nat 10) EmptyString.

(** [str.strip()] removes the characters for which [str.isspace()] holds.
    In ASCII they are the bytes 9 to 13 and 28 to 32. *)
Definition is_space (c : Ascii.ascii) : bool :=
  let n := Ascii.nat_of_ascii c in
  ((9 <=? n)%nat && (n <=? 13)%nat) || ((28 <=? n)%nat && (n <=? 32)%nat).

(** Beyond ASCII they are U+0085 and U+00A0, of two bytes in UTF-8... *)
Definition is_space2 (c0 c1 : Ascii.ascii) : bool :=
  let b0 := Ascii.nat_of_ascii c0 in
  let b1 := Ascii.nat_of_ascii c1 in
  (b0 =? 194)%nat && ((b1 =? 133)%nat || (b1 =? 160)%nat).

(** ...and U+1680, U+2000 to U+200A, U+2028, U+2029, U+202F, U+205F and
    U+3000, of three bytes. *)
Definition is_space3 (c0 c1 c2 : Ascii.ascii) : bool :=
  let b0 := Ascii.nat_of_ascii c0 in
  let b1 := Ascii.nat_of_ascii c1 in
  let b2 := Ascii.nat_of_ascii c2 in
  ((b0 =? 225)%nat && (b1 =? 154)%nat && (b2 =? 128)%nat)
  || ((b0 =? 226)%nat && (b1 =? 128)%nat
      && (((128 <=? b2)%nat && (b2 <=? 138)%nat)
          || (b2 =? 168)%nat || (b2 =? 169)%nat || (b2 =? 175)%nat))
  || ((b0 =? 226)%nat && (b1 =? 129)%nat && (b2 =? 159)%nat)
  || ((b0 =? 227)%nat && (b1 =? 128)%nat && (b2 =? 128)%nat).

(** [s.lstrip()] *)
Fixpoint lstrip (s : string) : string :=
  match s with
  | EmptyString => EmptyString
  | String c0 s1 =>
      if is_space c0 then lstrip s1
      else
        match s1 with
        | EmptyString => s
        | String c1 s2 =>
            if is_space2 c0 c1 then lstrip s2
            else
              match s2 with
              | EmptyString => s
              | String c2 s3 => if is_space3 c0 c1 c2 then lstrip s3 else s
              end
        end
  end.

(** [s.rstrip()]: the string is kept up to the point from which only white
    space follows. *)
Fixpoint rstrip (s : string) : string :=
  match s with
  | EmptyString => EmptyString
  | String c s' =>
      match lstrip s with
      | EmptyString => EmptyString
      | _ => String c (rstrip s')
      end
  end.

(** [s.strip()] *)
Definition strip (s : string) : string := rstrip (lstrip s).

(** [sep.join(l)] *)
Fixpoint join (sep : string) (l : list string) : string :=
  match l with
  | [] => ""
  | [x] => x
  | x :: l' => x ++ sep ++ join sep l'
  end.

(** [s * n] *)
Fixpoint repeat_str (s : string) (n : nat) : string :=
  match n with
  | O => ""
  | S n' => s ++ repeat_str s n'
  end.

(** The bytes that continue a character of a UTF-8 string. *)
Definition is_continuation (c : Ascii.ascii) : bool :=
  let n := Ascii.nat_of_ascii c in
  (128 <=? n)%nat && (n <? 192)%nat.

(** [len(s)]: the number of characters, not of bytes. *)
Fixpoint str_len (s : string) : nat :=
  match s with
  | EmptyString => O
  | String c s' => ((if is_continuation c then 0 else 1) + str_len s')%nat
  end.

(** [f"{s:^width}"]: when the padding is odd the extra space goes to the
    right. *)
Definition center (width : nat) (s : string) : string :=
  let padding := (width - str_len s)%nat in
  let left := Nat.div padding 2 in
  repeat_str " " left ++ s ++ repeat_str " " (padding - left).

(** [f"{x:5.1f}"] is the text of [f"{x:.1f}"] padded on the left:
    [rjust 5] of it. *)
Definition rjust (width : nat) (s : string) : string :=
  repeat_str " " (width - str_len s) ++ s.

(** The white space of JSON: space, tab, line feed and carriage return. *)
Definition is_json_space (c : Ascii.ascii) : bool :=
  let n := Ascii.nat_of_ascii c in
  (n =? 32)%nat || (n =? 9)%nat || (n =? 10)%nat || (n =? 13)%nat.

(** The text holds nothing but the white space of JSON. *)
Fixpoint json_blank (s : string) : bool :=
  match s with
  | EmptyString => true
  | String c s' => is_json_space c && json_blank s'
  end.

(** The no-break space U+00A0. *)
Definition nbsp : string :=
  String (Ascii.ascii_of_nat 194) (String (Ascii.ascii_of_nat 160) EmptyString).

(** ** Configuration *)

Record Thresholds := mkThresholds {
  cpu : float;
  memory : float;
  disk : float;
  swap : float
}.

Record EmailConfig := mkEmailConfig {
  email_enabled : bool;
  smtp_server : string;
  smtp_port : Z;
  email_from : string;
  email_to : list string;
  password : string
}.

Record WebhookConfig := mkWebhookConfig {
  webhook_enabled : bool;
  url : string;
  method : string
}.

Record Config := mkConfig {
  thresholds : Thresholds;
  check_interval : Z;
  alert_cooldown : Z;
  email : EmailConfig;
  webhook : WebhookConfig;
  log_file : string;
  console_alerts : bool
}.

(** A JSON object read from a configuration file: each of the recognised
    top-level keys is present or absent. *)
Record UserConfig := mkUserConfig {
  u_thresholds : option Thresholds;
  u_check_interval : option Z;
  u_alert_cooldown : option Z;
  u_email : option EmailConfig;
  u_webhook : option WebhookConfig;
  u_log_file : option string;
  u_console_alerts : option bool
}.

(** The JSON object [json.dump] writes for a complete configuration. *)
Definition to_json (c : Config) : UserConfig :=
  {| u_thresholds := Some (thresholds c);
     u_check_interval := Some (check_interval c);
     u_alert_cooldown := Some (alert_cooldown c);
     u_email := Some (email c);
     u_webhook := Some (webhook c);
     u_log_file := Some (log_file c);
     u_console_alerts := Some (console_alerts c) |}.

(** [d.update(u)]: a shallow overlay, key by key. *)
Definition update (d : Config) (u : UserConfig) : Config :=
  {| thresholds := default (thresholds d) (u_thresholds u);
     check_interval := default (check_interval d) (u_check_interval u);
     alert_cooldown := default (alert_cooldown d) (u_alert_cooldown u);
     email := default (email d) (u_email u);
     webhook := default (webhook d) (u_webhook u);
     log_file := default (log_file d) (u_log_file u);
     console_alerts := default (console_alerts d) (u_console_alerts u) |}.

(** The literal [default_config] of [load_config]. *)
Definition default_config : Config :=
  {| thresholds := {| cpu := 80.0; memory := 85.0; disk := 90.0; swap := 80.0 |};
     check_interval := 60;
     alert_cooldown := 300;
     email := {| email_enabled := false;
                 smtp_server := "smtp.gmail.com";
                 smtp_port := 587;
                 email_from := "alerts@example.com";
                 email_to := ["admin@example.com"];
                 password := "" |};
     webhook := {| webhook_enabled := false; url := ""; method := "POST" |};
     log_file := "alerts.log";
     console_alerts := true |}.

(** The literal [example_config] of [create_example_config]. *)
Definition example_config : Config :=
  {| thresholds := {| cpu := 80.0; memory := 85.0; disk := 90.0; swap := 80.0 |};
     check_interval := 60;
     alert_cooldown := 300;
     email := {| email_enabled := false;
                 smtp_server := "smtp.gmail.com";
                 smtp_port := 587;
                 email_from := "alerts@example.com";
                 email_to := ["admin@example.com"];
                 password := "votre_mot_de_passe" |};
     webhook := {| webhook_enabled := false;
                   url := "https://hooks.slack.com/services/YOUR/WEBHOOK/URL";
                   method := "POST" |};
     log_file := "alerts.log";
     console_alerts := true |}.

(** ** The object and its surroundings *)

Record AlertRecord := mkAlertRecord {
  timestamp : string;
  type : string;
  message : string;
  level : string
}.

(** The instance attributes of [AlertSystem]. *)
Record AlertSystem := mkAlertSystem {
  config : Config;
  alert_history : list AlertRecord;
  last_alert_time : gmap string float;
  self_log_file : string
}.

(** A file: a JSON document (when it starts with one) and the text appended
    after it. [json.load] accepts the file only when nothing but white space
    follows the document. *)
Record file := mkFile {
  document : option UserConfig;
  appended : list string
}.

Record EmailMessage := mkEmailMessage {
  msg_from : string;
  msg_to : string;
  msg_subject : string;
  msg_body : string
}.

Record WebhookRequest := mkWebhookRequest {
  req_url : string;
  req_text : string;
  req_username : string;
  req_icon_emoji : string;
  req_timeout : Z
}.

(** How many questions of each sort the program has asked. *)
Record Ticks := mkTicks {
  n_probe : nat;
  n_time : nat;
  n_date : nat;
  n_file : nat;
  n_smtp : nat;
  n_http : nat;
  n_proc : nat
}.

Record World := mkWorld {
  self : AlertSystem;
  console : list string;
  files : gmap string file;
  outbox : list EmailMessage;
  requests : list WebhookRequest;
  ticks : Ticks
}.

Inductive exn :=
  | ImportError (msg : string)
  | Exception (msg : string).

(** [str(e)] *)
Definition exn_str (e : exn) : string :=
  match e with ImportError m | Exception m => m end.

Inductive smtp_stage := Connect | StartTLS | Login | SendMessage | Quit.

#[export] Instance smtp_stage_eq_dec : EqDecision smtp_stage.
Proof. solve_decision. Defined.

Inductive smtp_outcome :=
  | SmtpOk
  | SmtpError (at_stage : smtp_stage) (msg : string).

Inductive http_outcome :=
  | HttpResponse (status_code : Z)
  | HttpError (msg : string).

Inductive proc_outcome :=
  | Completed (stdout : string)
  | ProcError (msg : string).

(** The surroundings' answers. The [nat] argument is the number of earlier
    questions of the same sort. *)
Record Env := mkEnv {
  probe_cpu : nat -> float;
  probe_memory : nat -> float;
  probe_disk : nat -> float;
  probe_swap : nat -> Z * float;
  clock : nat -> float;
  calendar : nat -> string;
  host : nat -> string;
  disk_write : nat -> option string;
  smtp_answer : nat -> smtp_outcome;
  requests_installed : bool;
  http_answer : nat -> http_outcome;
  systemctl_answer : nat -> string -> proc_outcome;
  format_1f : float -> string;
  str_float : float -> string;
  str_int : Z -> string;
  json_error : file -> string;
  overflow_error : string
}.

(** ** The monad of methods: state and exceptions *)

Inductive result (A : Type) :=
  | Ok (a : A)
  | Raise (e : exn).
Arguments Ok {A} a.
Arguments Raise {A} e.

Definition M (A : Type) : Type := World -> result A * World.

#[export] Instance M_ret : MRet M := fun A a w => (Ok a, w).

#[export] Instance M_bind : MBind M := fun A B k m w =>
  match m w with
  | (Ok a, w') => k a w'
  | (Raise e, w') => (Raise e, w')
  end.

Definition raise {A} (e : exn) : M A := fun w => (Raise e, w).

(** [try: m  except Exception as e: h e] *)
Definition try_except {A} (m : M A) (h : exn -> M A) : M A := fun w =>
  match m w with
  | (Ok a, w') => (Ok a, w')
  | (Raise e, w') => h e w'
  end.

Definition gets {A} (f : World -> A) : M A := fun w => (Ok (f w), w).

Definition modify (f : World -> World) : M unit := fun w => (Ok tt, f w).

(** [if b: m] *)
Definition when (b : bool) (m : M unit) : M unit :=
  if b then m else mret tt.

(** A call whose value is not used. *)
Definition call {A} (m : M A) : M unit := m ≫= (fun _ => mret tt).

(** *** Updates of the state *)

Definition with_self (f : AlertSystem -> AlertSystem) (w : World) : World :=
  {| self := f (self w); console := console w; files := files w;
     outbox := outbox w; requests := requests w; ticks := ticks w |}.

Definition with_console (f : list string -> list string) (w : World) : World :=
  {| self := self w; console := f (console w); files := files w;
     outbox := outbox w; requests := requests w; ticks := ticks w |}.

Definition with_files (f : gmap string file -> gmap string file) (w : World) : World :=
  {| self := self w; console := console w; files := f (files w);
     outbox := outbox w; requests := requests w; ticks := ticks w |}.

Definition with_outbox (f : list EmailMessage -> list EmailMessage) (w : World) : World :=
  {| self := self w; console := console w; files := files w;
     outbox := f (outbox w); requests := requests w; ticks := ticks w |}.

Definition with_requests (f : list WebhookRequest -> list WebhookRequest) (w : World) : World :=
  {| self := self w; console := console w; files := files w;
     outbox := outbox w; requests := f (requests w); ticks := ticks w |}.

Definition with_ticks (f : Ticks -> Ticks) (w : World) : World :=
  {| self := self w; console := console w; files := files w;
     outbox := outbox w; requests := requests w; ticks := f (ticks w) |}.

Definition tick_probe (t : Ticks) : Ticks :=
  {| n_probe := S (n_probe t); n_time := n_time t; n_date := n_date t; n_file := n_file t;
     n_smtp := n_smtp t; n_http := n_http t; n_proc := n_proc t |}.

Definition tick_time (t : Ticks) : Ticks :=
  {| n_probe := n_probe t; n_time := S (n_time t); n_date := n_date t; n_file := n_file t;
     n_smtp := n_smtp t; n_http := n_http t; n_proc := n_proc t |}.

Definition tick_date (t : Ticks) : Ticks :=
  {| n_probe := n_probe t; n_time := n_time t; n_date := S (n_date t); n_file := n_file t;
     n_smtp := n_smtp t; n_http := n_http t; n_proc := n_proc t |}.

Definition tick_file (t : Ticks) : Ticks :=
  {| n_probe := n_probe t; n_time := n_time t; n_date := n_date t; n_file := S (n_file t);
     n_smtp := n_smtp t; n_http := n_http t; n_proc := n_proc t |}.

Definition tick_smtp (t : Ticks) : Ticks :=
  {| n_probe := n_probe t; n_time := n_time t; n_date := n_date t; n_file := n_file t;
     n_smtp := S (n_smtp t); n_http := n_http t; n_proc := n_proc t |}.

Definition tick_http (t : Ticks) : Ticks :=
  {| n_probe := n_probe t; n_time := n_time t; n_date := n_date t; n_file := n_file t;
     n_smtp := n_smtp t; n_http := S (n_http t); n_proc := n_proc t |}.

Definition tick_proc (t : Ticks) : Ticks :=
  {| n_probe := n_probe t; n_time := n_time t; n_date := n_date t; n_file := n_file t;
     n_smtp := n_smtp t; n_http := n_http t; n_proc := S (n_proc t) |}.

Definition set_alert_history (h : list AlertRecord) (s : AlertSystem) : AlertSystem :=
  {| config := config s; alert_history := h;
     last_alert_time := last_alert_time s; self_log_file := self_log_file s |}.

Definition set_last_alert_time (m : gmap string float) (s : AlertSystem) : AlertSystem :=
  {| config := config s; alert_history := alert_history s;
     last_alert_time := m; self_log_file := self_log_file s |}.

(** [l[-n:]] for [n > 0]: the last [n] elements, all of [l] when it is shorter. *)
Definition last_n {A} (n : nat) (l : list A) : list A :=
  drop (length l - n) l.

(** The text a file gains by an append. *)
Definition append_to (line : string) (f : option file) : file :=
  match f with
  | Some f => {| document := document f; appended := (appended f ++ [line])%list |}
  | None => {| document := None; appended := [line] |}
  end.

Section Methods.

Variable E : Env.

(** *** Calls into the surroundings *)

(** [print(s)] *)
Definition print (s : string) : M unit :=
  modify (with_console (fun c => (c ++ [s])%list)).

(** [psutil.cpu_percent(interval=1)] *)
Definition psutil_cpu_percent : M float := fun w =>
  (Ok (probe_cpu E (n_probe (ticks w))), with_ticks tick_probe w).

(** [psutil.virtual_memory().percent] *)
Definition psutil_virtual_memory : M float := fun w =>
  (Ok (probe_memory E (n_probe (ticks w))), with_ticks tick_probe w).

(** [psutil.disk_usage('/').percent] *)
Definition psutil_disk_usage : M float := fun w =>
  (Ok (probe_disk E (n_probe (ticks w))), with_ticks tick_probe w).

(** [psutil.swap_memory()]: the pair of [.total] and [.percent] *)
Definition psutil_swap_memory : M (Z * float) := fun w =>
  (Ok (probe_swap E (n_probe (ticks w))), with_ticks tick_probe w).

(** [time.time()] *)
Definition time_time : M float := fun w =>
  (Ok (clock E (n_time (ticks w))), with_ticks tick_time w).

(** [datetime.now().strftime('%Y-%m-%d %H:%M:%S')] *)
Definition datetime_now_strftime : M string := fun w =>
  (Ok (calendar E (n_date (ticks w))), with_ticks tick_date w).

(** [subprocess.getoutput('hostname')] *)
Definition getoutput_hostname : M string := fun w =>
  (Ok (host E (n_proc (ticks w))), with_ticks tick_proc w).

(** [Path(p).exists()] *)
Definition path_exists (p : string) : M bool :=
  gets (fun w => bool_decide (is_Some (files w !! p))).

(** [with open(p, 'a') as f: f.write(line)] *)
Definition open_append_write (p line : string) : M unit := fun w =>
  match disk_write E (n_file (ticks w)) with
  | None =>
      (Ok tt, with_ticks tick_file
                (with_files (fun fs => <[p := append_to line (fs !! p)]> fs) w))
  | Some msg => (Raise (Exception msg), with_ticks tick_file w)
  end.

(** [with open(p, 'w') as f: json.dump(c, f, indent=4)] *)
Definition open_write_json_dump (p : string) (c : Config) : M unit := fun w =>
  match disk_write E (n_file (ticks w)) with
  | None =>
      (Ok tt, with_ticks tick_file
                (with_files (fun fs => <[p := {| document := Some (to_json c); appended := [] |}]> fs) w))
  | Some msg => (Raise (Exception msg), with_ticks tick_file w)
  end.

(** [with open(p, 'r') as f: json.load(f)]. The parser refuses a file that
    does not begin with a document, and one in which anything but white
    space follows the document; [json_error] is its message. *)
Definition open_read_json_load (p : string) : M UserConfig := fun w =>
  match files w !! p with
  | Some f =>
      match document f with
      | Some u =>
          if forallb json_blank (appended f) then (Ok u, w)
          else (Raise (Exception (json_error E f)), w)
      | None => (Raise (Exception (json_error E f)), w)
      end
  | None =>
      (Raise (Exception ("[Errno 2] No such file or directory: '" ++ p ++ "'")), w)
  end.

(** One step of the SMTP session [sid]: it raises when the session is to
    fail at this stage. *)
Definition smtp_step (sid : nat) (stage : smtp_stage) : M unit := fun w =>
  match smtp_answer E sid with
  | SmtpOk => (Ok tt, w)
  | SmtpError st msg =>
      if bool_decide (st = stage) then (Raise (Exception msg), w) else (Ok tt, w)
  end.

(** [smtplib.SMTP(server, port)]: opens the next session. *)
Definition smtplib_SMTP (server : string) (port : Z) : M nat := fun w =>
  let sid := n_smtp (ticks w) in
  match smtp_step sid Connect w with
  | (Ok _, w') => (Ok sid, with_ticks tick_smtp w')
  | (Raise e, w') => (Raise e, with_ticks tick_smtp w')
  end.

(** [server.starttls()] *)
Definition server_starttls (sid : nat) : M unit := smtp_step sid StartTLS.

(** [server.login(user, password)] *)
Definition server_login (sid : nat) (user pw : string) : M unit := smtp_step sid Login.

(** [server.send_message(msg)] *)
Definition server_send_message (sid : nat) (msg : EmailMessage) : M unit :=
  smtp_step sid SendMessage ;;
  modify (with_outbox (fun o => (o ++ [msg])%list)).

(** [server.quit()] *)
Definition server_quit (sid : nat) : M unit := smtp_step sid Quit.

(** [import requests] *)
Definition import_requests : M unit :=
  if requests_installed E then mret tt
  else raise (ImportError "No module named 'requests'").

(** [requests.post(url, json=payload, timeout=10).status_code] *)
Definition requests_post (r : WebhookRequest) : M Z := fun w =>
  let w' := with_ticks tick_http (with_requests (fun l => (l ++ [r])%list) w) in
  match http_answer E (n_http (ticks w)) with
  | HttpResponse code => (Ok code, w')
  | HttpError msg => (Raise (Exception msg), w')
  end.

(** [subprocess.run(['systemctl', 'is-active', name], capture_output=True,
    text=True, timeout=5).stdout]. An output that cannot be decoded raises as
    a missing command or a timeout does. *)
Definition subprocess_run_is_active (name : string) : M string := fun w =>
  match systemctl_answer E (n_proc (ticks w)) name with
  | Completed out => (Ok out, with_ticks tick_proc w)
  | ProcError msg => (Raise (Exception msg), with_ticks tick_proc w)
  end.

(** *** The methods of [AlertSystem] *)

(** [create_example_config(self, config_file)] *)
Definition create_example_config (config_file : string) : M unit :=
  try_except
    (open_write_json_dump config_file example_config ;;
     print ("📝 Fichier de configuration exemple créé: " ++ config_file))
    (fun e => print ("⚠️  Impossible de créer le fichier config: " ++ exn_str e)).

(** [load_config(self, config_file)] *)
Definition load_config (config_file : string) : M Config :=
  found ← path_exists config_file;
  if found : bool then
    try_except
      (user_config ← open_read_json_load config_file;
       print ("✅ Configuration chargée depuis " ++ config_file) ;;
       mret (update default_config user_config))
      (fun e =>
         print ("⚠️  Erreur lecture config: " ++ exn_str e
                ++ ", utilisation config par défaut") ;;
         mret default_config)
  else
    print ("ℹ️  Fichier " ++ config_file
           ++ " non trouvé, utilisation config par défaut") ;;
    create_example_config config_file ;;
    mret default_config.

(** [__init__(self, config_file)] *)
Definition init (config_file : string) : M unit :=
  c ← load_config config_file;
  modify (with_self (fun _ =>
    {| config := c; alert_history := []; last_alert_time := ∅;
       self_log_file := log_file c |})).

(** [log_alert(self, alert_type, message, level)] *)
Definition log_alert (alert_type message level : string) : M unit :=
  timestamp ← datetime_now_strftime;
  let log_entry :=
    "[" ++ timestamp ++ "] [" ++ level ++ "] [" ++ alert_type ++ "] "
    ++ message ++ nl in
  path ← gets (fun w => self_log_file (self w));
  try_except
    (open_append_write path log_entry)
    (fun e => print ("⚠️  Erreur écriture log: " ++ exn_str e)) ;;
  modify (with_self (fun s =>
    set_alert_history
      (alert_history s ++ [ {| timestamp := timestamp; type := alert_type;
                               message := message; level := level |} ])%list s)) ;;
  len ← gets (fun w => length (alert_history (self w)));
  when (100 <? len)%nat
    (modify (with_self (fun s =>
       set_alert_history (last_n 100 (alert_history s)) s))).

(** [can_send_alert(self, alert_type)] *)
Definition can_send_alert (alert_type : string) : M bool :=
  cooldown ← gets (fun w => alert_cooldown (config (self w)));
  last ← gets (fun w => last_alert_time (self w) !! alert_type);
  match last with
  | None => mret true
  | Some t0 =>
      now ← time_time;
      let time_since_last := (now - t0)%float in
      mret (float_ge_int time_since_last cooldown)
  end.

(** [send_email_alert(self, subject, message)] *)
Definition send_email_alert (subject message : string) : M bool :=
  cfg ← gets (fun w => email (config (self w)));
  if negb (email_enabled cfg) then mret false
  else
    try_except
      (host ← getoutput_hostname;
       date ← datetime_now_strftime;
       let body :=
         nl ++ "Alerte système détectée !" ++ nl ++ nl ++ message ++ nl ++ nl
         ++ "---" ++ nl ++ "Serveur: " ++ host ++ nl ++ "Date: " ++ date ++ nl ++ nl
         ++ "Ce message a été généré automatiquement par le système de monitoring."
         ++ nl in
       let msg :=
         {| msg_from := email_from cfg;
            msg_to := join ", " (email_to cfg);
            msg_subject := "🚨 ALERTE SYSTÈME - " ++ subject;
            msg_body := body |} in
       server ← smtplib_SMTP (smtp_server cfg) (smtp_port cfg);
       server_starttls server ;;
       server_login server (email_from cfg) (password cfg) ;;
       server_send_message server msg ;;
       server_quit server ;;
       print ("📧 Email envoyé: " ++ subject) ;;
       log_alert "EMAIL" ("Email envoyé: " ++ subject) "INFO" ;;
       mret true)
      (fun e =>
         print ("❌ Erreur envoi email: " ++ exn_str e) ;;
         log_alert "EMAIL" ("Erreur envoi: " ++ exn_str e) "ERROR" ;;
         mret false).

(** [send_webhook_alert(self, message)] *)
Definition send_webhook_alert (message : string) : M bool :=
  cfg ← gets (fun w => webhook (config (self w)));
  if negb (webhook_enabled cfg) then mret false
  else
    try_except
      (import_requests ;;
       let payload :=
         {| req_url := url cfg;
            req_text := "🚨 **ALERTE SYSTÈME**" ++ nl ++ nl ++ message;
            req_username := "Network Monitor";
            req_icon_emoji := ":warning:";
            req_timeout := 10 |} in
       status_code ← requests_post payload;
       if status_code =? 200 then
         print "📡 Webhook envoyé avec succès" ;;
         log_alert "WEBHOOK" "Webhook envoyé" "INFO" ;;
         mret true
       else
         print ("⚠️  Webhook échoué: " ++ str_int E status_code) ;;
         mret false)
      (fun e =>
         match e with
         | ImportError _ =>
             print "⚠️  Module 'requests' non installé pour les webhooks" ;;
             print "   pip3 install requests" ;;
             mret false
         | Exception _ =>
             print ("❌ Erreur webhook: " ++ exn_str e) ;;
             mret false
         end).

(** [check_cpu(self)] *)
Definition check_cpu : M bool :=
  cpu_percent ← psutil_cpu_percent;
  threshold ← gets (fun w => cpu (thresholds (config (self w))));
  if float_gt cpu_percent threshold then
    permitted ← can_send_alert "CPU";
    if permitted : bool then
      let message :=
        "CPU élevé: " ++ format_1f E cpu_percent ++ "% (seuil: "
        ++ str_float E threshold ++ "%)" in
      cfg ← gets (fun w => config (self w));
      when (console_alerts cfg) (print (nl ++ "⚠️  ALERTE: " ++ message)) ;;
      log_alert "CPU" message "WARNING" ;;
      when (email_enabled (email cfg)) (call (send_email_alert "CPU élevé" message)) ;;
      when (webhook_enabled (webhook cfg)) (call (send_webhook_alert message)) ;;
      now ← time_time;
      modify (with_self (fun s =>
        set_last_alert_time (<["CPU" := now]> (last_alert_time s)) s)) ;;
      mret true
    else mret false
  else mret false.

(** [check_memory(self)] *)
Definition check_memory : M bool :=
  percent ← psutil_virtual_memory;
  threshold ← gets (fun w => memory (thresholds (config (self w))));
  if float_gt percent threshold then
    permitted ← can_send_alert "MEMORY";
    if permitted : bool then
      let message :=
        "Mémoire élevée: " ++ format_1f E percent ++ "% (seuil: "
        ++ str_float E threshold ++ "%)" in
      cfg ← gets (fun w => config (self w));
      when (console_alerts cfg) (print (nl ++ "⚠️  ALERTE: " ++ message)) ;;
      log_alert "MEMORY" message "WARNING" ;;
      when (email_enabled (email cfg)) (call (send_email_alert "Mémoire élevée" message)) ;;
      when (webhook_enabled (webhook cfg)) (call (send_webhook_alert message)) ;;
      now ← time_time;
      modify (with_self (fun s =>
        set_last_alert_time (<["MEMORY" := now]> (last_alert_time s)) s)) ;;
      mret true
    else mret false
  else mret false.

(** [check_disk(self)] *)
Definition check_disk : M bool :=
  percent ← psutil_disk_usage;
  threshold ← gets (fun w => disk (thresholds (config (self w))));
  if float_gt percent threshold then
    permitted ← can_send_alert "DISK";
    if permitted : bool then
      let message :=
        "Disque plein: " ++ format_1f E percent ++ "% (seuil: "
        ++ str_float E threshold ++ "%)" in
      cfg ← gets (fun w => config (self w));
      when (console_alerts cfg) (print (nl ++ "⚠️  ALERTE: " ++ message)) ;;
      log_alert "DISK" message "CRITICAL" ;;
      when (email_enabled (email cfg)) (call (send_email_alert "Disque plein" message)) ;;
      when (webhook_enabled (webhook cfg)) (call (send_webhook_alert message)) ;;
      now ← time_time;
      modify (with_self (fun s =>
        set_last_alert_time (<["DISK" := now]> (last_alert_time s)) s)) ;;
      mret true
    else mret false
  else mret false.

(** [check_swap(self)] *)
Definition check_swap : M bool :=
  swap_info ← psutil_swap_memory;
  let total := fst swap_info in
  let percent := snd swap_info in
  if total =? 0 then mret false
  else
    threshold ← gets (fun w => swap (thresholds (config (self w))));
    if float_gt percent threshold then
      permitted ← can_send_alert "SWAP";
      if permitted : bool then
        let message :=
          "SWAP élevé: " ++ format_1f E percent ++ "% (seuil: "
          ++ str_float E threshold ++ "%)" in
        cfg ← gets (fun w => config (self w));
        when (console_alerts cfg) (print (nl ++ "⚠️  ALERTE: " ++ message)) ;;
        log_alert "SWAP" message "WARNING" ;;
        when (email_enabled (email cfg)) (call (send_email_alert "SWAP élevé" message)) ;;
        when (webhook_enabled (webhook cfg)) (call (send_webhook_alert message)) ;;
        now ← time_time;
        modify (with_self (fun s =>
          set_last_alert_time (<["SWAP" := now]> (last_alert_time s)) s)) ;;
        mret true
      else mret false
    else mret false.

(** [check_service_down(self, service_name)]. The body of the [try] yields
    [true] where the source returns [True] from inside it, and [false] where
    control leaves the [try] and reaches the final [return False]. *)
Definition check_service_down (service_name : string) : M bool :=
  try_except
    (stdout ← subprocess_run_is_active service_name;
     let is_active := String.eqb (strip stdout) "active" in
     if negb is_active then
       permitted ← can_send_alert ("SERVICE_" ++ service_name);
       if permitted : bool then
         let message := "Service " ++ service_name ++ " est arrêté" in
         cfg ← gets (fun w => config (self w));
         when (console_alerts cfg) (print (nl ++ "⚠️  ALERTE: " ++ message)) ;;
         log_alert "SERVICE" message "CRITICAL" ;;
         when (email_enabled (email cfg))
           (call (send_email_alert ("Service " ++ service_name ++ " arrêté") message)) ;;
         when (webhook_enabled (webhook cfg)) (call (send_webhook_alert message)) ;;
         now ← time_time;
         modify (with_self (fun s =>
           set_last_alert_time
             (<["SERVICE_" ++ service_name := now]> (last_alert_time s)) s)) ;;
         mret true
       else mret false
     else mret false)
    (fun e =>
       print ("⚠️  Erreur vérification service " ++ service_name ++ ": " ++ exn_str e) ;;
       mret false).

(** The loop over [services_to_check] in [run_checks]. *)
Fixpoint check_services (services : list string) (alerts_triggered : list string)
  : M (list string) :=
  match services with
  | [] => mret alerts_triggered
  | service :: rest =>
      down ← check_service_down service;
      check_services rest
        (if down : bool then (alerts_triggered ++ [("SERVICE_" ++ service)%string])%list
         else alerts_triggered)
  end.

(** [run_checks(self)] *)
Definition run_checks : M (list string) :=
  let alerts_triggered : list string := [] in
  fired ← check_cpu;
  let alerts_triggered := if fired : bool then (alerts_triggered ++ ["CPU"])%list else alerts_triggered in
  fired ← check_memory;
  let alerts_triggered := if fired : bool then (alerts_triggered ++ ["MEMORY"])%list else alerts_triggered in
  fired ← check_disk;
  let alerts_triggered := if fired : bool then (alerts_triggered ++ ["DISK"])%list else alerts_triggered in
  fired ← check_swap;
  let alerts_triggered := if fired : bool then (alerts_triggered ++ ["SWAP"])%list else alerts_triggered in
  check_services ["nginx"; "ssh"; "mysql"; "postgresql"] alerts_triggered.

(** [time.sleep(secs)]. The time that passes shows in the answers of the
    clock. The length is converted to a count of nanoseconds on 64 bits: one
    that does not fit is refused with an [OverflowError], and then a negative
    one with a [ValueError]. *)
Definition time_sleep (secs : Z) : M unit :=
  if (secs <? - sleep_max) || (sleep_max <? secs) then
    raise (Exception (overflow_error E))
  else if secs <? 0 then raise (Exception "sleep length must be non-negative")
  else mret tt.

(** [show_status(self)] *)
Definition show_status : M unit :=
  print (nl ++ repeat_str "=" 70) ;;
  print (center 70 "🔍 STATUT SYSTÈME") ;;
  print (repeat_str "=" 70 ++ nl) ;;
  cpu_percent ← psutil_cpu_percent;
  cpu_threshold ← gets (fun w => cpu (thresholds (config (self w))));
  let cpu_status := if float_lt cpu_percent cpu_threshold then "✅" else "⚠️" in
  print (cpu_status ++ " CPU:     " ++ rjust 5 (format_1f E cpu_percent)
         ++ "% (seuil: " ++ str_float E cpu_threshold ++ "%)") ;;
  mem_percent ← psutil_virtual_memory;
  mem_threshold ← gets (fun w => memory (thresholds (config (self w))));
  let mem_status := if float_lt mem_percent mem_threshold then "✅" else "⚠️" in
  print (mem_status ++ " Mémoire: " ++ rjust 5 (format_1f E mem_percent)
         ++ "% (seuil: " ++ str_float E mem_threshold ++ "%)") ;;
  disk_percent ← psutil_disk_usage;
  disk_threshold ← gets (fun w => disk (thresholds (config (self w))));
  let disk_status := if float_lt disk_percent disk_threshold then "✅" else "⚠️" in
  print (disk_status ++ " Disque:  " ++ rjust 5 (format_1f E disk_percent)
         ++ "% (seuil: " ++ str_float E disk_threshold ++ "%)") ;;
  swap_info ← psutil_swap_memory;
  when (0 <? fst swap_info)
    (swap_threshold ← gets (fun w => swap (thresholds (config (self w))));
     let swap_status :=
       if float_lt (snd swap_info) swap_threshold then "✅" else "⚠️" in
     print (swap_status ++ " SWAP:    " ++ rjust 5 (format_1f E (snd swap_info))
            ++ "% (seuil: " ++ str_float E swap_threshold ++ "%)")) ;;
  print (nl ++ repeat_str "=" 70).

(** One turn of the [while True] loop of [monitor_loop]. *)
Definition monitor_iteration (interval : Z) : M unit :=
  show_status ;;
  alerts ← run_checks;
  match alerts with
  | _ :: _ =>
      print (nl ++ "🚨 " ++ str_int E (Z.of_nat (length alerts))
             ++ " alerte(s) déclenchée(s): " ++ join ", " alerts)
  | [] => print (nl ++ "✅ Aucune alerte - Système OK")
  end ;;
  print (nl ++ "⏳ Prochaine vérification dans " ++ str_int E interval ++ "s...") ;;
  time_sleep interval.

(** The first [turns] turns of the loop. *)
Fixpoint monitor_turns (interval : Z) (turns : nat) : M unit :=
  match turns with
  | O => mret tt
  | S n => monitor_iteration interval ;; monitor_turns interval n
  end.

(** [monitor_loop(self)]. The loop has no exit of its own: it ends when the
    keyboard interrupts it, or when an exception leaves it. [turns] is the
    number of turns completed when the interrupt arrives (before the first
    turn, or during the sleep that ends a turn). The handler of the interrupt
    ends the process with [sys.exit(0)]: the value returned is that exit
    status. An exception other than the interrupt is not handled here and
    leaves the method. *)
Definition monitor_loop (turns : nat) : M Z :=
  interval ← gets (fun w => check_interval (config (self w)));
  print (nl ++ "🚀 Démarrage du système d'alertes") ;;
  print ("⏱️  Intervalle de vérification: " ++ str_int E interval ++ " secondes") ;;
  cfg ← gets (fun w => config (self w));
  print ("📧 Email: " ++ (if email_enabled (email cfg) then "Activé" else "Désactivé")) ;;
  print ("📡 Webhook: "
         ++ (if webhook_enabled (webhook cfg) then "Activé" else "Désactivé")) ;;
  path ← gets (fun w => self_log_file (self w));
  print ("📝 Log file: " ++ path) ;;
  print (nl ++ "💡 Appuyez sur Ctrl+C pour arrêter" ++ nl) ;;
  monitor_turns interval turns ;;
  print (nl ++ nl ++ "✋ Arrêt du système d'alertes...") ;;
  total ← gets (fun w => length (alert_history (self w)));
  print ("📊 Total d'alertes dans cette session: " ++ str_int E (Z.of_nat total)) ;;
  print ("👋 Au revoir!" ++ nl) ;;
  mret 0.

(** The main program, after the command line is read: [config_file] is
    [args.config], [test] is [args.test]. Its check that [psutil] can be
    imported comes after the module has imported it at its head, so it
    cannot fail and is left out. The value returned is the exit status of
    the process. *)
Definition main (config_file : string) (test : bool) (turns : nat) : M Z :=
  init config_file ;;
  if test then
    print (nl ++ "🧪 Mode test - Vérification unique" ++ nl) ;;
    show_status ;;
    alerts ← run_checks;
    match alerts with
    | _ :: _ =>
        print (nl ++ "🚨 " ++ str_int E (Z.of_nat (length alerts))
               ++ " alerte(s) détectée(s)")
    | [] => print (nl ++ "✅ Aucune alerte - Système OK")
    end ;;
    mret 0
  else monitor_loop turns.

End Methods.

(** ** Auxiliary notions of the specification *)

(** The record [log_alert] builds in state [w]. *)
Definition new_record (E : Env) (ty msg lvl : string) (w : World) : AlertRecord :=
  {| timestamp := calendar E (n_date (ticks w)); type := ty;
     message := msg; level := lvl |}.

(** The line of the log file for a record:
    [[<timestamp>] [<level>] [<type>] <message>]. *)
Definition log_line (r : AlertRecord) : string :=
  "[" ++ timestamp r ++ "] [" ++ level r ++ "] [" ++ type r ++ "] "
  ++ message r ++ nl.

(** The cooldown contract in the specification's words: [may_fire(kind, now)]
    is true when no timestamp is recorded for [kind], or when
    [now - last_fired[kind] >= cooldown_window]. *)
Definition may_fire (last_fired : gmap string float) (cooldown_window : Z)
    (kind : string) (now : float) : bool :=
  match last_fired !! kind with
  | None => true
  | Some t0 => float_ge_int (now - t0) cooldown_window
  end.

(** The state [can_send_alert] leaves: it reads the clock when, and only
    when, a timestamp is recorded for the kind. *)
Definition asked (kind : string) (w : World) : World :=
  match last_alert_time (self w) !! kind with
  | None => w
  | Some _ => with_ticks tick_time w
  end.

(** The message of a threshold alert, as the f-strings of the checks build it. *)
Definition alert_message (E : Env) (label : string) (percent threshold : float) : string :=
  label ++ format_1f E percent ++ "% (seuil: " ++ str_float E threshold ++ "%)".

(** What every check does once its condition holds and the cooldown permits:
    console, log, email, webhook, then the timestamp. The source repeats this
    block in each of the five checks, and so do the definitions above; the
    lemmas [check_cpu_dispatch] and the like show that each of them runs
    exactly this. *)
Definition dispatch (E : Env) (key ty msg lvl subject : string) : M bool :=
  cfg ← gets (fun w => config (self w));
  when (console_alerts cfg) (print (nl ++ "⚠️  ALERTE: " ++ msg)) ;;
  log_alert E ty msg lvl ;;
  when (email_enabled (email cfg)) (call (send_email_alert E subject msg)) ;;
  when (webhook_enabled (webhook cfg)) (call (send_webhook_alert E msg)) ;;
  now ← time_time E;
  modify (with_self (fun s =>
    set_last_alert_time (<[key := now]> (last_alert_time s)) s)) ;;
  mret true.

(** The state [log_alert] leaves. *)
Definition logged (E : Env) (ty msg lvl : string) (w : World) : World :=
  snd (log_alert E ty msg lvl w).

(** The records the channels add to the history besides the alert's own. *)
Definition side_record (r : AlertRecord) : Prop :=
  (type r = "EMAIL" ∧ (level r = "INFO" ∨ level r = "ERROR"))
  ∨ (type r = "WEBHOOK" ∧ level r = "INFO").

(** The history [h'] is [h] with the records [l] appended by [log_alert]. *)
Definition extended (h h' l : list AlertRecord) : Prop :=
  h' = match l with [] => h | _ => last_n 100 (h ++ l) end.

(** What no notification channel touches: the configuration, the cooldown
    timestamps, the path of the log, the clock and the probes. *)
Definition untouched (w : World) :=
  (config (self w), last_alert_time (self w), self_log_file (self w),
   n_time (ticks w), n_probe (ticks w)).

(** What only the webhook channel touches. *)
Definition webhook_side (w : World) := (requests w, n_http (ticks w)).

(** What only the email channel touches. *)
Definition email_side (w : World) := (outbox w, n_smtp (ticks w)).

(** Between [w] and [w'] nothing happened but questions to the surroundings:
    the object, the console, the files, the mail sent and the webhook
    requests are the same. *)
Definition quiet (w w' : World) : Prop :=
  self w' = self w ∧ console w' = console w ∧ files w' = files w
  ∧ outbox w' = outbox w ∧ requests w' = requests w.

(** Between [w] and [w'] one alert was dispatched: its record went to the
    history (followed by at most two records of the channels), and the
    timestamp of [key] is the last reading of the clock. *)
Definition fired (E : Env) (key ty msg lvl : string) (w w' : World) : Prop :=
  ∃ l,
    config (self w') = config (self w)
    ∧ self_log_file (self w') = self_log_file (self w)
    ∧ last_alert_time (self w')
      = <[key := clock E (n_time (ticks w') - 1)]> (last_alert_time (self w))
    ∧ alert_history (self w')
      = last_n 100 (alert_history (self w) ++ new_record E ty msg lvl w :: l)
    ∧ (length l ≤ 2)%nat ∧ Forall side_record l.

(** Between [w] and [w'] only the probes, the clock and [systemctl] were
    asked. *)
Definition only_asked (w w' : World) : Prop :=
  quiet w w'
  ∧ n_date (ticks w') = n_date (ticks w) ∧ n_file (ticks w') = n_file (ticks w)
  ∧ n_smtp (ticks w') = n_smtp (ticks w) ∧ n_http (ticks w') = n_http (ticks w).

(** The verdict of the cooldown tracker in state [w]. *)
Definition permitted_in (E : Env) (key : string) (w : World) : bool :=
  may_fire (last_alert_time (self w)) (alert_cooldown (config (self w))) key
           (clock E (n_time (ticks w))).

(** The JSON payload [send_webhook_alert] posts to [u] for [msg]. *)
Definition webhook_payload (u msg : string) : WebhookRequest :=
  {| req_url := u;
     req_text := "🚨 **ALERTE SYSTÈME**" ++ nl ++ nl ++ msg;
     req_username := "Network Monitor";
     req_icon_emoji := ":warning:";
     req_timeout := 10 |}.

(** The file at [path] holds the appended line [line]. *)
Definition has_line (path line : string) (w : World) : Prop :=
  ∃ f, files w !! path = Some f ∧ line ∈ appended f.

(** The grade the specification fixes for a record of each kind of alert:
    WARNING for CPU, MEMORY and SWAP, CRITICAL for DISK and SERVICE. *)
Definition well_graded (r : AlertRecord) : Prop :=
  (type r ∈ ["CPU"; "MEMORY"; "SWAP"] → level r = "WARNING")
  ∧ (type r ∈ ["DISK"; "SERVICE"] → level r = "CRITICAL").

(** The line [show_status] prints for a reading against its threshold;
    [label] is the name of the metric with the spaces around it. *)
Definition status_line (E : Env) (label : string) (percent threshold : float) : string :=
  (if float_lt percent threshold then "✅" else "⚠️")
  ++ label ++ rjust 5 (format_1f E percent)
  ++ "% (seuil: " ++ str_float E threshold ++ "%)".



(** Every check, with the key of its cooldown and the type and level of its
    record. *)
Definition checks_table (E : Env) (service : string)
  : list (M bool * string * string * string) :=
  [ (check_cpu E, "CPU", "CPU", "WARNING");
    (check_memory E, "MEMORY", "MEMORY", "WARNING");
    (check_disk E, "DISK", "DISK", "CRITICAL");
    (check_swap E, "SWAP", "SWAP", "WARNING");
    (check_service_down E service, "SERVICE_" ++ service, "SERVICE", "CRITICAL") ].

(** The checks of [run_checks] in their order, each with the name it
    reports. *)
Definition cycle (E : Env) : list (M bool * string) :=
  [ (check_cpu E, "CPU"); (check_memory E, "MEMORY"); (check_disk E, "DISK");
    (check_swap E, "SWAP");
    (check_service_down E "nginx", "SERVICE_" ++ "nginx");
    (check_service_down E "ssh", "SERVICE_" ++ "ssh");
    (check_service_down E "mysql", "SERVICE_" ++ "mysql");
    (check_service_down E "postgresql", "SERVICE_" ++ "postgresql") ].

(** Running a list of checks, collecting the names of those that alert. *)
Fixpoint run_cycle (checks : list (M bool * string)) (alerts_triggered : list string)
  : M (list string) :=
  match checks with
  | [] => mret alerts_triggered
  | (check, name) :: rest =>
      down ← check;
      run_cycle rest
        (if down : bool then (alerts_triggered ++ [name])%list else alerts_triggered)
  end.

(** Between [w] and [w'] no alert went out: the object, the files, the mail
    and the webhook requests are the same, and neither the calendar, the
    disk, the SMTP server nor the HTTP endpoint was asked. The console may
    have grown. *)
Definition declined (w w' : World) : Prop :=
  self w' = self w ∧ files w' = files w
  ∧ outbox w' = outbox w ∧ requests w' = requests w
  ∧ n_date (ticks w') = n_date (ticks w) ∧ n_file (ticks w') = n_file (ticks w)
  ∧ n_smtp (ticks w') = n_smtp (ticks w) ∧ n_http (ticks w') = n_http (ticks w).

(** The history holds at most the hundred records [log_alert] keeps. *)
Definition bounded (w : World) : Prop :=
  (length (alert_history (self w)) ≤ 100)%nat.

(** The file at [path] holds what [f] held, with lines appended at its
    end. *)
Definition grown_from (path : string) (f : file) (w : World) : Prop :=
  ∃ f', files w !! path = Some f' ∧ document f' = document f
        ∧ appended f `prefix_of` appended f'.

(** The lines [show_status] prints when the probes have been asked [n]
    times before: the heading, one line for each metric (the swap only when
    there is some) and the closing rule. *)
Definition status_report (E : Env) (th : Thresholds) (n : nat) : list string :=
  ([ (nl ++ repeat_str "=" 70)%string;
     center 70 "🔍 STATUT SYSTÈME";
     (repeat_str "=" 70 ++ nl)%string;
     status_line E " CPU:     " (probe_cpu E n) (cpu th);
     status_line E " Mémoire: " (probe_memory E (S n)) (memory th);
     status_line E " Disque:  " (probe_disk E (S (S n))) (disk th) ]
   ++ (if 0 <? fst (probe_swap E (S (S (S n))))
       then [status_line E " SWAP:    " (snd (probe_swap E (S (S (S n))))) (swap th)]
       else [])
   ++ [ (nl ++ repeat_str "=" 70)%string ])%list.

(** The verdicts of a list of checks run one after the other from [w], and
    the state they leave; nothing when one of them raises. *)
Fixpoint verdicts (checks : list (M bool * string)) (w : World)
  : option (list bool * World) :=
  match checks with
  | [] => Some ([], w)
  | (check, _) :: rest =>
      match check w with
      | (Ok b, w') =>
          match verdicts rest w' with
          | Some (bs, w'') => Some (b :: bs, w'')
          | None => None
          end
      | (Raise _, _) => None
      end
  end.

(** The names of the checks whose verdict is true. *)
Fixpoint alerting (checks : list (M bool * string)) (bs : list bool) : list string :=
  match checks, bs with
  | (_, name) :: rest, b :: bs' =>
      if b : bool then name :: alerting rest bs' else alerting rest bs'
  | _, _ => []
  end.

(** ** Sample surroundings and states

    Concrete inputs on which the statements below are exercised. *)

Module Sample.

(** A host with the CPU at 81 %, the disk at 95 %, no swap (though a reading of 99.5 %), a stopped [mysql]
    (the probe prints [unknown]), an SMTP server that refuses the login and a
    webhook endpoint that answers 200. The clock reads 1300, 1400, 1500... *)
Definition env : Env :=
  {| probe_cpu := fun _ => 81.0%float;
     probe_memory := fun _ => 50.0%float;
     probe_disk := fun _ => 95.0%float;
     probe_swap := fun _ => (0, 99.5%float);
     clock := fun n => (1300 + 100 * PrimFloat.of_uint63 (Uint63.of_Z (Z.of_nat n)))%float;
     calendar := fun _ => "2024-05-17 10:15:00";
     host := fun _ => "srv01";
     disk_write := fun _ => None;
     smtp_answer := fun _ => SmtpError Login "(535, b'Authentication failed')";
     requests_installed := true;
     http_answer := fun _ => HttpResponse 200;
     systemctl_answer := fun _ name =>
       if String.eqb name "mysql" then Completed ("unknown" ++ nl)
       else Completed ("active" ++ nl);
     format_1f := fun _ => "81.0";
     str_float := fun _ => "80.0";
     str_int := fun _ => "500";
     json_error := fun _ => "Expecting value: line 1 column 1 (char 0)";
     overflow_error := "timestamp too large to convert to C _PyTime_t" |}.

(** The host of the specification's scenario: the CPU reads 81.0, then 90.0;
    the clock reads 1000 (when the first alert is stamped), 1100 (at the
    second check) and 1301 from then on. *)
Definition scenario : Env :=
  {| probe_cpu := fun n => match n with O => 81.0%float | _ => 90.0%float end;
     probe_memory := probe_memory env; probe_disk := probe_disk env;
     probe_swap := probe_swap env;
     clock := fun n => match n with
                       | O => 1000%float
                       | S O => 1100%float
                       | _ => 1301%float
                       end;
     calendar := calendar env; host := host env; disk_write := disk_write env;
     smtp_answer := smtp_answer env; requests_installed := requests_installed env;
     http_answer := http_answer env; systemctl_answer := systemctl_answer env;
     format_1f := fun x => if PrimFloat.eqb x 90 then "90.0" else "81.0";
     str_float := str_float env; str_int := str_int env;
     json_error := json_error env; overflow_error := overflow_error env |}.

(** The same host with a log file that cannot be written. *)
Definition env_read_only : Env :=
  {| probe_cpu := probe_cpu env; probe_memory := probe_memory env;
     probe_disk := probe_disk env; probe_swap := probe_swap env;
     clock := clock env; calendar := calendar env; host := host env;
     disk_write := fun _ => Some "[Errno 13] Permission denied: 'alerts.log'";
     smtp_answer := smtp_answer env; requests_installed := requests_installed env;
     http_answer := http_answer env; systemctl_answer := systemctl_answer env;
     format_1f := format_1f env; str_float := str_float env; str_int := str_int env;
     json_error := json_error env; overflow_error := overflow_error env |}.

(** The default configuration with the email and webhook channels enabled. *)
Definition all_channels : Config :=
  {| thresholds := thresholds default_config;
     check_interval := check_interval default_config;
     alert_cooldown := alert_cooldown default_config;
     email := {| email_enabled := true;
                 smtp_server := "smtp.example.com";
                 smtp_port := 587;
                 email_from := "alerts@example.com";
                 email_to := ["admin@example.com"];
                 password := "secret" |};
     webhook := {| webhook_enabled := true;
                   url := "https://hooks.example.com/T000";
                   method := "POST" |};
     log_file := log_file default_config;
     console_alerts := console_alerts default_config |}.

(** The default configuration with the CPU threshold at the sample's reading. *)
Definition cpu_at_reading : Config :=
  {| thresholds := {| cpu := 81.0; memory := 85.0; disk := 90.0; swap := 80.0 |};
     check_interval := check_interval default_config;
     alert_cooldown := alert_cooldown default_config;
     email := email default_config;
     webhook := webhook default_config;
     log_file := log_file default_config;
     console_alerts := console_alerts default_config |}.

(** The state [__init__] leaves for a configuration, on an empty disk. *)
Definition started (c : Config) : World :=
  {| self := {| config := c; alert_history := []; last_alert_time := ∅;
                self_log_file := log_file c |};
     console := []; files := ∅; outbox := []; requests := [];
     ticks := mkTicks 0 0 0 0 0 0 0 |}.

(** The same, when alerts of the kinds [kinds] fired at time [t0]. *)
Definition fired_at (c : Config) (kinds : list string) (t0 : float) : World :=
  with_self
    (set_last_alert_time (list_to_map ((fun k => (k, t0)) <$> kinds)))
    (started c).

(** The same, with a history of [n] records. *)
Definition with_history (c : Config) (n : nat) : World :=
  with_self
    (set_alert_history
       ((fun i => {| timestamp := "2024-05-17 10:00:00"; type := "DISK";
                     message := pretty i; level := "CRITICAL" |}) <$> seq 0 n))
    (started c).


(** The same host without the [requests] module. *)
Definition env_without_requests : Env :=
  {| probe_cpu := probe_cpu env; probe_memory := probe_memory env;
     probe_disk := probe_disk env; probe_swap := probe_swap env;
     clock := clock env; calendar := calendar env; host := host env;
     disk_write := disk_write env; smtp_answer := smtp_answer env;
     requests_installed := false;
     http_answer := http_answer env; systemctl_answer := systemctl_answer env;
     format_1f := format_1f env; str_float := str_float env; str_int := str_int env;
     json_error := json_error env; overflow_error := overflow_error env |}.

(** The same host without [systemctl]. *)
Definition env_without_systemctl : Env :=
  {| probe_cpu := probe_cpu env; probe_memory := probe_memory env;
     probe_disk := probe_disk env; probe_swap := probe_swap env;
     clock := clock env; calendar := calendar env; host := host env;
     disk_write := disk_write env; smtp_answer := smtp_answer env;
     requests_installed := requests_installed env;
     http_answer := http_answer env;
     systemctl_answer := fun _ _ =>
       ProcError "[Errno 2] No such file or directory: 'systemctl'";
     format_1f := format_1f env; str_float := str_float env; str_int := str_int env;
     json_error := json_error env; overflow_error := overflow_error env |}.


(** A configuration file that gives the thresholds and nothing else. *)
Definition thresholds_only : UserConfig :=
  {| u_thresholds := Some {| cpu := 50.0; memory := 60.0; disk := 70.0; swap := 40.0 |};
     u_check_interval := None; u_alert_cooldown := None; u_email := None;
     u_webhook := None; u_log_file := None; u_console_alerts := None |}.

(** The state [w] with the file [f] at [path]. *)
Definition on_disk (path : string) (f : file) (w : World) : World :=
  with_files (fun fs => <[path := f]> fs) w.

End Sample.

(** ** Reasoning about methods *)

(** [m] never raises. *)
Definition safe {A} (m : M A) : Prop :=
  ∀ w, ∃ a, fst (m w) = Ok a.

(** [m] leaves the observation [f] of the state as it found it, whether it
    returns or raises. *)
Definition stable {A B} (f : World → B) (m : M A) : Prop :=
  ∀ w, f (snd (m w)) = f w.

(** [m] keeps the property [P] of the state, whether it returns or raises. *)
Definition preserves {A} (P : World → Prop) (m : M A) : Prop :=
  ∀ w, P w → P (snd (m w)).

(** What a property of the state has to survive for the checks to keep it:
    the questions to the probes, the clock and [systemctl], a line on the
    console, a new timestamp, and the three channels. *)
Record kept_by_checks (E : Env) (P : World → Prop) : Prop := mk_kept_by_checks {
  kept_probe : ∀ w, P w → P (with_ticks tick_probe w);
  kept_time : ∀ w, P w → P (with_ticks tick_time w);
  kept_proc : ∀ w, P w → P (with_ticks tick_proc w);
  kept_console : ∀ f w, P w → P (with_console f w);
  kept_stamp : ∀ key now w,
    P w →
    P (with_self (fun s => set_last_alert_time (<[key := now]> (last_alert_time s)) s) w);
  kept_log : ∀ ty msg lvl, preserves P (log_alert E ty msg lvl);
  kept_email : ∀ subject msg, preserves P (send_email_alert E subject msg);
  kept_webhook : ∀ msg, preserves P (send_webhook_alert E msg)
}.

Create HintDb safe discriminated.
Create HintDb preserves discriminated.
Create HintDb stable discriminated.

Section Combinators.

Context {A B : Type}.

Lemma bind_ok (m : M A) (k : A → M B) w a w' :
  m w = (Ok a, w') → (m ≫= k) w = k a w'.
Proof. unfold mbind, M_bind. now intros ->. Qed.

Lemma bind_raise (m : M A) (k : A → M B) w e w' :
  m w = (Raise e, w') → (m ≫= k) w = (Raise e, w').
Proof. unfold mbind, M_bind. now intros ->. Qed.

Lemma safe_run (m : M A) w :
  safe m → ∃ a, m w = (Ok a, snd (m w)).
Proof.
  intros Hm. destruct (Hm w) as [a Ha]. exists a.
  destruct (m w) as [r w']. simpl in *. now subst.
Qed.

Lemma bind_safe (m : M A) (k : A → M B) w :
  safe m → ∃ a, m w = (Ok a, snd (m w)) ∧ (m ≫= k) w = k a (snd (m w)).
Proof.
  intros Hm. destruct (safe_run m w Hm) as [a Ha]. exists a. split; [done|].
  now apply bind_ok.
Qed.

Lemma safe_ret (a : A) : safe (mret a).
Proof. intros w. now exists a. Qed.

Lemma safe_gets (f : World → A) : safe (gets f).
Proof. intros w. now exists (f w). Qed.

Lemma safe_bind (m : M A) (k : A → M B) :
  safe m → (∀ a, safe (k a)) → safe (m ≫= k).
Proof.
  intros Hm Hk w. destruct (bind_safe m k w Hm) as (a & _ & ->). apply Hk.
Qed.

Lemma safe_try_except (m : M A) (h : exn → M A) :
  (∀ e, safe (h e)) → safe (try_except m h).
Proof.
  intros Hh w. unfold try_except. destruct (m w) as [[a|e] w'].
  - now exists a.
  - apply Hh.
Qed.

Lemma safe_if (b : bool) (m1 m2 : M A) :
  safe m1 → safe m2 → safe (if b then m1 else m2).
Proof. now destruct b. Qed.

Lemma stable_ret {C} (f : World → C) (a : A) : stable f (mret a).
Proof. now intros w. Qed.

Lemma stable_gets {C} (f : World → C) (g : World → A) : stable f (gets g).
Proof. now intros w. Qed.

Lemma stable_raise {C} (f : World → C) e : stable f (raise (A := A) e).
Proof. now intros w. Qed.

Lemma stable_bind {C} (f : World → C) (m : M A) (k : A → M B) :
  stable f m → (∀ a, stable f (k a)) → stable f (m ≫= k).
Proof.
  intros Hm Hk w. unfold mbind, M_bind. specialize (Hm w).
  destruct (m w) as [[a|e] w']; simpl in *; [|done].
  now rewrite Hk.
Qed.

Lemma stable_try_except {C} (f : World → C) (m : M A) (h : exn → M A) :
  stable f m → (∀ e, stable f (h e)) → stable f (try_except m h).
Proof.
  intros Hm Hh w. unfold try_except. specialize (Hm w).
  destruct (m w) as [[a|e] w']; simpl in *; [done|].
  now rewrite Hh.
Qed.

Lemma stable_if {C} (f : World → C) (b : bool) (m1 m2 : M A) :
  stable f m1 → stable f m2 → stable f (if b then m1 else m2).
Proof. now destruct b. Qed.

End Combinators.

Lemma safe_call {A} (m : M A) : safe m → safe (call m).
Proof. intros Hm. unfold call. apply safe_bind; [done|]. intros _. apply safe_ret. Qed.

Lemma stable_call {A C} (f : World → C) (m : M A) : stable f m → stable f (call m).
Proof. intros Hm. unfold call. apply stable_bind; [done|]. intros _. apply stable_ret. Qed.

Lemma safe_modify (f : World → World) : safe (modify f).
Proof. intros w. now exists tt. Qed.

Lemma safe_when (b : bool) (m : M unit) : safe m → safe (when b m).
Proof. intros Hm. destruct b; [done|]. apply safe_ret. Qed.

Lemma stable_when {C} (f : World → C) (b : bool) (m : M unit) :
  stable f m → stable f (when b m).
Proof. intros Hm. destruct b; [done|]. apply stable_ret. Qed.

Lemma stable_modify {C} (f : World → C) (g : World → World) :
  (∀ w, f (g w) = f w) → stable f (modify g).
Proof. intros Hg w. apply Hg. Qed.

#[export] Hint Resolve safe_ret safe_gets safe_bind safe_try_except safe_call
  safe_if safe_modify safe_when : safe.
#[export] Hint Resolve stable_ret stable_gets stable_raise stable_bind
  stable_try_except stable_call stable_if stable_when : stable.
#[export] Hint Extern 1 (stable _ (modify _)) =>
  apply stable_modify; intros ?; reflexivity : stable.
#[export] Hint Extern 2 (stable _ (match ?x with _ => _ end)) => destruct x : stable.
#[export] Hint Extern 2 (safe (match ?x with _ => _ end)) => destruct x : safe.

(** The calls into the surroundings: which of them can raise, and what each
    leaves alone. *)
Ltac stable_call_out :=
  let w := fresh "w" in
  intros w;
  cbv [psutil_cpu_percent psutil_virtual_memory psutil_disk_usage
       psutil_swap_memory time_time datetime_now_strftime getoutput_hostname
       path_exists open_append_write open_write_json_dump open_read_json_load
       smtp_step smtplib_SMTP server_starttls server_login server_quit
       import_requests requests_post subprocess_run_is_active print
       gets modify raise mret M_ret];
  repeat case_match; simplify_eq/=; reflexivity.

#[export] Hint Extern 3 (stable _ (psutil_cpu_percent _)) => stable_call_out : stable.
#[export] Hint Extern 3 (stable _ (psutil_virtual_memory _)) => stable_call_out : stable.
#[export] Hint Extern 3 (stable _ (psutil_disk_usage _)) => stable_call_out : stable.
#[export] Hint Extern 3 (stable _ (psutil_swap_memory _)) => stable_call_out : stable.
#[export] Hint Extern 3 (stable _ (time_time _)) => stable_call_out : stable.
#[export] Hint Extern 3 (stable _ (datetime_now_strftime _)) => stable_call_out : stable.
#[export] Hint Extern 3 (stable _ (getoutput_hostname _)) => stable_call_out : stable.
#[export] Hint Extern 3 (stable _ (open_append_write _ _ _)) => stable_call_out : stable.
#[export] Hint Extern 3 (stable _ (smtp_step _ _ _)) => stable_call_out : stable.
#[export] Hint Extern 3 (stable _ (smtplib_SMTP _ _ _)) => stable_call_out : stable.
#[export] Hint Extern 3 (stable _ (server_starttls _ _)) => stable_call_out : stable.
#[export] Hint Extern 3 (stable _ (server_login _ _ _ _)) => stable_call_out : stable.
#[export] Hint Extern 3 (stable _ (server_quit _ _)) => stable_call_out : stable.
#[export] Hint Extern 3 (stable _ (import_requests _)) => stable_call_out : stable.
#[export] Hint Extern 3 (stable _ (requests_post _ _)) => stable_call_out : stable.
#[export] Hint Extern 3 (stable _ (subprocess_run_is_active _ _)) => stable_call_out : stable.
#[export] Hint Extern 3 (stable _ (print _)) => stable_call_out : stable.

Section Properties.

Variable E : Env.

Lemma safe_print s : safe (print s).
Proof. apply safe_modify. Qed.

Lemma safe_datetime_now_strftime : safe (datetime_now_strftime E).
Proof. intros w. now eexists. Qed.

Lemma safe_time_time : safe (time_time E).
Proof. intros w. now eexists. Qed.

Hint Resolve safe_print safe_datetime_now_strftime safe_time_time : safe.

(** *** [log_alert] *)

Lemma log_alert_safe ty msg lvl : safe (log_alert E ty msg lvl).
Proof. unfold log_alert. eauto 20 with safe. Qed.

Lemma last_n_short {A} (n : nat) (l : list A) :
  (length l ≤ n)%nat → last_n n l = l.
Proof. intros H. unfold last_n. replace (length l - n)%nat with 0%nat by lia. done. Qed.

Lemma last_n_length {A} (n : nat) (l : list A) :
  (length (last_n n l) ≤ n)%nat.
Proof. unfold last_n. rewrite length_drop. lia. Qed.

Lemma last_n_snoc_full {A} (n : nat) (x y : A) (l : list A) :
  length l = n → last_n (S n) ((x :: l) ++ [y]) = (l ++ [y])%list.
Proof.
  intros <-. unfold last_n. rewrite length_app. cbn [length].
  replace (S (length l) + 1 - S (length l))%nat with 1%nat by lia. done.
Qed.

Lemma last_n_app_last_n {A} (n : nat) (a b : list A) :
  last_n n (last_n n a ++ b) = last_n n (a ++ b).
Proof.
  destruct (decide (length a ≤ n)%nat) as [Hle|Hgt].
  - now rewrite (last_n_short n a).
  - unfold last_n. rewrite !length_app, length_drop.
    replace (length a - (length a - n) + length b - n)%nat with (length b) by lia.
    replace (length a + length b - n)%nat with ((length a - n) + length b)%nat by lia.
    rewrite <- drop_drop. f_equal. rewrite drop_app_le by lia. done.
Qed.

Lemma last_n_keeps {A} (n : nat) (h l : list A) (x : A) :
  (length l < n)%nat → x ∈ last_n n (h ++ x :: l).
Proof.
  intros Hl. unfold last_n. rewrite length_app. cbn [length].
  rewrite drop_app_le by lia. set_solver.
Qed.

Lemma last_n_sublist {A} (n : nat) (l : list A) (P : A → Prop) :
  Forall P l → Forall P (last_n n l).
Proof. unfold last_n. apply Forall_drop. Qed.

Ltac run_log_alert :=
  unfold log_alert;
  cbv [mbind M_bind mret M_ret gets modify when try_except datetime_now_strftime
       open_append_write print];
  cbn [fst snd self ticks with_ticks with_self with_files with_console];
  repeat case_match; simplify_eq/=.

Lemma log_alert_run ty msg lvl w :
  log_alert E ty msg lvl w = (Ok tt, snd (log_alert E ty msg lvl w)).
Proof.
  destruct (safe_run (log_alert E ty msg lvl) w (log_alert_safe ty msg lvl)) as [[] H].
  exact H.
Qed.

Lemma log_alert_history ty msg lvl w :
  alert_history (self (snd (log_alert E ty msg lvl w))) =
  last_n 100 (alert_history (self w) ++ [new_record E ty msg lvl w]).
Proof.
  run_log_alert; try reflexivity;
    symmetry; apply last_n_short;
    match goal with H : (_ <? _)%nat = false |- _ => apply Nat.ltb_ge in H; exact H end.
Qed.

Lemma log_alert_files_failed ty msg lvl w reason :
  disk_write E (n_file (ticks w)) = Some reason →
  files (snd (log_alert E ty msg lvl w)) = files w.
Proof. intros H. run_log_alert; reflexivity. Qed.

Lemma log_alert_files_written ty msg lvl w :
  disk_write E (n_file (ticks w)) = None →
  files (snd (log_alert E ty msg lvl w)) =
  <[self_log_file (self w) :=
      append_to (log_line (new_record E ty msg lvl w))
                (files w !! self_log_file (self w))]> (files w).
Proof. intros H. run_log_alert; reflexivity. Qed.

(** *** The notification channels *)

Hint Extern 3 (stable _ (log_alert _ _ _ _)) => unfold log_alert : stable.
Hint Extern 3 (stable _ (send_email_alert _ _ _)) => unfold send_email_alert : stable.
Hint Extern 3 (stable _ (send_webhook_alert _ _)) => unfold send_webhook_alert : stable.
Hint Extern 3 (stable _ (server_send_message _ _ _)) => unfold server_send_message : stable.
Hint Resolve log_alert_safe : safe.

Lemma send_email_alert_safe subject msg : safe (send_email_alert E subject msg).
Proof. unfold send_email_alert. eauto 40 with safe. Qed.

Lemma send_webhook_alert_safe msg : safe (send_webhook_alert E msg).
Proof. unfold send_webhook_alert. eauto 40 with safe. Qed.

Hint Resolve send_email_alert_safe send_webhook_alert_safe : safe.

Lemma log_alert_logged ty msg lvl w :
  log_alert E ty msg lvl w = (Ok tt, logged E ty msg lvl w).
Proof. apply log_alert_run. Qed.

Lemma logged_history ty msg lvl w :
  alert_history (self (logged E ty msg lvl w)) =
  last_n 100 (alert_history (self w) ++ [new_record E ty msg lvl w]).
Proof. apply log_alert_history. Qed.

Lemma log_alert_untouched ty msg lvl : stable untouched (log_alert E ty msg lvl).
Proof. unfold untouched. eauto 30 with stable. Qed.

Lemma send_email_alert_untouched subject msg :
  stable untouched (send_email_alert E subject msg).
Proof. unfold untouched. eauto 40 with stable. Qed.

Lemma send_webhook_alert_untouched msg :
  stable untouched (send_webhook_alert E msg).
Proof. unfold untouched. eauto 40 with stable. Qed.

Lemma log_alert_webhook_side ty msg lvl : stable webhook_side (log_alert E ty msg lvl).
Proof. unfold webhook_side. eauto 30 with stable. Qed.

Lemma send_email_alert_webhook_side subject msg :
  stable webhook_side (send_email_alert E subject msg).
Proof. unfold webhook_side. eauto 40 with stable. Qed.

Lemma log_alert_email_side ty msg lvl : stable email_side (log_alert E ty msg lvl).
Proof. unfold email_side. eauto 30 with stable. Qed.

Lemma send_webhook_alert_email_side msg :
  stable email_side (send_webhook_alert E msg).
Proof. unfold email_side. eauto 40 with stable. Qed.

Arguments log_alert : simpl never.
Arguments String.append : simpl never.
Arguments last_n : simpl never.

Ltac run_channel :=
  cbv [mbind M_bind mret M_ret gets modify when call try_except raise
       getoutput_hostname datetime_now_strftime smtplib_SMTP smtp_step
       server_starttls server_login server_send_message server_quit
       import_requests requests_post print];
  cbn;
  repeat match goal with
    | |- context [email_enabled ?c] => destruct (email_enabled c) eqn:?; cbn
    | |- context [webhook_enabled ?c] => destruct (webhook_enabled c) eqn:?; cbn
    | |- context [smtp_answer E ?n] =>
        destruct (smtp_answer E n) as [|[] ?] eqn:?; simplify_eq; cbn
    | |- context [bool_decide (?a = ?b)] => case_bool_decide; simplify_eq; cbn
    | |- context [requests_installed E] => destruct (requests_installed E) eqn:?; cbn
    | |- context [http_answer E ?n] => destruct (http_answer E n) eqn:?; cbn
    | |- context [(?c =? 200)%Z] => destruct (c =? 200)%Z eqn:?; cbn
    | |- context [log_alert E ?a ?b ?c ?w] => rewrite (log_alert_logged a b c w); cbn
    end.

Lemma extended_nil h : extended h h [].
Proof. reflexivity. Qed.

Lemma logged_extended ty msg lvl w :
  extended (alert_history (self w)) (alert_history (self (logged E ty msg lvl w)))
    [new_record E ty msg lvl w].
Proof. unfold extended. apply logged_history. Qed.

Ltac one_side_record :=
  first
    [ exists []; split; [reflexivity | split; [simpl; lia | constructor ] ]
    | eexists [_]; split;
      [ unfold extended; rewrite logged_history; reflexivity
      | split; [simpl; lia | apply Forall_singleton; unfold side_record; simpl; tauto ] ] ].

Lemma send_email_alert_history subject msg w :
  ∃ l, extended (alert_history (self w))
                (alert_history (self (snd (send_email_alert E subject msg w)))) l
       ∧ (length l ≤ 1)%nat ∧ Forall side_record l.
Proof. unfold send_email_alert. run_channel; one_side_record. Qed.

Lemma send_webhook_alert_history msg w :
  ∃ l, extended (alert_history (self w))
                (alert_history (self (snd (send_webhook_alert E msg w)))) l
       ∧ (length l ≤ 1)%nat ∧ Forall side_record l.
Proof. unfold send_webhook_alert. run_channel; one_side_record. Qed.

Lemma extended_after_record h r l0 h1 h2 l :
  h1 = last_n 100 (h ++ r :: l0) → extended h1 h2 l →
  h2 = last_n 100 (h ++ r :: (l0 ++ l)).
Proof.
  intros -> ->. destruct l as [|x l].
  - now rewrite app_nil_r.
  - rewrite last_n_app_last_n. now rewrite <- app_assoc.
Qed.

(** *** The dispatch block *)

Lemma call_snd {A} (m : M A) w : snd (call m w) = snd (m w).
Proof. unfold call, mbind, M_bind. now destruct (m w) as [[a|e] w']. Qed.

Lemma when_call_history {A} (b : bool) (m : M A) w :
  (∃ l, extended (alert_history (self w)) (alert_history (self (snd (m w)))) l
        ∧ (length l ≤ 1)%nat ∧ Forall side_record l) →
  ∃ l, extended (alert_history (self w))
         (alert_history (self (snd (when b (call m) w)))) l
       ∧ (length l ≤ 1)%nat ∧ Forall side_record l.
Proof.
  intros H. destruct b; simpl.
  - now rewrite call_snd.
  - exists []. repeat split; [simpl; lia | constructor].
Qed.

Lemma untouched_eq w w' :
  untouched w' = untouched w →
  config (self w') = config (self w)
  ∧ last_alert_time (self w') = last_alert_time (self w)
  ∧ self_log_file (self w') = self_log_file (self w)
  ∧ n_time (ticks w') = n_time (ticks w)
  ∧ n_probe (ticks w') = n_probe (ticks w).
Proof. unfold untouched. intros H. by simplify_eq. Qed.

Lemma bind_gets {A B} (f : World → A) (k : A → M B) w :
  (gets f ≫= k) w = k (f w) w.
Proof. reflexivity. Qed.

Lemma bind_modify {B} (f : World → World) (k : unit → M B) w :
  (modify f ≫= k) w = k tt (f w).
Proof. reflexivity. Qed.

Lemma bind_time_time {B} (k : float → M B) w :
  (time_time E ≫= k) w = k (clock E (n_time (ticks w))) (with_ticks tick_time w).
Proof. reflexivity. Qed.

Lemma stable_at {A C} (f : World → C) (m : M A) w :
  stable f m → f (snd (m w)) = f w.
Proof. intros H. apply H. Qed.

Lemma dispatch_spec key ty msg lvl subject w :
  ∃ w' l,
    dispatch E key ty msg lvl subject w = (Ok true, w')
    ∧ config (self w') = config (self w)
    ∧ self_log_file (self w') = self_log_file (self w)
    ∧ last_alert_time (self w')
      = <[key := clock E (n_time (ticks w))]> (last_alert_time (self w))
    ∧ alert_history (self w')
      = last_n 100 (alert_history (self w) ++ new_record E ty msg lvl w :: l)
    ∧ (length l ≤ 2)%nat ∧ Forall side_record l
    ∧ n_time (ticks w') = S (n_time (ticks w))
    ∧ n_probe (ticks w') = n_probe (ticks w).
Proof.
  unfold dispatch. rewrite bind_gets. set (cfg := config (self w)).
  (* console *)
  set (m1 := when (console_alerts cfg) (print _)). set (w1 := snd (m1 w)).
  assert (S1 : safe m1) by (subst m1; eauto with safe).
  assert (U1 : untouched w1 = untouched w)
    by (apply (stable_at untouched m1); subst m1; unfold untouched; eauto with stable).
  assert (H1 : alert_history (self w1) = alert_history (self w))
    by (apply (stable_at (fun w => alert_history (self w)) m1); subst m1; eauto with stable).
  assert (D1 : n_date (ticks w1) = n_date (ticks w))
    by (apply (stable_at (fun w => n_date (ticks w)) m1); subst m1; eauto with stable).
  match goal with |- context [(m1 ≫= ?k) w] =>
    destruct (bind_safe m1 k w S1) as ([] & _ & ->) end.
  fold w1. clearbody w1. clear S1.
  (* log *)
  rewrite (bind_ok _ _ w1 _ _ (log_alert_logged ty msg lvl w1)).
  set (w2 := logged E ty msg lvl w1).
  assert (U2 : untouched w2 = untouched w1) by apply log_alert_untouched.
  assert (H2 : alert_history (self w2)
               = last_n 100 (alert_history (self w) ++ new_record E ty msg lvl w :: []))
    by (subst w2; rewrite logged_history, H1; unfold new_record; now rewrite D1).
  clearbody w2.
  (* email *)
  set (m3 := when (email_enabled (email cfg)) (call (send_email_alert E subject msg))).
  set (w3 := snd (m3 w2)).
  assert (S3 : safe m3) by (subst m3; eauto with safe).
  assert (U3 : untouched w3 = untouched w2)
    by (apply (stable_at untouched m3); subst m3; auto using send_email_alert_untouched with stable).
  destruct (when_call_history (email_enabled (email cfg)) (send_email_alert E subject msg) w2
              (send_email_alert_history subject msg w2)) as (l3 & X3 & L3 & F3).
  fold m3 w3 in X3.
  pose proof (extended_after_record _ _ _ _ _ _ H2 X3) as H3.
  match goal with |- context [(m3 ≫= ?k) w2] =>
    destruct (bind_safe m3 k w2 S3) as ([] & _ & ->) end.
  fold w3. clearbody w3. clear S3 X3.
  (* webhook *)
  set (m4 := when (webhook_enabled (webhook cfg)) (call (send_webhook_alert E msg))).
  set (w4 := snd (m4 w3)).
  assert (S4 : safe m4) by (subst m4; eauto with safe).
  assert (U4 : untouched w4 = untouched w3)
    by (apply (stable_at untouched m4); subst m4; auto using send_webhook_alert_untouched with stable).
  destruct (when_call_history (webhook_enabled (webhook cfg)) (send_webhook_alert E msg) w3
              (send_webhook_alert_history msg w3)) as (l4 & X4 & L4 & F4).
  fold m4 w4 in X4.
  pose proof (extended_after_record _ _ _ _ _ _ H3 X4) as H4.
  match goal with |- context [(m4 ≫= ?k) w3] =>
    destruct (bind_safe m4 k w3 S4) as ([] & _ & ->) end.
  fold w4. clearbody w4. clear S4 X4.
  (* timestamp *)
  rewrite bind_time_time, bind_modify.
  apply untouched_eq in U1, U2, U3, U4.
  destruct U1 as (C1 & T1 & P1 & N1 & B1), U2 as (C2 & T2 & P2 & N2 & B2),
           U3 as (C3 & T3 & P3 & N3 & B3), U4 as (C4 & T4 & P4 & N4 & B4).
  eexists _, (l3 ++ l4)%list. split; [reflexivity|]. cbn.
  repeat split; try congruence.
  - subst cfg. congruence.
  - exact H4.
  - rewrite length_app. lia.
  - now apply Forall_app.
Qed.

(** *** Comparisons of floats *)

Lemma SFcompare_Eq_sym x y : SFcompare x y = Some Eq → SFcompare y x = Some Eq.
Proof.
  destruct x as [[]|[]| |[] m1 e1], y as [[]|[]| |[] m2 e2]; simpl; try done.
  all: destruct (Z.compare_spec e1 e2) as [->| |]; try done.
  all: rewrite Z.compare_refl.
  all: change (PosDef.Pos.compare_cont Eq m1 m2) with (Pos.compare m1 m2).
  all: change (PosDef.Pos.compare_cont Eq m2 m1) with (Pos.compare m2 m1).
  all: destruct (Pos.compare_spec m1 m2) as [->| |]; try done.
  all: now rewrite Pos.compare_refl.
Qed.

(** [r == t] excludes [r > t]. *)
Lemma float_eq_not_gt r t : PrimFloat.eqb r t = true → float_gt r t = false.
Proof.
  unfold float_gt. rewrite FloatAxioms.eqb_spec, FloatAxioms.ltb_spec. unfold SFeqb, SFltb.
  destruct (SFcompare (Prim2SF r) (Prim2SF t)) as [[]|] eqn:H; try done.
  intros _. now rewrite (SFcompare_Eq_sym _ _ H).
Qed.

(** No float is greater than itself (not even [nan]). *)
Lemma float_gt_irrefl r : float_gt r r = false.
Proof.
  unfold float_gt. rewrite FloatAxioms.ltb_spec. unfold SFltb.
  destruct (SFcompare (Prim2SF r) (Prim2SF r)) as [[]|] eqn:H; try done.
  destruct (Prim2SF r) as [[]|[]| |[] m e]; simpl in H; try done.
  all: rewrite Z.compare_refl in H.
  all: change (PosDef.Pos.compare_cont Eq m m) with (Pos.compare m m) in H.
  all: now rewrite Pos.compare_refl in H.
Qed.

(** [x == n] gives [x >= n], and [x < n] excludes it. *)
Lemma float_eq_int_ge x n : float_eq_int x n = true → float_ge_int x n = true.
Proof. unfold float_eq_int, float_ge_int. by repeat case_match. Qed.

Lemma float_lt_int_not_ge x n : float_lt_int x n = true → float_ge_int x n = false.
Proof. unfold float_lt_int, float_ge_int. by repeat case_match. Qed.

(** *** [can_send_alert] *)

Lemma can_send_alert_run K w :
  can_send_alert E K w
  = (Ok (may_fire (last_alert_time (self w)) (alert_cooldown (config (self w))) K
                  (clock E (n_time (ticks w)))),
     asked K w).
Proof.
  unfold can_send_alert, may_fire, asked.
  rewrite !bind_gets. now destruct (last_alert_time (self w) !! K).
Qed.

Lemma asked_self K w : self (asked K w) = self w.
Proof. unfold asked. now destruct (last_alert_time (self w) !! K). Qed.

(** *** The checks run the dispatch block *)

Lemma check_cpu_dispatch w :
  check_cpu E w =
  let r := probe_cpu E (n_probe (ticks w)) in
  let t := cpu (thresholds (config (self w))) in
  let w1 := with_ticks tick_probe w in
  (if float_gt r t then
     permitted ← can_send_alert E "CPU";
     if permitted : bool
     then dispatch E "CPU" "CPU" (alert_message E "CPU élevé: " r t) "WARNING" "CPU élevé"
     else mret false
   else mret false) w1.
Proof. reflexivity. Qed.

Lemma check_memory_dispatch w :
  check_memory E w =
  let r := probe_memory E (n_probe (ticks w)) in
  let t := memory (thresholds (config (self w))) in
  let w1 := with_ticks tick_probe w in
  (if float_gt r t then
     permitted ← can_send_alert E "MEMORY";
     if permitted : bool
     then dispatch E "MEMORY" "MEMORY" (alert_message E "Mémoire élevée: " r t) "WARNING"
            "Mémoire élevée"
     else mret false
   else mret false) w1.
Proof. reflexivity. Qed.

Lemma check_disk_dispatch w :
  check_disk E w =
  let r := probe_disk E (n_probe (ticks w)) in
  let t := disk (thresholds (config (self w))) in
  let w1 := with_ticks tick_probe w in
  (if float_gt r t then
     permitted ← can_send_alert E "DISK";
     if permitted : bool
     then dispatch E "DISK" "DISK" (alert_message E "Disque plein: " r t) "CRITICAL"
            "Disque plein"
     else mret false
   else mret false) w1.
Proof. reflexivity. Qed.

Lemma check_swap_dispatch w :
  check_swap E w =
  let total := fst (probe_swap E (n_probe (ticks w))) in
  let r := snd (probe_swap E (n_probe (ticks w))) in
  let t := swap (thresholds (config (self w))) in
  let w1 := with_ticks tick_probe w in
  (if total =? 0 then mret false
   else if float_gt r t then
     permitted ← can_send_alert E "SWAP";
     if permitted : bool
     then dispatch E "SWAP" "SWAP" (alert_message E "SWAP élevé: " r t) "WARNING"
            "SWAP élevé"
     else mret false
   else mret false) w1.
Proof.
  cbv zeta. unfold check_swap. unfold mbind at 1. unfold M_bind at 1.
  unfold psutil_swap_memory. cbv beta iota.
  now destruct (fst (probe_swap E (n_probe (ticks w))) =? 0).
Qed.

(** *** What a check does, in one statement *)

Lemma quiet_refl w : quiet w w.
Proof. by repeat split. Qed.

Lemma quiet_probe w : quiet w (with_ticks tick_probe w).
Proof. by repeat split. Qed.

Lemma quiet_proc w : quiet w (with_ticks tick_proc w).
Proof. by repeat split. Qed.

Lemma quiet_asked K w w1 : quiet w w1 → quiet w (asked K w1).
Proof.
  unfold asked. destruct (last_alert_time (self w1) !! K); [|done].
  intros (? & ? & ? & ? & ?). by repeat split.
Qed.

(** The block of a check that follows its condition: the cooldown query and,
    when it permits, the dispatch. [w1] is the state after the probe. *)
Lemma guarded_outcome key ty msg lvl subject w w1 :
  self w1 = self w →
  n_time (ticks w1) = n_time (ticks w) →
  n_date (ticks w1) = n_date (ticks w) →
  let g := (permitted ← can_send_alert E key;
            if permitted : bool then dispatch E key ty msg lvl subject else mret false) in
  fst (g w1) = Ok (permitted_in E key w)
  ∧ (if permitted_in E key w
     then fired E key ty msg lvl w (snd (g w1))
     else snd (g w1) = asked key w1).
Proof.
  intros Hs Ht Hd g. subst g.
  rewrite (bind_ok _ _ w1 _ _ (can_send_alert_run key w1)).
  unfold permitted_in. rewrite <- Hs, <- Ht.
  destruct (may_fire _ _ _ _); [|done].
  destruct (dispatch_spec key ty msg lvl subject (asked key w1))
    as (w' & l & -> & Hc & Hf & Hl & Hh & Hn & Hr & Hk & _).
  rewrite asked_self in *. split; [done|]. exists l. cbn [snd].
  repeat split; try done.
  - now rewrite Hc, Hs.
  - now rewrite Hf, Hs.
  - rewrite Hl, Hk, Hs. do 2 f_equal. lia.
  - rewrite Hh, Hs. unfold new_record. do 4 f_equal.
    rewrite <- Hd. unfold asked. now destruct (_ !! _).
Qed.

(** A threshold check after its probe: [exceeded] is the comparison of the
    reading with the threshold. *)
Lemma threshold_outcome (exceeded : bool) key ty msg lvl subject w :
  let w1 := with_ticks tick_probe w in
  let c := (if exceeded then
              permitted ← can_send_alert E key;
              if permitted : bool then dispatch E key ty msg lvl subject else mret false
            else mret false) w1 in
  let alert := exceeded && permitted_in E key w in
  fst c = Ok alert
  ∧ (if alert then fired E key ty msg lvl w (snd c) else quiet w (snd c))
  ∧ (exceeded = false → snd c = w1).
Proof.
  intros w1 c alert. subst c alert. destruct exceeded; simpl.
  - destruct (guarded_outcome key ty msg lvl subject w w1) as [Hv Hw]; try done.
    split; [done|]. split; [|done].
    destruct (permitted_in E key w); [done|].
    rewrite Hw. apply quiet_asked, quiet_probe.
  - repeat split; try done.
Qed.

Lemma check_cpu_outcome w :
  let r := probe_cpu E (n_probe (ticks w)) in
  let t := cpu (thresholds (config (self w))) in
  let alert := float_gt r t && permitted_in E "CPU" w in
  fst (check_cpu E w) = Ok alert
  ∧ (if alert
     then fired E "CPU" "CPU" (alert_message E "CPU élevé: " r t) "WARNING"
            w (snd (check_cpu E w))
     else quiet w (snd (check_cpu E w)))
  ∧ (float_gt r t = false → snd (check_cpu E w) = with_ticks tick_probe w).
Proof. rewrite check_cpu_dispatch. apply threshold_outcome. Qed.

Lemma check_memory_outcome w :
  let r := probe_memory E (n_probe (ticks w)) in
  let t := memory (thresholds (config (self w))) in
  let alert := float_gt r t && permitted_in E "MEMORY" w in
  fst (check_memory E w) = Ok alert
  ∧ (if alert
     then fired E "MEMORY" "MEMORY" (alert_message E "Mémoire élevée: " r t) "WARNING"
            w (snd (check_memory E w))
     else quiet w (snd (check_memory E w)))
  ∧ (float_gt r t = false → snd (check_memory E w) = with_ticks tick_probe w).
Proof. rewrite check_memory_dispatch. apply threshold_outcome. Qed.

Lemma check_disk_outcome w :
  let r := probe_disk E (n_probe (ticks w)) in
  let t := disk (thresholds (config (self w))) in
  let alert := float_gt r t && permitted_in E "DISK" w in
  fst (check_disk E w) = Ok alert
  ∧ (if alert
     then fired E "DISK" "DISK" (alert_message E "Disque plein: " r t) "CRITICAL"
            w (snd (check_disk E w))
     else quiet w (snd (check_disk E w)))
  ∧ (float_gt r t = false → snd (check_disk E w) = with_ticks tick_probe w).
Proof. rewrite check_disk_dispatch. apply threshold_outcome. Qed.

Lemma check_swap_outcome w :
  let total := fst (probe_swap E (n_probe (ticks w))) in
  let r := snd (probe_swap E (n_probe (ticks w))) in
  let t := swap (thresholds (config (self w))) in
  let alert := negb (total =? 0) && float_gt r t && permitted_in E "SWAP" w in
  fst (check_swap E w) = Ok alert
  ∧ (if alert
     then fired E "SWAP" "SWAP" (alert_message E "SWAP élevé: " r t) "WARNING"
            w (snd (check_swap E w))
     else quiet w (snd (check_swap E w)))
  ∧ (total = 0 ∨ float_gt r t = false → snd (check_swap E w) = with_ticks tick_probe w).
Proof.
  rewrite check_swap_dispatch. cbv zeta.
  destruct (fst (probe_swap E (n_probe (ticks w))) =? 0) eqn:Hz.
  - simpl. by repeat split.
  - simpl negb. rewrite andb_true_l.
    destruct (threshold_outcome
                (float_gt (snd (probe_swap E (n_probe (ticks w))))
                          (swap (thresholds (config (self w)))))
                "SWAP" "SWAP"
                (alert_message E "SWAP élevé: " (snd (probe_swap E (n_probe (ticks w))))
                   (swap (thresholds (config (self w)))))
                "WARNING" "SWAP élevé" w) as (H1 & H2 & H3).
    repeat split; try done.
    intros [H0|Hf]; [|by apply H3].
    apply Z.eqb_neq in Hz. done.
Qed.

(** *** The service check *)

Lemma check_service_down_dispatch S w :
  check_service_down E S w =
  let key := "SERVICE_" ++ S in
  let w1 := with_ticks tick_proc w in
  match systemctl_answer E (n_proc (ticks w)) S with
  | Completed stdout =>
      try_except
        (if negb (String.eqb (strip stdout) "active") then
           permitted ← can_send_alert E key;
           if permitted : bool
           then dispatch E key "SERVICE" ("Service " ++ S ++ " est arrêté") "CRITICAL"
                  ("Service " ++ S ++ " arrêté")
           else mret false
         else mret false)
        (fun e =>
           print ("⚠️  Erreur vérification service " ++ S ++ ": " ++ exn_str e) ;;
           mret false)
        w1
  | ProcError msg =>
      (Ok false,
       with_console
         (fun c => (c ++ [("⚠️  Erreur vérification service " ++ S ++ ": " ++ msg)%string])%list) w1)
  end.
Proof.
  cbv zeta. unfold check_service_down, try_except.
  unfold mbind at 1. unfold M_bind at 1. unfold subprocess_run_is_active.
  now destruct (systemctl_answer E (n_proc (ticks w)) S).
Qed.

Lemma check_service_down_outcome S w :
  let key := "SERVICE_" ++ S in
  let c := check_service_down E S w in
  match systemctl_answer E (n_proc (ticks w)) S with
  | Completed stdout =>
      let alert := negb (String.eqb (strip stdout) "active") && permitted_in E key w in
      fst c = Ok alert
      ∧ (if alert
         then fired E key "SERVICE" ("Service " ++ S ++ " est arrêté") "CRITICAL" w (snd c)
         else quiet w (snd c))
  | ProcError msg => fst c = Ok false ∧ self (snd c) = self w
  end.
Proof.
  intros key c. subst c. rewrite check_service_down_dispatch. cbv zeta. fold key.
  destruct (systemctl_answer E (n_proc (ticks w)) S) as [stdout|msg]; [|by split].
  unfold try_except.
  destruct (String.eqb (strip stdout) "active"); cbn [negb].
  - simpl. split; [done|]. apply quiet_proc.
  - rewrite andb_true_l.
    destruct (guarded_outcome key "SERVICE" ("Service " ++ S ++ " est arrêté") "CRITICAL"
                ("Service " ++ S ++ " arrêté") w (with_ticks tick_proc w))
      as [Hv Hw]; try done.
    cbv zeta in Hv, Hw.
    destruct ((can_send_alert E key ≫= _) (with_ticks tick_proc w)) as [r w'].
    simpl in Hv, Hw. subst r. simpl. split; [done|].
    destruct (permitted_in E key w); [done|].
    subst w'. apply quiet_asked, quiet_proc.
Qed.

Lemma last_n_last {A} (n : nat) (l : list A) (x : A) :
  last (last_n (S n) (l ++ [x])) = Some x.
Proof.
  unfold last_n. rewrite length_app. cbn [length].
  rewrite drop_app_le by lia. apply last_snoc.
Qed.

(** *** The channels, one by one *)

Lemma dispatch_run key ty msg lvl subject w :
  let cfg := config (self w) in
  let w1 := snd (when (console_alerts cfg) (print (nl ++ "⚠️  ALERTE: " ++ msg)) w) in
  let w2 := logged E ty msg lvl w1 in
  let w3 := snd (when (email_enabled (email cfg)) (call (send_email_alert E subject msg)) w2) in
  let w4 := snd (when (webhook_enabled (webhook cfg)) (call (send_webhook_alert E msg)) w3) in
  dispatch E key ty msg lvl subject w
  = (Ok true,
     with_self (fun s => set_last_alert_time
                           (<[key := clock E (n_time (ticks w4))]> (last_alert_time s)) s)
       (with_ticks tick_time w4)).
Proof.
  intros cfg w1 w2 w3 w4. unfold dispatch. rewrite bind_gets. fold cfg.
  match goal with |- context [(?m ≫= ?k) w] =>
    destruct (bind_safe m k w) as ([] & _ & ->); [eauto with safe|] end.
  fold w1. rewrite (bind_ok _ _ w1 _ _ (log_alert_logged ty msg lvl w1)). fold w2.
  match goal with |- context [(?m ≫= ?k) w2] =>
    destruct (bind_safe m k w2) as ([] & _ & ->); [eauto with safe|] end.
  fold w3.
  match goal with |- context [(?m ≫= ?k) w3] =>
    destruct (bind_safe m k w3) as ([] & _ & ->); [eauto with safe|] end.
  fold w4. by rewrite bind_time_time, bind_modify.
Qed.

(** The record of a failed email. *)
Lemma send_email_alert_failure subject msg w stage reason :
  email_enabled (email (config (self w))) = true →
  smtp_answer E (n_smtp (ticks w)) = SmtpError stage reason →
  fst (send_email_alert E subject msg w) = Ok false
  ∧ alert_history (self (snd (send_email_alert E subject msg w)))
    = last_n 100
        (alert_history (self w)
         ++ [ {| timestamp := calendar E (S (n_date (ticks w))); type := "EMAIL";
                 message := "Erreur envoi: " ++ reason; level := "ERROR" |} ]).
Proof.
  intros Hen Hsmtp. unfold send_email_alert.
  run_channel; simplify_eq; try congruence;
    (split; [done|]); rewrite logged_history; reflexivity.
Qed.

(** *** Lines of the log file stay *)

Lemma preserves_ret {A} P (a : A) : preserves P (mret a).
Proof. by intros w. Qed.

Lemma preserves_gets {A} P (f : World → A) : preserves P (gets f).
Proof. by intros w. Qed.

Lemma preserves_bind {A B} P (m : M A) (k : A → M B) :
  preserves P m → (∀ a, preserves P (k a)) → preserves P (m ≫= k).
Proof.
  intros Hm Hk w Hw. unfold mbind, M_bind. specialize (Hm w Hw).
  destruct (m w) as [[a|e] w']; simpl in *; [|done]. by apply Hk.
Qed.

Lemma preserves_try_except {A} P (m : M A) (h : exn → M A) :
  preserves P m → (∀ e, preserves P (h e)) → preserves P (try_except m h).
Proof.
  intros Hm Hh w Hw. unfold try_except. specialize (Hm w Hw).
  destruct (m w) as [[a|e] w']; simpl in *; [done|]. by apply Hh.
Qed.

Lemma preserves_if {A} P (b : bool) (m1 m2 : M A) :
  preserves P m1 → preserves P m2 → preserves P (if b then m1 else m2).
Proof. by destruct b. Qed.

Lemma preserves_when P (b : bool) (m : M unit) :
  preserves P m → preserves P (when b m).
Proof. intros Hm. destruct b; [done|]. apply preserves_ret. Qed.

Lemma preserves_call {A} P (m : M A) : preserves P m → preserves P (call m).
Proof. intros Hm. unfold call. apply preserves_bind; [done|]. intros _. apply preserves_ret. Qed.

Lemma preserves_has_line_stable {A} path line (m : M A) :
  stable files m → preserves (has_line path line) m.
Proof. intros Hm w. unfold has_line. by rewrite (Hm w). Qed.

Lemma has_line_append (path line p' line' : string) (o : gmap string file) :
  (∃ f, o !! path = Some f ∧ line ∈ appended f) →
  ∃ f, <[p' := append_to line' (o !! p')]> o !! path = Some f ∧ line ∈ appended f.
Proof.
  intros (f & Hf & Hin). destruct (decide (p' = path)) as [->|Hne].
  - rewrite lookup_insert_eq, Hf. eexists. split; [done|]. simpl. set_solver.
  - rewrite lookup_insert_ne by done. by exists f.
Qed.

Lemma preserves_open_append_write path line p' line' :
  preserves (has_line path line) (open_append_write E p' line').
Proof.
  intros w Hw. unfold open_append_write.
  destruct (disk_write E (n_file (ticks w))); [done|].
  by apply has_line_append.
Qed.

Hint Resolve preserves_ret preserves_gets preserves_bind preserves_try_except
  preserves_if preserves_when preserves_call preserves_open_append_write : preserves.
Hint Extern 4 (preserves (has_line _ _) _) =>
  apply preserves_has_line_stable; solve [eauto with stable] : preserves.
Hint Extern 3 (preserves _ (log_alert _ _ _ _)) => unfold log_alert : preserves.
Hint Extern 3 (preserves _ (send_email_alert _ _ _)) => unfold send_email_alert : preserves.
Hint Extern 3 (preserves _ (send_webhook_alert _ _)) => unfold send_webhook_alert : preserves.
Hint Extern 3 (preserves _ (server_send_message _ _ _)) =>
  unfold server_send_message : preserves.
Hint Extern 2 (preserves _ (match ?x with _ => _ end)) => destruct x : preserves.

Lemma log_alert_keeps_lines path line ty msg lvl :
  preserves (has_line path line) (log_alert E ty msg lvl).
Proof. eauto 30 with preserves. Qed.

Lemma send_email_alert_keeps_lines path line subject msg :
  preserves (has_line path line) (send_email_alert E subject msg).
Proof. eauto 40 with preserves. Qed.

Lemma send_webhook_alert_keeps_lines path line msg :
  preserves (has_line path line) (send_webhook_alert E msg).
Proof. eauto 40 with preserves. Qed.

Lemma logged_has_line ty msg lvl w :
  disk_write E (n_file (ticks w)) = None →
  has_line (self_log_file (self w)) (log_line (new_record E ty msg lvl w))
    (logged E ty msg lvl w).
Proof.
  intros Hok. unfold has_line, logged.
  rewrite (log_alert_files_written _ _ _ _ Hok), lookup_insert_eq.
  eexists. split; [done|]. unfold append_to.
  destruct (files w !! self_log_file (self w)); simpl; set_solver.
Qed.

Lemma logged_requests ty msg lvl w :
  requests (logged E ty msg lvl w) = requests w.
Proof.
  pose proof (log_alert_webhook_side ty msg lvl w) as H.
  unfold webhook_side in H. fold (logged E ty msg lvl w) in H. by simplify_eq.
Qed.

Lemma logged_n_http ty msg lvl w :
  n_http (ticks (logged E ty msg lvl w)) = n_http (ticks w).
Proof.
  pose proof (log_alert_webhook_side ty msg lvl w) as H.
  unfold webhook_side in H. fold (logged E ty msg lvl w) in H. by simplify_eq.
Qed.

(** What the webhook channel does when it is enabled and [requests] can be
    imported. *)
Lemma send_webhook_alert_post msg w :
  webhook_enabled (webhook (config (self w))) = true →
  requests_installed E = true →
  let c := send_webhook_alert E msg w in
  requests (snd c)
  = (requests w ++ [webhook_payload (url (webhook (config (self w)))) msg])%list
  ∧ n_http (ticks (snd c)) = S (n_http (ticks w))
  ∧ (http_answer E (n_http (ticks w)) = HttpResponse 200 →
     fst c = Ok true
     ∧ alert_history (self (snd c))
       = last_n 100 (alert_history (self w)
                     ++ [new_record E "WEBHOOK" "Webhook envoyé" "INFO" w]))
  ∧ (http_answer E (n_http (ticks w)) ≠ HttpResponse 200 →
     fst c = Ok false ∧ alert_history (self (snd c)) = alert_history (self w)).
Proof.
  intros Hen Hinst c. subst c. unfold send_webhook_alert.
  run_channel; simplify_eq; try congruence.
  - rewrite logged_requests, logged_n_http.
    apply Z.eqb_eq in Heqb1 as ->.
    split; [done|]. split; [done|]. split.
    + intros _. split; [done|]. by rewrite logged_history.
    + intros Hne. done.
  - apply Z.eqb_neq in Heqb1.
    split; [done|]. split; [done|]. split.
    + intros [= ->]. done.
    + intros _. done.
  - split; [done|]. split; [done|]. split; [done|]. intros _. done.
Qed.

(** *** A dispatch whose email fails *)

Lemma only_asked_asked K w w1 : only_asked w w1 → only_asked w (asked K w1).
Proof.
  unfold asked. destruct (last_alert_time (self w1) !! K); [|done].
  intros ((? & ? & ? & ? & ?) & ? & ? & ? & ?). by repeat split.
Qed.

Lemma only_asked_probe w : only_asked w (with_ticks tick_probe w).
Proof. by repeat split. Qed.

Lemma only_asked_proc w : only_asked w (with_ticks tick_proc w).
Proof. by repeat split. Qed.

Lemma console_step b s w :
  let w1 := snd (when b (print s) w) in
  self w1 = self w ∧ files w1 = files w ∧ requests w1 = requests w
  ∧ outbox w1 = outbox w ∧ ticks w1 = ticks w.
Proof. by destruct b. Qed.

(** The cooldown query followed by the dispatch, when the whole answers true. *)
Lemma guarded_dispatches key ty msg lvl subject w1 :
  let g := (permitted ← can_send_alert E key;
            if permitted : bool then dispatch E key ty msg lvl subject else mret false) in
  fst (g w1) = Ok true →
  g w1 = dispatch E key ty msg lvl subject (asked key w1).
Proof.
  intros g. subst g.
  rewrite (bind_ok _ _ w1 _ _ (can_send_alert_run key w1)).
  by destruct (may_fire _ _ _ _).
Qed.

(** A check that answers true has run the dispatch block for an alert of
    its type and severity, from a state that differs from the initial one by
    questions to the probes and the clock only. *)
Lemma check_dispatches (service : string) (check : M bool) (key ty lvl : string) w :
  (check, key, ty, lvl)
  ∈ [ (check_cpu E, "CPU", "CPU", "WARNING");
      (check_memory E, "MEMORY", "MEMORY", "WARNING");
      (check_disk E, "DISK", "DISK", "CRITICAL");
      (check_swap E, "SWAP", "SWAP", "WARNING");
      (check_service_down E service, "SERVICE_" ++ service, "SERVICE", "CRITICAL") ] →
  fst (check w) = Ok true →
  ∃ msg subject w0,
    check w = dispatch E key ty msg lvl subject w0 ∧ only_asked w w0.
Proof.
  intros Hin.
  repeat (apply elem_of_cons in Hin as [[= -> -> -> ->]|Hin]);
    [..|by apply elem_of_nil in Hin].
  - rewrite check_cpu_dispatch. cbv zeta. destruct (float_gt _ _); [|done].
    intros H%guarded_dispatches. do 3 eexists. split; [exact H|].
    apply only_asked_asked, only_asked_probe.
  - rewrite check_memory_dispatch. cbv zeta. destruct (float_gt _ _); [|done].
    intros H%guarded_dispatches. do 3 eexists. split; [exact H|].
    apply only_asked_asked, only_asked_probe.
  - rewrite check_disk_dispatch. cbv zeta. destruct (float_gt _ _); [|done].
    intros H%guarded_dispatches. do 3 eexists. split; [exact H|].
    apply only_asked_asked, only_asked_probe.
  - rewrite check_swap_dispatch. cbv zeta. destruct (_ =? 0); [done|].
    destruct (float_gt _ _); [|done].
    intros H%guarded_dispatches. do 3 eexists. split; [exact H|].
    apply only_asked_asked, only_asked_probe.
  - rewrite check_service_down_dispatch. cbv zeta.
    destruct (systemctl_answer E (n_proc (ticks w)) service) as [stdout|]; [|done].
    unfold try_except. destruct (negb _); [|done].
    match goal with |- context [(?m ≫= ?k) ?w1] =>
      destruct ((m ≫= k) w1) as [[[]|e] w'] eqn:Hg; try done end.
    intros _. apply (f_equal fst) in Hg as Hv. apply guarded_dispatches in Hv.
    rewrite Hg in Hv. do 3 eexists. split; [exact Hv|].
    apply only_asked_asked, only_asked_proc.
Qed.

(** Every check returns: none of them lets an exception out. *)
Lemma checks_safe (service : string) (check : M bool) :
  check ∈ [check_cpu E; check_memory E; check_disk E; check_swap E;
           check_service_down E service] →
  safe check.
Proof.
  intros Hin w.
  repeat (apply elem_of_cons in Hin as [->|Hin]); [..|by apply elem_of_nil in Hin].
  - destruct (check_cpu_outcome w) as (-> & _). by eexists.
  - destruct (check_memory_outcome w) as (-> & _). by eexists.
  - destruct (check_disk_outcome w) as (-> & _). by eexists.
  - destruct (check_swap_outcome w) as (-> & _). by eexists.
  - pose proof (check_service_down_outcome service w) as H. cbv zeta in H.
    destruct (systemctl_answer E (n_proc (ticks w)) service);
      destruct H as (-> & _); by eexists.
Qed.

(** The dispatch block with both channels enabled and a failing SMTP session. *)
Lemma dispatch_email_failure key ty msg lvl subject w stage reason :
  let cfg := config (self w) in
  let alert := new_record E ty msg lvl w in
  let w' := snd (dispatch E key ty msg lvl subject w) in
  email_enabled (email cfg) = true →
  webhook_enabled (webhook cfg) = true →
  smtp_answer E (n_smtp (ticks w)) = SmtpError stage reason →
  (∃ ts, {| timestamp := ts; type := "EMAIL";
            message := "Erreur envoi: " ++ reason; level := "ERROR" |}
         ∈ alert_history (self w'))
  ∧ alert ∈ alert_history (self w')
  ∧ (disk_write E (n_file (ticks w)) = None →
     has_line (self_log_file (self w)) (log_line alert) w')
  ∧ (requests_installed E = true →
     requests w' = (requests w ++ [webhook_payload (url (webhook cfg)) msg])%list
     ∧ (http_answer E (n_http (ticks w)) = HttpResponse 200 →
        ∃ ts, last (alert_history (self w'))
              = Some {| timestamp := ts; type := "WEBHOOK";
                        message := "Webhook envoyé"; level := "INFO" |})
     ∧ (http_answer E (n_http (ticks w)) ≠ HttpResponse 200 →
        ∃ ts, last (alert_history (self w'))
              = Some {| timestamp := ts; type := "EMAIL";
                        message := "Erreur envoi: " ++ reason; level := "ERROR" |})).
Proof.
  intros cfg alert w' Hemail Hwebhook Hsmtp. subst w'.
  rewrite dispatch_run. cbv zeta. fold cfg. rewrite Hemail, Hwebhook.
  cbn [fst snd when].
  destruct (console_step (console_alerts cfg) (nl ++ "⚠️  ALERTE: " ++ msg) w)
    as (S1 & F1 & R1 & _ & T1).
  set (w1 := snd (when (console_alerts cfg) (print (nl ++ "⚠️  ALERTE: " ++ msg)) w)) in *.
  (* the log *)
  set (w2 := logged E ty msg lvl w1).
  assert (H2 : alert_history (self w2) = last_n 100 (alert_history (self w) ++ [alert])).
  { subst w2. rewrite logged_history. unfold alert, new_record. by rewrite S1, T1. }
  assert (U2 : untouched w2 = untouched w1) by apply log_alert_untouched.
  apply untouched_eq in U2. destruct U2 as (C2 & _ & P2 & _ & _).
  assert (W2 : webhook_side w2 = webhook_side w1) by apply log_alert_webhook_side.
  assert (M2 : email_side w2 = email_side w1) by apply log_alert_email_side.
  unfold webhook_side in W2. unfold email_side in M2.
  (* the email *)
  rewrite !call_snd.
  destruct (send_email_alert_failure subject msg w2 stage reason) as (_ & H3).
  { by rewrite C2, S1. }
  { replace (n_smtp (ticks w2)) with (n_smtp (ticks w)); [done|]. simplify_eq. congruence. }
  set (w3 := snd (send_email_alert E subject msg w2)) in *.
  assert (U3 : untouched w3 = untouched w2) by apply send_email_alert_untouched.
  apply untouched_eq in U3. destruct U3 as (C3 & _ & P3 & _ & _).
  assert (W3 : webhook_side w3 = webhook_side w2) by apply send_email_alert_webhook_side.
  unfold webhook_side in W3.
  (* the webhook *)
  destruct (send_webhook_alert_history msg w3) as (l4 & X4 & L4 & _).
  pose proof (send_webhook_alert_post msg w3) as Hpost. cbv zeta in Hpost.
  set (w4 := snd (send_webhook_alert E msg w3)) in *.
  cbn [self with_self with_ticks alert_history set_alert_history set_last_alert_time
       files requests].
  set (em := {| timestamp := calendar E (S (n_date (ticks w2))); type := "EMAIL";
                message := "Erreur envoi: " ++ reason; level := "ERROR" |}) in *.
  assert (H4 : alert_history (self w4)
               = last_n 100 (alert_history (self w) ++ alert :: em :: l4)).
  { rewrite H2, last_n_app_last_n, <- app_assoc in H3.
    by apply (extended_after_record _ _ [em] _ _ _ H3 X4). }
  split; [|split; [|split]].
  - exists (calendar E (S (n_date (ticks w2)))). rewrite H4.
    change (alert_history (self w) ++ alert :: em :: l4)%list
      with (alert_history (self w) ++ [alert] ++ em :: l4)%list.
    rewrite app_assoc. apply last_n_keeps. lia.
  - rewrite H4. apply last_n_keeps. simpl. lia.
  - intros Hdisk.
    assert (L2 : has_line (self_log_file (self w)) (log_line alert) w2).
    { pose proof (logged_has_line ty msg lvl w1) as HL.
      assert (Hrec : new_record E ty msg lvl w1 = alert)
        by (unfold alert, new_record; by rewrite T1).
      rewrite Hrec, T1, S1 in HL. fold w2 in HL. by apply HL. }
    apply (send_email_alert_keeps_lines _ _ subject msg) in L2.
    apply (send_webhook_alert_keeps_lines _ _ msg) in L2. exact L2.
  - intros Hinst. destruct Hpost as (Q1 & _ & Q3 & Q4).
    { by rewrite C3, C2, S1. }
    { done. }
    assert (NH : n_http (ticks w3) = n_http (ticks w)) by (simplify_eq; congruence).
    rewrite NH in Q3, Q4. split; [|split].
    + rewrite Q1. f_equal; [simplify_eq; congruence|]. by rewrite C3, C2, S1.
    + intros H200. destruct (Q3 H200) as (_ & ->). eexists. apply last_n_last.
    + intros Hne. destruct (Q4 Hne) as (_ & ->). rewrite H3. eexists. apply last_n_last.
Qed.

(** *** Grades of the records *)

(** Membership in a list of literals. *)
Ltac in_literals H :=
  repeat (apply elem_of_cons in H as [H|H]; [try discriminate|]);
  try (by apply elem_of_nil in H).

Ltac is_literal :=
  repeat first [apply list_elem_of_here | apply list_elem_of_further].

Lemma fired_in_history key ty msg lvl w w' :
  fired E key ty msg lvl w w' →
  new_record E ty msg lvl w ∈ alert_history (self w').
Proof.
  intros (l & _ & _ & _ & -> & Hl & _). apply last_n_keeps. lia.
Qed.

Lemma side_record_well_graded r : side_record r → well_graded r.
Proof.
  unfold side_record, well_graded.
  intros [[Ht _]|[Ht _]]; split; rewrite Ht; intros H; in_literals H.
Qed.

Lemma fired_well_graded key ty msg lvl w w' :
  well_graded (new_record E ty msg lvl w) →
  fired E key ty msg lvl w w' →
  Forall well_graded (alert_history (self w)) →
  Forall well_graded (alert_history (self w')).
Proof.
  intros Hr (l & _ & _ & _ & -> & _ & Hl) Hh.
  apply last_n_sublist, Forall_app. split; [done|].
  constructor; [done|]. eapply Forall_impl; [exact Hl|]. apply side_record_well_graded.
Qed.

Lemma outcome_well_graded (c : result bool * World) key ty msg lvl (alert : bool) w :
  well_graded (new_record E ty msg lvl w) →
  (if alert then fired E key ty msg lvl w (snd c) else quiet w (snd c)) →
  Forall well_graded (alert_history (self w)) →
  Forall well_graded (alert_history (self (snd c))).
Proof.
  intros Hr Hc Hh. destruct alert.
  - by eapply fired_well_graded.
  - destruct Hc as (-> & _). done.
Qed.

(** The record of a sent email. *)
Lemma send_email_alert_success subject msg w :
  fst (send_email_alert E subject msg w) = Ok true →
  alert_history (self (snd (send_email_alert E subject msg w)))
  = last_n 100
      (alert_history (self w)
       ++ [ {| timestamp := calendar E (S (n_date (ticks w))); type := "EMAIL";
               message := "Email envoyé: " ++ subject; level := "INFO" |} ]).
Proof.
  unfold send_email_alert.
  run_channel; simplify_eq; try congruence; intros _;
    rewrite logged_history; reflexivity.
Qed.

(** The record of a delivered webhook. *)
Lemma send_webhook_alert_success msg w :
  fst (send_webhook_alert E msg w) = Ok true →
  alert_history (self (snd (send_webhook_alert E msg w)))
  = last_n 100
      (alert_history (self w)
       ++ [ {| timestamp := calendar E (n_date (ticks w)); type := "WEBHOOK";
               message := "Webhook envoyé"; level := "INFO" |} ]).
Proof.
  unfold send_webhook_alert.
  run_channel; simplify_eq; try congruence; intros _;
    rewrite logged_history; reflexivity.
Qed.

(** ** The claims *)

(** C1. The cooldown check [can_send_alert] answers what the contract
    [may_fire] of the specification says at the reading of the clock: true
    exactly when no timestamp is recorded for the kind, or when the time since
    the recorded one is at least the cooldown window; a difference equal to
    the window permits firing, and one below it does not. The window is the
    single [alert_cooldown] of the configuration, whatever the kind, and the
    answer for a kind is not changed by recording a firing of another kind, be
    it by an update of the map or by a whole [check_cpu]. *)
Theorem can_send_alert_cooldown (K : string) (w : World) :
  let last := last_alert_time (self w) in
  let window := alert_cooldown (config (self w)) in
  let now := clock E (n_time (ticks w)) in
  fst (can_send_alert E K w) = Ok (may_fire last window K now)
  ∧ (∃ b, fst (can_send_alert E K w) = Ok b
        ∧ (b = true ↔
           last !! K = None
           ∨ ∃ t0, last !! K = Some t0 ∧ float_ge_int (now - t0) window = true))
  ∧ (∀ t0, last !! K = Some t0 → float_eq_int (now - t0) window = true →
           fst (can_send_alert E K w) = Ok true)
  ∧ (∀ t0, last !! K = Some t0 → float_lt_int (now - t0) window = true →
           fst (can_send_alert E K w) = Ok false)
  ∧ (∀ K' t, K' ≠ K →
       fst (can_send_alert E K
              (with_self (set_last_alert_time (<[K' := t]> last)) w))
       = fst (can_send_alert E K w))
  ∧ (K ≠ "CPU" → ∀ at_time,
       let w' := snd (check_cpu E w) in
       may_fire (last_alert_time (self w')) (alert_cooldown (config (self w'))) K at_time
       = may_fire last window K at_time).
Proof.
  intros last window now. rewrite !can_send_alert_run. cbn [fst].
  split; [reflexivity|].
  unfold may_fire. fold last window now. repeat split.
  - eexists. split; [reflexivity|].
    destruct (last !! K) as [t0|] eqn:HK.
    + split.
      * intros H. right. by exists t0.
      * intros [?|(t & Ht & H)]; [done|]. by simplify_eq.
    + split; [by left|done].
  - intros t0 -> H. f_equal. by apply float_eq_int_ge.
  - intros t0 -> H. f_equal. by apply float_lt_int_not_ge.
  - intros K' t HK.
    rewrite can_send_alert_run. unfold may_fire.
    cbn [fst self with_self set_last_alert_time last_alert_time config ticks].
    by rewrite lookup_insert_ne.
  - intros HK at_time. cbv zeta.
    destruct (check_cpu_outcome w) as (_ & H & _). cbv zeta in H.
    destruct (_ && _).
    + destruct H as (l & -> & _ & -> & _). fold last window.
      by rewrite lookup_insert_ne.
    + destruct H as (-> & _). done.
Qed.

(** C2. A threshold check alerts exactly when the reading is strictly above
    the configured threshold (and the cooldown permits); a reading equal to
    the threshold triggers nothing: the check answers false and only the
    count of probes has changed. For CPU, memory, disk and (on a host with
    swap) swap. *)
Theorem threshold_is_strict (w : World) :
  let n := n_probe (ticks w) in
  let th := thresholds (config (self w)) in
  (fst (check_cpu E w)
   = Ok (float_gt (probe_cpu E n) (cpu th) && permitted_in E "CPU" w)
   ∧ (PrimFloat.eqb (probe_cpu E n) (cpu th) = true →
      check_cpu E w = (Ok false, with_ticks tick_probe w)))
  ∧ (fst (check_memory E w)
     = Ok (float_gt (probe_memory E n) (memory th) && permitted_in E "MEMORY" w)
     ∧ (PrimFloat.eqb (probe_memory E n) (memory th) = true →
        check_memory E w = (Ok false, with_ticks tick_probe w)))
  ∧ (fst (check_disk E w)
     = Ok (float_gt (probe_disk E n) (disk th) && permitted_in E "DISK" w)
     ∧ (PrimFloat.eqb (probe_disk E n) (disk th) = true →
        check_disk E w = (Ok false, with_ticks tick_probe w)))
  ∧ (fst (check_swap E w)
     = Ok (negb (fst (probe_swap E n) =? 0)
           && float_gt (snd (probe_swap E n)) (swap th) && permitted_in E "SWAP" w)
     ∧ (PrimFloat.eqb (snd (probe_swap E n)) (swap th) = true →
        check_swap E w = (Ok false, with_ticks tick_probe w))).
Proof.
  intros n th. subst n th.
  destruct (check_cpu_outcome w) as (C1 & _ & C3).
  destruct (check_memory_outcome w) as (M1 & _ & M3).
  destruct (check_disk_outcome w) as (D1 & _ & D3).
  destruct (check_swap_outcome w) as (S1 & _ & S3).
  cbv zeta in *.
  repeat split; try done.
  - intros H%float_eq_not_gt. rewrite H in C1. specialize (C3 H).
    destruct (check_cpu E w); simpl in *; congruence.
  - intros H%float_eq_not_gt. rewrite H in M1. specialize (M3 H).
    destruct (check_memory E w); simpl in *; congruence.
  - intros H%float_eq_not_gt. rewrite H in D1. specialize (D3 H).
    destruct (check_disk E w); simpl in *; congruence.
  - intros H%float_eq_not_gt. rewrite H, andb_false_r in S1.
    specialize (S3 (or_intror H)).
    destruct (check_swap E w); simpl in *; congruence.
Qed.

(** C3. The cooldown query never changes the object, and no notification
    channel changes the timestamps. A check whose condition holds but which
    the cooldown suppresses answers false and leaves the object, the console,
    the files, the mail and the webhook requests as they were; whatever a
    check answers, the timestamp map afterwards is the map before when it
    answered false, and the map before with its own kind set to the last
    reading of the clock when it answered true. *)
Theorem timestamp_only_on_dispatch (K service : string) (w : World) :
  self (snd (can_send_alert E K w)) = self w
  ∧ (∀ ty msg lvl,
       last_alert_time (self (snd (log_alert E ty msg lvl w))) = last_alert_time (self w))
  ∧ (∀ subject body,
       last_alert_time (self (snd (send_email_alert E subject body w)))
       = last_alert_time (self w))
  ∧ (∀ body,
       last_alert_time (self (snd (send_webhook_alert E body w)))
       = last_alert_time (self w))
  ∧ (float_gt (probe_cpu E (n_probe (ticks w))) (cpu (thresholds (config (self w)))) = true →
     permitted_in E "CPU" w = false →
     fst (check_cpu E w) = Ok false ∧ quiet w (snd (check_cpu E w)))
  ∧ (∀ (check : M bool) (key : string),
       (check, key) ∈ [ (check_cpu E, "CPU"); (check_memory E, "MEMORY");
                        (check_disk E, "DISK"); (check_swap E, "SWAP");
                        (check_service_down E service, "SERVICE_" ++ service) ] →
       let w' := snd (check w) in
       (fst (check w) = Ok false
        ∧ last_alert_time (self w') = last_alert_time (self w))
       ∨ (fst (check w) = Ok true
          ∧ last_alert_time (self w')
            = <[key := clock E (n_time (ticks w') - 1)]> (last_alert_time (self w)))).
Proof.
  split; [|split; [|split; [|split; [|split]]]].
  - rewrite can_send_alert_run. apply asked_self.
  - intros ty msg lvl. pose proof (log_alert_untouched ty msg lvl w) as H.
    apply untouched_eq in H. tauto.
  - intros subject body. pose proof (send_email_alert_untouched subject body w) as H.
    apply untouched_eq in H. tauto.
  - intros body. pose proof (send_webhook_alert_untouched body w) as H.
    apply untouched_eq in H. tauto.
  - intros Hgt Hno. destruct (check_cpu_outcome w) as (H1 & H2 & _).
    cbv zeta in H1, H2. rewrite Hgt, Hno in H1, H2. done.
  - assert (Hcase : ∀ (c : result bool * World) key ty msg lvl (alert : bool),
      fst c = Ok alert →
      (if alert then fired E key ty msg lvl w (snd c) else quiet w (snd c)) →
      (fst c = Ok false ∧ last_alert_time (self (snd c)) = last_alert_time (self w))
      ∨ (fst c = Ok true
         ∧ last_alert_time (self (snd c))
           = <[key := clock E (n_time (ticks (snd c)) - 1)]> (last_alert_time (self w)))).
    { intros c key ty msg lvl [] Hv Hw.
      - right. split; [done|]. by destruct Hw as (l & _ & _ & -> & _).
      - left. split; [done|]. by destruct Hw as (-> & _). }
    intros check key Hin w'. subst w'.
    repeat (apply elem_of_cons in Hin as [[= -> ->]|Hin]).
    + destruct (check_cpu_outcome w) as (H1 & H2 & _). by eapply Hcase.
    + destruct (check_memory_outcome w) as (H1 & H2 & _). by eapply Hcase.
    + destruct (check_disk_outcome w) as (H1 & H2 & _). by eapply Hcase.
    + destruct (check_swap_outcome w) as (H1 & H2 & _). by eapply Hcase.
    + pose proof (check_service_down_outcome service w) as H. cbv zeta in H.
      destruct (systemctl_answer E (n_proc (ticks w)) service).
      * destruct H as (H1 & H2). by eapply Hcase.
      * destruct H as (H1 & H2). left. by rewrite H2.
    + by apply elem_of_nil in Hin.
Qed.

(** C4. After [log_alert] the history holds at most 100 records: it is the
    last 100 of the old history followed by the new record, hence a suffix of
    it, in the same order. Below 100 records nothing is evicted; at 100 the
    oldest record, and only it, is. *)
Theorem log_alert_keeps_last_100 (ty msg lvl : string) (w : World) :
  let h := alert_history (self w) in
  let r := new_record E ty msg lvl w in
  let h' := alert_history (self (snd (log_alert E ty msg lvl w))) in
  (length h' ≤ 100)%nat
  ∧ h' = last_n 100 (h ++ [r])
  ∧ h' `suffix_of` (h ++ [r])%list
  ∧ ((length h < 100)%nat → h' = (h ++ [r])%list)
  ∧ (∀ oldest rest, h = oldest :: rest → length h = 100%nat → h' = (rest ++ [r])%list).
Proof.
  intros h r h'. subst h'. rewrite log_alert_history. fold h r.
  split; [apply last_n_length|]. split; [done|]. split; [|split].
  - unfold last_n. apply suffix_drop.
  - intros Hlt. apply last_n_short. rewrite length_app. simpl. lia.
  - intros oldest rest -> Hlen. apply (last_n_snoc_full 99). simpl in Hlen. lia.
Qed.

(** C5. With the email and the webhook channel enabled and an SMTP session
    that fails (at the connection, at STARTTLS, at the login, at the send or
    at the quit), no check raises and the email channel returns instead of
    raising; every check that dispatches an alert still dispatches it to the
    end: the failure is recorded, the alert's record is in the history and
    (when the log file can be written, which the email does not decide) its
    line is in the log file, and the webhook request is made, with the success
    or failure that the endpoint's answer alone decides. The CPU check does
    dispatch whenever its reading exceeds the threshold and the cooldown
    permits. *)
Theorem email_failure_is_contained (service : string) (w : World)
    (stage : smtp_stage) (reason : string) :
  let cfg := config (self w) in
  email_enabled (email cfg) = true →
  webhook_enabled (webhook cfg) = true →
  smtp_answer E (n_smtp (ticks w)) = SmtpError stage reason →
  (∀ subject body, safe (send_email_alert E subject body))
  ∧ (float_gt (probe_cpu E (n_probe (ticks w))) (cpu (thresholds cfg)) = true →
     permitted_in E "CPU" w = true →
     fst (check_cpu E w) = Ok true)
  ∧ (∀ check key ty lvl,
       (check, key, ty, lvl)
       ∈ [ (check_cpu E, "CPU", "CPU", "WARNING");
           (check_memory E, "MEMORY", "MEMORY", "WARNING");
           (check_disk E, "DISK", "DISK", "CRITICAL");
           (check_swap E, "SWAP", "SWAP", "WARNING");
           (check_service_down E service, "SERVICE_" ++ service, "SERVICE", "CRITICAL") ] →
       let w' := snd (check w) in
       (∃ b, fst (check w) = Ok b)
       ∧ (fst (check w) = Ok true →
          ∃ msg,
            let alert := new_record E ty msg lvl w in
            (∃ ts, {| timestamp := ts; type := "EMAIL";
                      message := "Erreur envoi: " ++ reason; level := "ERROR" |}
                   ∈ alert_history (self w'))
            ∧ alert ∈ alert_history (self w')
            ∧ (disk_write E (n_file (ticks w)) = None →
               has_line (self_log_file (self w)) (log_line alert) w')
            ∧ (requests_installed E = true →
               requests w' = (requests w ++ [webhook_payload (url (webhook cfg)) msg])%list
               ∧ (http_answer E (n_http (ticks w)) = HttpResponse 200 →
                  ∃ ts, last (alert_history (self w'))
                        = Some {| timestamp := ts; type := "WEBHOOK";
                                  message := "Webhook envoyé"; level := "INFO" |})
               ∧ (http_answer E (n_http (ticks w)) ≠ HttpResponse 200 →
                  ∃ ts, last (alert_history (self w'))
                        = Some {| timestamp := ts; type := "EMAIL";
                                  message := "Erreur envoi: " ++ reason;
                                  level := "ERROR" |})))).
Proof.
  intros cfg Hemail Hwebhook Hsmtp.
  split; [intros; apply send_email_alert_safe|]. split.
  { intros Hgt Hperm. destruct (check_cpu_outcome w) as (-> & _).
    fold cfg. by rewrite Hgt, Hperm. }
  intros check key ty lvl Hin w'. subst w'. split.
  { apply (checks_safe service).
    repeat (apply elem_of_cons in Hin as [[= -> -> -> ->]|Hin]);
      [..|by apply elem_of_nil in Hin]; is_literal. }
  intros Hfired.
  destruct (check_dispatches service check key ty lvl w Hin Hfired)
    as (msg & subject & w0 & -> & (S0 & _ & F0 & _ & R0) & ND0 & NF0 & NS0 & NH0).
  exists msg.
  pose proof (dispatch_email_failure key ty msg lvl subject w0 stage reason) as H.
  cbv zeta in H. rewrite S0, NS0, NF0, NH0, R0 in H. fold cfg in H.
  replace (new_record E ty msg lvl w0) with (new_record E ty msg lvl w) in H
    by (unfold new_record; by rewrite ND0).
  by apply H.
Qed.

(** C6. On a host whose total swap capacity is zero the swap check answers
    false whatever the reported percentage, and changes nothing but the count
    of probes: no alert, no history entry, no timestamp. *)
Theorem check_swap_without_swap (w : World) :
  fst (probe_swap E (n_probe (ticks w))) = 0 →
  check_swap E w = (Ok false, with_ticks tick_probe w)
  ∧ quiet w (snd (check_swap E w))
  ∧ alert_history (self (snd (check_swap E w))) = alert_history (self w)
  ∧ last_alert_time (self (snd (check_swap E w))) = last_alert_time (self w).
Proof.
  intros H0.
  assert (Hrun : check_swap E w = (Ok false, with_ticks tick_probe w)).
  { rewrite check_swap_dispatch. cbv zeta. by rewrite H0. }
  rewrite Hrun. by repeat split.
Qed.

(** C7, as the code has it. The service check treats the probe's output as
    healthy exactly when, stripped of the white space around it (that of
    Unicode, a no-break space included), it is [active]: then it answers
    false and changes nothing. On any other output ([inactive] and
    [unknown] among them) it alerts as soon as the cooldown of
    [SERVICE_<name>] permits: it answers true, sets that timestamp, and
    records an alert of type [SERVICE] (the service is named in the message
    and in the cooldown key, not in the type) and severity CRITICAL. *)
Theorem service_alerts_unless_active (service stdout : string) (w : World) :
  systemctl_answer E (n_proc (ticks w)) service = Completed stdout →
  let key := "SERVICE_" ++ service in
  let c := check_service_down E service w in
  let alert :=
    {| timestamp := calendar E (n_date (ticks w)); type := "SERVICE";
       message := "Service " ++ service ++ " est arrêté"; level := "CRITICAL" |} in
  (strip stdout = "active" → fst c = Ok false ∧ quiet w (snd c))
  ∧ (strip stdout ≠ "active" →
     fst c = Ok (permitted_in E key w)
     ∧ (permitted_in E key w = true →
        alert ∈ alert_history (self (snd c))
        ∧ (∃ l, alert_history (self (snd c))
                = last_n 100 (alert_history (self w) ++ alert :: l)
                ∧ Forall side_record l)
        ∧ last_alert_time (self (snd c))
          = <[key := clock E (n_time (ticks (snd c)) - 1)]> (last_alert_time (self w)))
     ∧ (permitted_in E key w = false → quiet w (snd c)))
  ∧ (strip ("active" ++ nl) = "active"
     ∧ strip ("inactive" ++ nl) ≠ "active"
     ∧ strip ("unknown" ++ nl) ≠ "active"
     ∧ strip ("active" ++ nbsp ++ nl) = "active").
Proof.
  intros Hout key c alert.
  pose proof (check_service_down_outcome service w) as H. cbv zeta in H.
  rewrite Hout in H. fold key c in H. destruct H as (Hv & Hw).
  split; [|split].
  - intros Hact. rewrite Hact in Hv, Hw. simpl in Hv, Hw. done.
  - intros Hdown.
    assert (Heqb : String.eqb (strip stdout) "active" = false)
      by by apply String.eqb_neq.
    rewrite Heqb in Hv, Hw. simpl in Hv, Hw.
    split; [done|]. split.
    + intros Hp. rewrite Hp in Hw. split; [|split].
      * by apply (fired_in_history _ _ _ _ _ _ Hw).
      * destruct Hw as (l & _ & _ & _ & Hh & _ & Hl). by exists l.
      * by destruct Hw as (l & _ & _ & Hl & _).
    + intros Hp. by rewrite Hp in Hw.
  - by vm_compute.
Qed.

(** C8. The severity is fixed by the kind: a CPU, memory or swap check that
    alerts records its alert as WARNING, a disk or service check as CRITICAL;
    a sent email and a delivered webhook are recorded as INFO. Hence a history
    in which every CPU, MEMORY and SWAP record is a WARNING and every DISK and
    SERVICE record is CRITICAL stays so through every check. *)
Theorem severity_fixed_by_kind (service : string) (w : World) :
  (fst (check_cpu E w) = Ok true →
     ∃ msg, fired E "CPU" "CPU" msg "WARNING" w (snd (check_cpu E w))
            ∧ new_record E "CPU" msg "WARNING" w ∈ alert_history (self (snd (check_cpu E w))))
  ∧ (fst (check_memory E w) = Ok true →
     ∃ msg, fired E "MEMORY" "MEMORY" msg "WARNING" w (snd (check_memory E w))
            ∧ new_record E "MEMORY" msg "WARNING" w
              ∈ alert_history (self (snd (check_memory E w))))
  ∧ (fst (check_swap E w) = Ok true →
     ∃ msg, fired E "SWAP" "SWAP" msg "WARNING" w (snd (check_swap E w))
            ∧ new_record E "SWAP" msg "WARNING" w
              ∈ alert_history (self (snd (check_swap E w))))
  ∧ (fst (check_disk E w) = Ok true →
     ∃ msg, fired E "DISK" "DISK" msg "CRITICAL" w (snd (check_disk E w))
            ∧ new_record E "DISK" msg "CRITICAL" w
              ∈ alert_history (self (snd (check_disk E w))))
  ∧ (fst (check_service_down E service w) = Ok true →
     ∃ msg, fired E ("SERVICE_" ++ service) "SERVICE" msg "CRITICAL" w
              (snd (check_service_down E service w))
            ∧ new_record E "SERVICE" msg "CRITICAL" w
              ∈ alert_history (self (snd (check_service_down E service w))))
  ∧ (∀ subject body,
       fst (send_email_alert E subject body w) = Ok true →
       last (alert_history (self (snd (send_email_alert E subject body w))))
       = Some {| timestamp := calendar E (S (n_date (ticks w))); type := "EMAIL";
                 message := "Email envoyé: " ++ subject; level := "INFO" |})
  ∧ (∀ body,
       fst (send_webhook_alert E body w) = Ok true →
       last (alert_history (self (snd (send_webhook_alert E body w))))
       = Some {| timestamp := calendar E (n_date (ticks w)); type := "WEBHOOK";
                 message := "Webhook envoyé"; level := "INFO" |})
  ∧ (Forall well_graded (alert_history (self w)) →
     ∀ check, check ∈ [check_cpu E; check_memory E; check_disk E; check_swap E;
                       check_service_down E service] →
       Forall well_graded (alert_history (self (snd (check w))))).
Proof.
  assert (Hgrade : ∀ ty lvl msg,
    (ty, lvl) ∈ [("CPU", "WARNING"); ("MEMORY", "WARNING"); ("SWAP", "WARNING");
                 ("DISK", "CRITICAL"); ("SERVICE", "CRITICAL")] →
    well_graded (new_record E ty msg lvl w)).
  { intros ty lvl msg Hin. unfold well_graded, new_record. cbn [type level].
    repeat (apply elem_of_cons in Hin as [[= -> ->]|Hin]);
      [..|by apply elem_of_nil in Hin]; split; intros H;
      first [reflexivity | in_literals H]. }
  assert (Hfired : ∀ (c : result bool * World) key ty msg lvl (alert : bool),
    fst c = Ok alert →
    (if alert then fired E key ty msg lvl w (snd c) else quiet w (snd c)) →
    fst c = Ok true →
    ∃ msg', fired E key ty msg' lvl w (snd c)
            ∧ new_record E ty msg' lvl w ∈ alert_history (self (snd c))).
  { intros c key ty msg lvl alert -> Hc [= ->]. exists msg. split; [done|].
    by eapply fired_in_history. }
  pose proof (check_cpu_outcome w) as (C1 & C2 & _).
  pose proof (check_memory_outcome w) as (M1 & M2 & _).
  pose proof (check_disk_outcome w) as (D1 & D2 & _).
  pose proof (check_swap_outcome w) as (W1 & W2 & _).
  pose proof (check_service_down_outcome service w) as V. cbv zeta in *.
  repeat apply conj.
  - by eapply Hfired.
  - by eapply Hfired.
  - by eapply Hfired.
  - by eapply Hfired.
  - destruct (systemctl_answer E (n_proc (ticks w)) service).
    + destruct V as (V1 & V2). by eapply Hfired.
    + destruct V as (-> & _). done.
  - intros subject body H. rewrite (send_email_alert_success _ _ _ H). apply last_n_last.
  - intros body H. rewrite (send_webhook_alert_success _ _ H). apply last_n_last.
  - intros Hh check Hin.
    repeat (apply elem_of_cons in Hin as [->|Hin]); [..|by apply elem_of_nil in Hin].
    + eapply outcome_well_graded; [|exact C2|done]. apply Hgrade. is_literal.
    + eapply outcome_well_graded; [|exact M2|done]. apply Hgrade. is_literal.
    + eapply outcome_well_graded; [|exact D2|done]. apply Hgrade. is_literal.
    + eapply outcome_well_graded; [|exact W2|done]. apply Hgrade. is_literal.
    + destruct (systemctl_answer E (n_proc (ticks w)) service).
      * destruct V as (V1 & V2).
        eapply outcome_well_graded; [|exact V2|done]. apply Hgrade. is_literal.
      * destruct V as (_ & ->). done.
Qed.

(** C9. When no file exists at the path and the disk can be written,
    [load_config] answers the defaults and leaves there the example
    configuration; loading that file again answers a configuration with the
    thresholds and the check interval of the defaults (it is the example
    configuration, which differs from the defaults in the password and the
    webhook URL only). *)
Theorem default_config_round_trip (path : string) (w : World) :
  files w !! path = None →
  disk_write E (n_file (ticks w)) = None →
  let first := load_config E path w in
  let second := load_config E path (snd first) in
  fst first = Ok default_config
  ∧ files (snd first) !! path
    = Some {| document := Some (to_json example_config); appended := [] |}
  ∧ fst second = Ok example_config
  ∧ thresholds example_config = thresholds default_config
  ∧ check_interval example_config = check_interval default_config
  ∧ (∀ c, fst second = Ok c →
          cpu (thresholds c) = cpu (thresholds default_config)
          ∧ memory (thresholds c) = memory (thresholds default_config)
          ∧ disk (thresholds c) = disk (thresholds default_config)
          ∧ swap (thresholds c) = swap (thresholds default_config)
          ∧ check_interval c = check_interval default_config).
Proof.
  intros Hnone Hdisk first second.
  assert (H1 : first
    = (Ok default_config,
       with_console (fun c => (c ++ [("📝 Fichier de configuration exemple créé: " ++ path)%string])%list)
         (with_ticks tick_file
            (with_files (fun fs => <[path := {| document := Some (to_json example_config);
                                                appended := [] |}]> fs)
               (with_console
                  (fun c => (c ++ [("ℹ️  Fichier " ++ path
                                    ++ " non trouvé, utilisation config par défaut")%string])%list)
                  w))))).
  { subst first. unfold load_config, path_exists. rewrite bind_gets, Hnone.
    rewrite bool_decide_eq_false_2 by (by intros [? ?]).
    unfold create_example_config, try_except, open_write_json_dump, print.
    cbv [mbind M_bind mret M_ret modify]. cbn [ticks with_console].
    by rewrite Hdisk. }
  assert (H2 : second = (Ok example_config,
    with_console (fun c => (c ++ [("✅ Configuration chargée depuis " ++ path)%string])%list)
      (snd first))).
  { subst second. rewrite H1. cbn [snd].
    unfold load_config, path_exists. rewrite bind_gets.
    cbn [files with_console with_ticks with_files].
    rewrite lookup_insert_eq.
    rewrite bool_decide_eq_true_2 by (by eexists).
    unfold try_except, open_read_json_load, print.
    cbv [mbind M_bind mret M_ret modify]. cbn [files with_console with_ticks with_files].
    by rewrite lookup_insert_eq. }
  rewrite H2, H1. cbn [fst snd files with_console with_ticks with_files].
  rewrite lookup_insert_eq.
  repeat split; try done; by simplify_eq.
Qed.

(** C10. [log_alert] never raises and always ends with the new record as the
    last of the history, also when the append to the log file fails: then the
    files are as they were, the failure is printed, and the history has
    received the record all the same. *)
Theorem log_alert_records_despite_write_failure (ty msg lvl : string) (w : World) :
  let r := new_record E ty msg lvl w in
  let w' := snd (log_alert E ty msg lvl w) in
  fst (log_alert E ty msg lvl w) = Ok tt
  ∧ last (alert_history (self w')) = Some r
  ∧ (∀ reason, disk_write E (n_file (ticks w)) = Some reason →
       files w' = files w
       ∧ console w' = (console w ++ [("⚠️  Erreur écriture log: " ++ reason)%string])%list
       ∧ alert_history (self w') = last_n 100 (alert_history (self w) ++ [r])).
Proof.
  intros r w'. subst w'. split; [|split].
  - by rewrite log_alert_run.
  - rewrite log_alert_history. apply last_n_last.
  - intros reason Hfail. split; [|split].
    + by eapply log_alert_files_failed.
    + run_log_alert; reflexivity.
    + apply log_alert_history.
Qed.

(** ** Further properties: the cycle, the display and the loop *)

(** *** What the checks keep *)

Section Kept.

Variable P : World → Prop.
Hypothesis K : kept_by_checks E P.

Lemma kept_print s : preserves P (print s).
Proof. intros w Hw. by apply (kept_console E P K). Qed.

Lemma kept_psutil_cpu_percent : preserves P (psutil_cpu_percent E).
Proof. intros w Hw. by apply (kept_probe E P K). Qed.

Lemma kept_psutil_virtual_memory : preserves P (psutil_virtual_memory E).
Proof. intros w Hw. by apply (kept_probe E P K). Qed.

Lemma kept_psutil_disk_usage : preserves P (psutil_disk_usage E).
Proof. intros w Hw. by apply (kept_probe E P K). Qed.

Lemma kept_psutil_swap_memory : preserves P (psutil_swap_memory E).
Proof. intros w Hw. by apply (kept_probe E P K). Qed.

Lemma kept_time_time : preserves P (time_time E).
Proof. intros w Hw. by apply (kept_time E P K). Qed.

Lemma kept_subprocess_run_is_active name : preserves P (subprocess_run_is_active E name).
Proof.
  intros w Hw. unfold subprocess_run_is_active.
  destruct (systemctl_answer E (n_proc (ticks w)) name); by apply (kept_proc E P K).
Qed.

Lemma kept_can_send_alert key : preserves P (can_send_alert E key).
Proof.
  intros w Hw. rewrite can_send_alert_run. cbn [snd]. unfold asked.
  destruct (last_alert_time (self w) !! key); [|done]. by apply (kept_time E P K).
Qed.

Lemma kept_set_last_alert_time key now :
  preserves P (modify (with_self (fun s =>
    set_last_alert_time (<[key := now]> (last_alert_time s)) s))).
Proof. intros w Hw. by apply (kept_stamp E P K). Qed.

Lemma kept_time_sleep secs : preserves P (time_sleep E secs).
Proof. intros w Hw. unfold time_sleep. by repeat case_match. Qed.

Hint Resolve kept_print kept_psutil_cpu_percent kept_psutil_virtual_memory
  kept_psutil_disk_usage kept_psutil_swap_memory kept_time_time
  kept_subprocess_run_is_active kept_can_send_alert kept_set_last_alert_time
  kept_time_sleep : preserves.

Lemma kept_log_alert ty msg lvl : preserves P (log_alert E ty msg lvl).
Proof. apply (kept_log E P K). Qed.

Lemma kept_send_email_alert subject msg : preserves P (send_email_alert E subject msg).
Proof. apply (kept_email E P K). Qed.

Lemma kept_send_webhook_alert msg : preserves P (send_webhook_alert E msg).
Proof. apply (kept_webhook E P K). Qed.

Hint Resolve kept_log_alert kept_send_email_alert kept_send_webhook_alert : preserves.

Lemma kept_check_cpu : preserves P (check_cpu E).
Proof. unfold check_cpu. eauto 30 with preserves. Qed.

Lemma kept_check_memory : preserves P (check_memory E).
Proof. unfold check_memory. eauto 30 with preserves. Qed.

Lemma kept_check_disk : preserves P (check_disk E).
Proof. unfold check_disk. eauto 30 with preserves. Qed.

Lemma kept_check_swap : preserves P (check_swap E).
Proof. unfold check_swap. eauto 30 with preserves. Qed.

Lemma kept_check_service_down service : preserves P (check_service_down E service).
Proof. unfold check_service_down. eauto 30 with preserves. Qed.

Hint Resolve kept_check_cpu kept_check_memory kept_check_disk kept_check_swap
  kept_check_service_down : preserves.

Lemma kept_check_services services acc : preserves P (check_services E services acc).
Proof.
  revert acc. induction services as [|service rest IH]; intros acc; simpl.
  - apply preserves_ret.
  - apply preserves_bind; [apply kept_check_service_down|]. intros b. apply IH.
Qed.

Lemma kept_run_checks : preserves P (run_checks E).
Proof.
  unfold run_checks. do 4 (apply preserves_bind; [eauto with preserves|]; intros ?).
  apply kept_check_services.
Qed.

Lemma kept_show_status : preserves P (show_status E).
Proof. unfold show_status. eauto 40 with preserves. Qed.

Hint Resolve kept_run_checks kept_show_status : preserves.

Lemma kept_monitor_iteration interval : preserves P (monitor_iteration E interval).
Proof. unfold monitor_iteration. eauto 20 with preserves. Qed.

Lemma kept_monitor_turns interval turns : preserves P (monitor_turns E interval turns).
Proof.
  induction turns as [|n IH]; simpl.
  - apply preserves_ret.
  - apply preserves_bind; [apply kept_monitor_iteration|]. intros _. apply IH.
Qed.

Hint Resolve kept_monitor_turns : preserves.

Lemma kept_monitor_loop turns : preserves P (monitor_loop E turns).
Proof. unfold monitor_loop. eauto 30 with preserves. Qed.

End Kept.

(** *** From the single steps to the channels *)

Section Atoms.

Variable P : World → Prop.
Hypothesis Hticks : ∀ f w, P w → P (with_ticks f w).
Hypothesis Hconsole : ∀ f w, P w → P (with_console f w).
Hypothesis Houtbox : ∀ f w, P w → P (with_outbox f w).
Hypothesis Hrequests : ∀ f w, P w → P (with_requests f w).
Hypothesis Hstamp : ∀ key now w,
  P w →
  P (with_self (fun s => set_last_alert_time (<[key := now]> (last_alert_time s)) s) w).
Hypothesis Hlog : ∀ ty msg lvl, preserves P (log_alert E ty msg lvl).

Lemma atoms_print s : preserves P (print s).
Proof. intros w Hw. by apply Hconsole. Qed.

Lemma atoms_getoutput_hostname : preserves P (getoutput_hostname E).
Proof. intros w Hw. by apply Hticks. Qed.

Lemma atoms_datetime_now_strftime : preserves P (datetime_now_strftime E).
Proof. intros w Hw. by apply Hticks. Qed.

Lemma atoms_smtp_step sid stage : preserves P (smtp_step E sid stage).
Proof.
  intros w Hw. unfold smtp_step. destruct (smtp_answer E sid); [done|].
  by case_bool_decide.
Qed.

Lemma atoms_smtplib_SMTP server port : preserves P (smtplib_SMTP E server port).
Proof.
  intros w Hw. unfold smtplib_SMTP. pose proof (atoms_smtp_step (n_smtp (ticks w)) Connect w Hw).
  destruct (smtp_step E (n_smtp (ticks w)) Connect w) as [[]]; by apply Hticks.
Qed.

Lemma atoms_server_send_message sid msg : preserves P (server_send_message E sid msg).
Proof.
  unfold server_send_message. apply preserves_bind; [apply atoms_smtp_step|].
  intros _ w Hw. by apply Houtbox.
Qed.

Lemma atoms_import_requests : preserves P (import_requests E).
Proof. intros w Hw. unfold import_requests. by destruct (requests_installed E). Qed.

Lemma atoms_requests_post r : preserves P (requests_post E r).
Proof.
  intros w Hw. unfold requests_post.
  destruct (http_answer E (n_http (ticks w))); by apply Hticks, Hrequests.
Qed.

Lemma atoms_log_alert ty msg lvl : preserves P (log_alert E ty msg lvl).
Proof. apply Hlog. Qed.

Hint Resolve atoms_print atoms_getoutput_hostname atoms_datetime_now_strftime
  atoms_smtp_step atoms_smtplib_SMTP atoms_server_send_message atoms_import_requests
  atoms_requests_post atoms_log_alert : preserves.

Lemma atoms_send_email_alert subject msg : preserves P (send_email_alert E subject msg).
Proof.
  unfold send_email_alert, server_starttls, server_login, server_quit.
  eauto 40 with preserves.
Qed.

Lemma atoms_send_webhook_alert msg : preserves P (send_webhook_alert E msg).
Proof. unfold send_webhook_alert. eauto 40 with preserves. Qed.

(** A property that survives every question, every line on the console,
    every message and request sent, every new timestamp and [log_alert]
    survives the checks. *)
Lemma kept_from_atoms : kept_by_checks E P.
Proof.
  constructor; auto using atoms_send_email_alert, atoms_send_webhook_alert.
Qed.

End Atoms.

(** The history stays bounded. *)
Lemma kept_bounded : kept_by_checks E bounded.
Proof.
  apply kept_from_atoms; try done.
  intros ty msg lvl w _. unfold bounded. rewrite log_alert_history. apply last_n_length.
Qed.

(** Lines stay in the files. *)
Lemma kept_has_line path line : kept_by_checks E (has_line path line).
Proof. apply kept_from_atoms; try done. apply log_alert_keeps_lines. Qed.

(** The configuration and the path of the log never change, and every file
    but the log is left alone. *)
Lemma log_alert_files_other ty msg lvl w p :
  p ≠ self_log_file (self w) →
  files (snd (log_alert E ty msg lvl w)) !! p = files w !! p.
Proof.
  intros Hp. destruct (disk_write E (n_file (ticks w))) as [reason|] eqn:Hd.
  - by rewrite (log_alert_files_failed _ _ _ _ _ Hd).
  - rewrite (log_alert_files_written _ _ _ _ Hd). by rewrite lookup_insert_ne.
Qed.

Lemma kept_static c p :
  kept_by_checks E (fun w => config (self w) = c ∧ self_log_file (self w) = p).
Proof.
  apply kept_from_atoms; try done.
  intros ty msg lvl w [Hc Hp].
  pose proof (log_alert_untouched ty msg lvl w) as H. apply untouched_eq in H.
  destruct H as (-> & _ & -> & _). done.
Qed.

Lemma kept_other_file p q v :
  q ≠ p →
  kept_by_checks E (fun w => self_log_file (self w) = p ∧ files w !! q = v).
Proof.
  intros Hq. apply kept_from_atoms; try done.
  intros ty msg lvl w [Hp Hv].
  pose proof (log_alert_untouched ty msg lvl w) as H. apply untouched_eq in H.
  destruct H as (_ & _ & Hpath & _). split; [congruence|].
  rewrite log_alert_files_other; [done|congruence].
Qed.

(** *** A channel that is switched off *)

Lemma send_email_alert_disabled subject msg w :
  email_enabled (email (config (self w))) = false →
  send_email_alert E subject msg w = (Ok false, w).
Proof. intros H. unfold send_email_alert. by rewrite bind_gets, H. Qed.

Lemma send_webhook_alert_disabled msg w :
  webhook_enabled (webhook (config (self w))) = false →
  send_webhook_alert E msg w = (Ok false, w).
Proof. intros H. unfold send_webhook_alert. by rewrite bind_gets, H. Qed.

Lemma kept_email_side v :
  kept_by_checks E
    (fun w => email_enabled (email (config (self w))) = false ∧ email_side w = v).
Proof.
  constructor; try done.
  - intros ty msg lvl w [Hd Hv].
    pose proof (log_alert_untouched ty msg lvl w) as H. apply untouched_eq in H.
    destruct H as (-> & _). by rewrite log_alert_email_side.
  - intros subject msg w [Hd Hv]. by rewrite send_email_alert_disabled.
  - intros msg w [Hd Hv].
    pose proof (send_webhook_alert_untouched msg w) as H. apply untouched_eq in H.
    destruct H as (-> & _). by rewrite send_webhook_alert_email_side.
Qed.

Lemma kept_webhook_side v :
  kept_by_checks E
    (fun w => webhook_enabled (webhook (config (self w))) = false ∧ webhook_side w = v).
Proof.
  constructor; try done.
  - intros ty msg lvl w [Hd Hv].
    pose proof (log_alert_untouched ty msg lvl w) as H. apply untouched_eq in H.
    destruct H as (-> & _). by rewrite log_alert_webhook_side.
  - intros subject msg w [Hd Hv].
    pose proof (send_email_alert_untouched subject msg w) as H. apply untouched_eq in H.
    destruct H as (-> & _). by rewrite send_email_alert_webhook_side.
  - intros msg w [Hd Hv]. by rewrite send_webhook_alert_disabled.
Qed.

(** *** The cycle of checks *)

Lemma run_checks_cycle : run_checks E = run_cycle (cycle E) [].
Proof. reflexivity. Qed.

Lemma cycle_in_table check name :
  (check, name) ∈ cycle E →
  ∃ service ty lvl, (check, name, ty, lvl) ∈ checks_table E service.
Proof.
  intros Hin. unfold cycle in Hin.
  repeat (apply elem_of_cons in Hin as [[= -> ->]|Hin]);
    [..|by apply elem_of_nil in Hin].
  - exists "nginx", "CPU", "WARNING". unfold checks_table. is_literal.
  - exists "nginx", "MEMORY", "WARNING". unfold checks_table. is_literal.
  - exists "nginx", "DISK", "CRITICAL". unfold checks_table. is_literal.
  - exists "nginx", "SWAP", "WARNING". unfold checks_table. is_literal.
  - exists "nginx", "SERVICE", "CRITICAL". unfold checks_table. is_literal.
  - exists "ssh", "SERVICE", "CRITICAL". unfold checks_table. is_literal.
  - exists "mysql", "SERVICE", "CRITICAL". unfold checks_table. is_literal.
  - exists "postgresql", "SERVICE", "CRITICAL". unfold checks_table. is_literal.
Qed.

(** Induction over a cycle: an invariant of the names collected so far and
    of the state, which every check of the list re-establishes. *)
Lemma run_cycle_ind (I : list string → World → Prop) checks :
  (∀ check name acc w,
     (check, name) ∈ checks → I acc w →
     ∃ b : bool, fst (check w) = Ok b
                 ∧ I (if b then (acc ++ [name])%list else acc) (snd (check w))) →
  ∀ acc w, I acc w →
    ∃ l, fst (run_cycle checks acc w) = Ok l ∧ I l (snd (run_cycle checks acc w)).
Proof.
  induction checks as [|[check name] rest IH]; intros Hstep acc w Hacc.
  - exists acc. by split.
  - destruct (Hstep check name acc w) as (b & Hb & Hnext); [left|done|].
    cbn [run_cycle]. unfold mbind, M_bind.
    destruct (check w) as [r w1]. simpl in Hb, Hnext. subst r.
    apply IH; [|done]. intros c k a v Hin. apply Hstep. by right.
Qed.

(** The cooldown query followed by the dispatch, when the whole answers
    false. *)
Lemma guarded_declines key ty msg lvl subject w1 :
  let g := (permitted ← can_send_alert E key;
            if permitted : bool then dispatch E key ty msg lvl subject else mret false) in
  fst (g w1) = Ok false →
  g w1 = (Ok false, asked key w1).
Proof.
  intros g. subst g.
  rewrite (bind_ok _ _ w1 _ _ (can_send_alert_run key w1)).
  destruct (may_fire _ _ _ _); [|done].
  by rewrite dispatch_run.
Qed.

Lemma declined_asked K w w1 : declined w w1 → declined w (asked K w1).
Proof.
  unfold asked. destruct (last_alert_time (self w1) !! K); [|done].
  intros (? & ? & ? & ? & ? & ? & ? & ?). by repeat split.
Qed.

Lemma declined_probe w : declined w (with_ticks tick_probe w).
Proof. by repeat split. Qed.

Lemma declined_proc w : declined w (with_ticks tick_proc w).
Proof. by repeat split. Qed.



(** What a check has done when it answers: false, and no alert went out; or
    true, and it ran the dispatch block for its kind after the questions to
    its probe and to the clock. *)
Lemma check_trace (service : string) (check : M bool) (key ty lvl : string) w :
  (check, key, ty, lvl) ∈ checks_table E service →
  (fst (check w) = Ok false ∧ declined w (snd (check w)))
  ∨ (∃ msg subject w1,
       (w1 = with_ticks tick_probe w ∨ w1 = with_ticks tick_proc w)
       ∧ check w = dispatch E key ty msg lvl subject (asked key w1)
       ∧ fst (check w) = Ok true).
Proof.
  assert (Hguard : ∀ msg subject w1,
    let g := (permitted ← can_send_alert E key;
              if permitted : bool then dispatch E key ty msg lvl subject else mret false) in
    (w1 = with_ticks tick_probe w ∨ w1 = with_ticks tick_proc w) →
    (fst (g w1) = Ok false ∧ declined w (snd (g w1)))
    ∨ (g w1 = dispatch E key ty msg lvl subject (asked key w1) ∧ fst (g w1) = Ok true)).
  { intros msg subject w1 g Hw1. subst g.
    rewrite (bind_ok _ _ w1 _ _ (can_send_alert_run key w1)).
    destruct (may_fire _ _ _ _).
    - right. split; [done|]. by rewrite dispatch_run.
    - left. split; [done|]. cbn [snd]. apply declined_asked.
      destruct Hw1 as [-> | ->]; [apply declined_probe|apply declined_proc]. }
  intros Hin. unfold checks_table in Hin.
  repeat (apply elem_of_cons in Hin as [[= -> -> -> ->]|Hin]);
    [..|by apply elem_of_nil in Hin].
  - rewrite check_cpu_dispatch. cbv zeta. destruct (float_gt _ _).
    + edestruct Hguard as [H|[H1 H2]]; [by left|left; exact H|right].
      do 3 eexists. split; [by left|]. split; [exact H1|exact H2].
    + left. split; [done|]. apply declined_probe.
  - rewrite check_memory_dispatch. cbv zeta. destruct (float_gt _ _).
    + edestruct Hguard as [H|[H1 H2]]; [by left|left; exact H|right].
      do 3 eexists. split; [by left|]. split; [exact H1|exact H2].
    + left. split; [done|]. apply declined_probe.
  - rewrite check_disk_dispatch. cbv zeta. destruct (float_gt _ _).
    + edestruct Hguard as [H|[H1 H2]]; [by left|left; exact H|right].
      do 3 eexists. split; [by left|]. split; [exact H1|exact H2].
    + left. split; [done|]. apply declined_probe.
  - rewrite check_swap_dispatch. cbv zeta. destruct (_ =? 0).
    { left. split; [done|]. apply declined_probe. }
    destruct (float_gt _ _).
    + edestruct Hguard as [H|[H1 H2]]; [by left|left; exact H|right].
      do 3 eexists. split; [by left|]. split; [exact H1|exact H2].
    + left. split; [done|]. apply declined_probe.
  - rewrite check_service_down_dispatch. cbv zeta.
    destruct (systemctl_answer E (n_proc (ticks w)) service) as [stdout|reason].
    2:{ left. split; [done|]. by repeat split. }
    unfold try_except. destruct (negb _).
    2:{ left. split; [done|]. apply declined_proc. }
    destruct (Hguard ("Service " ++ service ++ " est arrêté")
                ("Service " ++ service ++ " arrêté") (with_ticks tick_proc w))
      as [[H1 H2]|[H1 H2]]; [by right| |]; cbv zeta in H1, H2.
    + left.
      match type of H1 with fst (?g ?w1) = _ =>
        destruct (g w1) as [[b|e] w'] eqn:Hg; simpl in *; by simplify_eq end.
    + right. do 3 eexists. split; [by right|].
      match type of H2 with fst (?g ?w1) = _ =>
        destruct (g w1) as [[b|e] w'] eqn:Hg; simpl in *; simplify_eq end.
      split; [|done]. by rewrite <- H1.
Qed.

(** *** What a cycle reports *)

Lemma run_cycle_sublist checks acc w :
  (∀ check name, (check, name) ∈ checks → safe check) →
  ∃ l, fst (run_cycle checks acc w) = Ok (acc ++ l)%list ∧ l `sublist_of` checks.*2.
Proof.
  revert acc w. induction checks as [|[check name] rest IH]; intros acc w Hsafe.
  - exists []. split; [by rewrite app_nil_r|constructor].
  - destruct (bind_safe check
                (fun down : bool =>
                   run_cycle rest (if down then (acc ++ [name])%list else acc)) w)
      as (b & _ & Hrun); [apply (Hsafe check name); left|].
    cbn [run_cycle]. rewrite Hrun.
    destruct (IH (if b then (acc ++ [name])%list else acc) (snd (check w)))
      as (l & Hl & Hsub); [intros c k Hin; apply (Hsafe c k); by right|].
    destruct b.
    + exists (name :: l). rewrite Hl, <- app_assoc. split; [done|]. by constructor.
    + exists l. split; [done|]. by constructor.
Qed.

Lemma cycle_safe check name : (check, name) ∈ cycle E → safe check.
Proof.
  intros Hin. unfold cycle in Hin.
  repeat (apply elem_of_cons in Hin as [[= -> ->]|Hin]);
    [..|by apply elem_of_nil in Hin].
  all: first [ solve [apply (checks_safe "nginx"); is_literal]
             | solve [apply (checks_safe "ssh"); is_literal]
             | solve [apply (checks_safe "mysql"); is_literal]
             | solve [apply (checks_safe "postgresql"); is_literal] ].
Qed.

Lemma run_checks_safe : safe (run_checks E).
Proof.
  intros w. rewrite run_checks_cycle.
  destruct (run_cycle_sublist (cycle E) [] w cycle_safe) as (l & -> & _). by eexists.
Qed.

Lemma run_cycle_verdicts checks acc w l :
  fst (run_cycle checks acc w) = Ok l →
  ∃ bs, verdicts checks w = Some (bs, snd (run_cycle checks acc w))
        ∧ l = (acc ++ alerting checks bs)%list.
Proof.
  revert acc w. induction checks as [|[check name] rest IH]; intros acc w.
  - intros [= <-]. exists []. by rewrite app_nil_r.
  - cbn [run_cycle verdicts]. unfold mbind, M_bind.
    destruct (check w) as [[b|e] w1]; [|done].
    intros Hl. destruct (IH _ _ Hl) as (bs & -> & ->).
    exists (b :: bs). split; [done|]. cbn [alerting].
    destruct b; [|done]. by rewrite <- app_assoc.
Qed.

Lemma alerting_sublist checks bs : alerting checks bs `sublist_of` checks.*2.
Proof.
  revert bs. induction checks as [|[check name] rest IH]; intros bs; [constructor|].
  destruct bs as [|[] bs]; cbn [alerting fmap list_fmap snd].
  - apply sublist_nil_l.
  - apply sublist_skip, IH.
  - apply sublist_cons, IH.
Qed.

(** X1. What [run_checks] returns, when it returns, says which checks
    alerted. The eight checks (CPU, memory, disk, swap, then the services
    nginx, ssh, mysql and postgresql) are each run once, in this order, each
    from the state the one before left; the list returned holds the name of
    a check exactly when that check answered true at its turn, in the order
    of the checks. So it is a sublist of CPU, MEMORY, DISK, SWAP,
    SERVICE_nginx, SERVICE_ssh, SERVICE_mysql, SERVICE_postgresql, and no
    name comes twice. *)
Theorem run_checks_reports_in_order (w : World) (l : list string) :
  fst (run_checks E w) = Ok l →
  ∃ bs, verdicts (cycle E) w = Some (bs, snd (run_checks E w))
        ∧ l = alerting (cycle E) bs
        ∧ l `sublist_of` ["CPU"; "MEMORY"; "DISK"; "SWAP"; "SERVICE_nginx";
                          "SERVICE_ssh"; "SERVICE_mysql"; "SERVICE_postgresql"]
        ∧ NoDup l.
Proof.
  rewrite run_checks_cycle. intros Hl.
  destruct (run_cycle_verdicts (cycle E) [] w l Hl) as (bs & Hv & ->).
  exists bs. split; [done|]. split; [done|]. cbn [app].
  assert (Hsub : alerting (cycle E) bs `sublist_of` (cycle E).*2)
    by apply alerting_sublist.
  split; [exact Hsub|].
  eapply sublist_NoDup; [|exact Hsub]. apply NoDup_ListNoDup. vm_compute.
  repeat constructor; simpl; intuition discriminate.
Qed.

(** *** The timestamps after a cycle *)

Lemma kept_table (P : World → Prop) service check key ty lvl :
  kept_by_checks E P →
  (check, key, ty, lvl) ∈ checks_table E service →
  preserves P check.
Proof.
  intros K Hin. unfold checks_table in Hin.
  repeat (apply elem_of_cons in Hin as [[= -> -> -> ->]|Hin]);
    [..|by apply elem_of_nil in Hin].
  - by apply kept_check_cpu.
  - by apply kept_check_memory.
  - by apply kept_check_disk.
  - by apply kept_check_swap.
  - by apply kept_check_service_down.
Qed.

Lemma kept_cycle (P : World → Prop) check name :
  kept_by_checks E P → (check, name) ∈ cycle E → preserves P check.
Proof.
  intros K Hin. destruct (cycle_in_table check name Hin) as (service & ty & lvl & Ht).
  by eapply kept_table.
Qed.

(** The clock is never asked less. *)
Lemma kept_clock n : kept_by_checks E (fun w => (n ≤ n_time (ticks w))%nat).
Proof.
  constructor; try done.
  - intros w Hw. simpl. lia.
  - intros ty msg lvl w Hw.
    pose proof (log_alert_untouched ty msg lvl w) as H. apply untouched_eq in H.
    destruct H as (_ & _ & _ & -> & _). done.
  - intros subject msg w Hw.
    pose proof (send_email_alert_untouched subject msg w) as H. apply untouched_eq in H.
    destruct H as (_ & _ & _ & -> & _). done.
  - intros msg w Hw.
    pose proof (send_webhook_alert_untouched msg w) as H. apply untouched_eq in H.
    destruct H as (_ & _ & _ & -> & _). done.
Qed.

Lemma asked_n_time K w :
  (n_time (ticks w) ≤ n_time (ticks (asked K w)))%nat.
Proof. unfold asked. destruct (_ !! _); simpl; lia. Qed.

(** A check stamps its own kind when it alerts, with a reading of the clock
    it took meanwhile, and no kind otherwise. *)
Lemma check_stamp (service : string) (check : M bool) (key ty lvl : string) w :
  (check, key, ty, lvl) ∈ checks_table E service →
  let w' := snd (check w) in
  ∃ b : bool,
    fst (check w) = Ok b
    ∧ (n_time (ticks w) ≤ n_time (ticks w'))%nat
    ∧ if b
      then ∃ n, (n_time (ticks w) ≤ n < n_time (ticks w'))%nat
                ∧ last_alert_time (self w')
                  = <[key := clock E n]> (last_alert_time (self w))
      else last_alert_time (self w') = last_alert_time (self w).
Proof.
  intros Hin w'. subst w'.
  assert (Hmono : (n_time (ticks w) ≤ n_time (ticks (snd (check w))))%nat).
  { apply (kept_table _ service check key ty lvl (kept_clock (n_time (ticks w))) Hin).
    done. }
  destruct (check_trace service check key ty lvl w Hin)
    as [[Hv (Hs & _)]|(msg & subject & w1 & Hw1 & Hrun & Hv)].
  - exists false. split; [done|]. split; [done|]. by rewrite Hs.
  - exists true. split; [done|]. split; [done|].
    destruct (dispatch_spec key ty msg lvl subject (asked key w1))
      as (w' & l & Hd & _ & _ & Hl & _ & _ & _ & Hn & _).
    rewrite Hrun, Hd. cbn [snd]. rewrite Hl, Hn, asked_self.
    exists (n_time (ticks (asked key w1))).
    pose proof (asked_n_time key w1) as Hle.
    destruct Hw1 as [-> | ->]; simpl in *; (split; [lia|done]).
Qed.

(** X2. After a cycle, the kinds [run_checks] reports are exactly the kinds
    it has stamped: each reported kind carries a reading of the clock taken
    during the cycle, and the timestamp of every other kind (reported by
    an earlier cycle or never) is what it was. *)
Theorem run_checks_stamps_what_it_reports (w : World) :
  let w' := snd (run_checks E w) in
  ∃ l, fst (run_checks E w) = Ok l
       ∧ ∀ k,
           (k ∈ l →
            ∃ n, (n_time (ticks w) ≤ n < n_time (ticks w'))%nat
                 ∧ last_alert_time (self w') !! k = Some (clock E n))
           ∧ (k ∉ l →
              last_alert_time (self w') !! k = last_alert_time (self w) !! k).
Proof.
  intros w'. subst w'. rewrite run_checks_cycle.
  set (I := fun (acc : list string) (v : World) =>
    (n_time (ticks w) ≤ n_time (ticks v))%nat
    ∧ ∀ k,
        (k ∈ acc →
         ∃ n, (n_time (ticks w) ≤ n < n_time (ticks v))%nat
              ∧ last_alert_time (self v) !! k = Some (clock E n))
        ∧ (k ∉ acc → last_alert_time (self v) !! k = last_alert_time (self w) !! k)).
  destruct (run_cycle_ind I (cycle E)) with (acc := @nil string) (w := w)
    as (l & Hl & _ & HI).
  - intros check name acc v Hin [Hmono Hacc].
    destruct (cycle_in_table check name Hin) as (service & ty & lvl & Ht).
    destruct (check_stamp service check name ty lvl v Ht) as (b & Hb & Hle & Hstamp).
    exists b. split; [done|]. split; [lia|]. intros k. destruct b.
    + destruct Hstamp as (n & Hn & ->). split.
      * intros [Hk| ->%list_elem_of_singleton]%elem_of_app.
        -- destruct (proj1 (Hacc k) Hk) as (m & Hm & Hlook).
           destruct (decide (name = k)) as [->|Hne].
           ++ exists n. rewrite lookup_insert_eq. split; [lia|done].
           ++ exists m. rewrite lookup_insert_ne by done. split; [lia|done].
        -- exists n. rewrite lookup_insert_eq. split; [lia|done].
      * intros Hk. rewrite lookup_insert_ne.
        -- apply Hacc. intros Hk'. apply Hk, elem_of_app. by left.
        -- intros ->. apply Hk, elem_of_app. right. by apply list_elem_of_singleton.
    + rewrite Hstamp. split.
      * intros Hk. destruct (proj1 (Hacc k) Hk) as (m & Hm & Hlook).
        exists m. split; [lia|done].
      * apply Hacc.
  - split; [done|]. intros k. split; [|done]. by intros ?%elem_of_nil.
  - exists l. split; [done|]. exact HI.
Qed.

(** *** A cycle without an alert *)


(** *** What a cycle leaves alone *)

(** X4. The configuration and the path of the log are read when the object
    is built and never change afterwards: not through a cycle of checks and
    not through any number of turns of the monitoring loop, whatever the
    files hold by then. *)
Theorem configuration_is_fixed_at_start (interval : Z) (turns : nat) (w : World) :
  (config (self (snd (run_checks E w))) = config (self w)
   ∧ self_log_file (self (snd (run_checks E w))) = self_log_file (self w))
  ∧ (config (self (snd (monitor_turns E interval turns w))) = config (self w)
     ∧ self_log_file (self (snd (monitor_turns E interval turns w)))
       = self_log_file (self w)).
Proof.
  split.
  - by apply (kept_run_checks _ (kept_static (config (self w)) (self_log_file (self w)))).
  - by apply (kept_monitor_turns _ (kept_static (config (self w)) (self_log_file (self w)))).
Qed.

(** X5. A channel that the configuration switches off stays silent through
    a whole cycle: with email disabled no SMTP session is opened and no
    message leaves, with the webhook disabled no request is made, whatever
    the checks find. *)
Theorem disabled_channels_stay_silent (w : World) :
  (email_enabled (email (config (self w))) = false →
   outbox (snd (run_checks E w)) = outbox w
   ∧ n_smtp (ticks (snd (run_checks E w))) = n_smtp (ticks w))
  ∧ (webhook_enabled (webhook (config (self w))) = false →
     requests (snd (run_checks E w)) = requests w
     ∧ n_http (ticks (snd (run_checks E w))) = n_http (ticks w)).
Proof.
  split; intros Hoff.
  - destruct (kept_run_checks _ (kept_email_side (email_side w)) w) as [_ H]; [done|].
    unfold email_side in H. by simplify_eq.
  - destruct (kept_run_checks _ (kept_webhook_side (webhook_side w)) w) as [_ H]; [done|].
    unfold webhook_side in H. by simplify_eq.
Qed.

Lemma kept_grown_from path f : kept_by_checks E (grown_from path f).
Proof.
  apply kept_from_atoms; try done.
  intros ty msg lvl w (f' & Hf' & Hdoc & Hpre). unfold grown_from.
  destruct (disk_write E (n_file (ticks w))) as [reason|] eqn:Hd.
  - rewrite (log_alert_files_failed _ _ _ _ _ Hd). by exists f'.
  - rewrite (log_alert_files_written _ _ _ _ Hd).
    destruct (decide (self_log_file (self w) = path)) as [->|Hne].
    + rewrite lookup_insert_eq, Hf'. eexists. split; [done|]. simpl.
      split; [done|]. by apply prefix_app_r.
    + rewrite lookup_insert_ne by done. by exists f'.
Qed.

(** X6. The checks write to one file only, and only at its end: after a
    cycle every file that existed still holds its JSON document and its
    lines, in their order, with new lines (if any) after them; and every
    path other than the log's holds exactly what it held. *)
Theorem run_checks_only_appends_to_the_log (w : World) :
  let w' := snd (run_checks E w) in
  (∀ path f, files w !! path = Some f → grown_from path f w')
  ∧ (∀ path, path ≠ self_log_file (self w) → files w' !! path = files w !! path).
Proof.
  intros w'. subst w'. split.
  - intros path f Hf. apply (kept_run_checks _ (kept_grown_from path f)).
    by exists f.
  - intros path Hne.
    by apply (kept_run_checks _
                (kept_other_file (self_log_file (self w)) path (files w !! path) Hne)).
Qed.

(** *** Loading the configuration *)

Lemma load_config_safe path : safe (load_config E path).
Proof.
  unfold load_config, create_example_config, path_exists. eauto 20 with safe.
Qed.

Lemma load_config_run path w :
  ∃ c, load_config E path w = (Ok c, snd (load_config E path w)).
Proof. apply safe_run, load_config_safe. Qed.

(** X7. When a file exists at the path, [load_config] only reads. If the
    file is a JSON object followed by nothing but white space, it returns the
    defaults in which every top-level key the file gives has the file's
    value (a nested object is taken whole from the file, not merged with the
    default one; the files the embedding represents give their nested
    objects complete). If the parser refuses the file (no document, or
    something else than white space after it) it returns the defaults alone:
    no exception leaves the method. Either way it prints one line and leaves
    the object, the files and everything else as they were. A file that
    gives every key is returned as it is. *)
Theorem load_config_reads_without_writing (path : string) (f : file) (w : World) :
  files w !! path = Some f →
  let r := load_config E path w in
  fst r = Ok (match document f with
              | Some u =>
                  if forallb json_blank (appended f) then update default_config u
                  else default_config
              | None => default_config
              end)
  ∧ self (snd r) = self w ∧ files (snd r) = files w ∧ ticks (snd r) = ticks w
  ∧ outbox (snd r) = outbox w ∧ requests (snd r) = requests w
  ∧ length (console (snd r)) = S (length (console w))
  ∧ (∀ c, document f = Some (to_json c) →
          forallb json_blank (appended f) = true →
          fst r = Ok c).
Proof.
  intros Hf r. subst r. unfold load_config, path_exists. rewrite bind_gets, Hf.
  rewrite bool_decide_eq_true_2 by (by eexists).
  unfold try_except, open_read_json_load, print.
  cbv [mbind M_bind mret M_ret modify]. rewrite Hf.
  destruct (document f) as [u|] eqn:Hdoc;
    [destruct (forallb json_blank (appended f)) eqn:Hblank|];
    cbn [fst snd self files ticks outbox requests console with_console];
    rewrite ?length_app; cbn [length];
    (repeat split; [done..|lia|]); intros c [= Hc] Hb; try done.
  subst u. by destruct c.
Qed.

(** X8. When no file exists at the path and the example cannot be written,
    [load_config] still returns the defaults: the failure is printed, no
    file appears and nothing is raised. *)
Theorem load_config_survives_a_failed_write (path reason : string) (w : World) :
  files w !! path = None →
  disk_write E (n_file (ticks w)) = Some reason →
  let r := load_config E path w in
  fst r = Ok default_config
  ∧ files (snd r) = files w ∧ self (snd r) = self w
  ∧ console (snd r)
    = (console w
       ++ [ ("ℹ️  Fichier " ++ path ++ " non trouvé, utilisation config par défaut")%string;
            ("⚠️  Impossible de créer le fichier config: " ++ reason)%string ])%list.
Proof.
  intros Hnone Hdisk r. subst r. unfold load_config, path_exists.
  rewrite bind_gets, Hnone.
  rewrite bool_decide_eq_false_2 by (by intros [? ?]).
  unfold create_example_config, try_except, open_write_json_dump, print.
  cbv [mbind M_bind mret M_ret modify]. cbn [ticks with_console].
  rewrite Hdisk. cbn. by rewrite <- app_assoc.
Qed.

(** X9. Building the object forgets the past: whatever the state before,
    [__init__] never raises and leaves an empty history, no timestamp, the
    configuration [load_config] returned and the log path it names; so right
    after a (re)start every kind of alert may fire, and the cooldown query
    does not even read the clock. *)
Theorem init_starts_afresh (path : string) (w : World) :
  let w' := snd (init E path w) in
  fst (init E path w) = Ok tt
  ∧ fst (load_config E path w) = Ok (config (self w'))
  ∧ alert_history (self w') = []
  ∧ last_alert_time (self w') = ∅
  ∧ self_log_file (self w') = log_file (config (self w'))
  ∧ ∀ K, can_send_alert E K w' = (Ok true, w').
Proof.
  intros w'. subst w'. unfold init.
  destruct (load_config_run path w) as [c Hc].
  rewrite (bind_ok _ _ _ _ _ Hc), Hc. cbn.
  by repeat split.
Qed.

(** *** The channels, call by call *)


(** X10. [log_alert] writes one line to one file: the line
    [[<timestamp>] [<level>] [<type>] <message>] goes to the end of the log
    file (created when it is absent), what the file held stays before it,
    and no other path is touched; when the write fails the files are as they
    were. It asks the calendar once and the disk once, and sends nothing. *)
Theorem log_alert_writes_one_line (ty msg lvl : string) (w : World) :
  let w' := snd (log_alert E ty msg lvl w) in
  let path := self_log_file (self w) in
  let line := "[" ++ calendar E (n_date (ticks w)) ++ "] [" ++ lvl ++ "] [" ++ ty
              ++ "] " ++ msg ++ nl in
  (∀ q, q ≠ path → files w' !! q = files w !! q)
  ∧ match disk_write E (n_file (ticks w)) with
    | None =>
        ∃ f', files w' !! path = Some f'
              ∧ document f' = files w !! path ≫= document
              ∧ appended f' = (default [] (appended <$> files w !! path) ++ [line])%list
    | Some _ => files w' = files w
    end
  ∧ n_date (ticks w') = S (n_date (ticks w))
  ∧ n_file (ticks w') = S (n_file (ticks w))
  ∧ outbox w' = outbox w ∧ requests w' = requests w.
Proof.
  intros w' path line. subst w' path line. split; [|split].
  - intros q Hq. by apply log_alert_files_other.
  - destruct (disk_write E (n_file (ticks w))) as [reason|] eqn:Hd.
    + by rewrite (log_alert_files_failed _ _ _ _ _ Hd).
    + rewrite (log_alert_files_written _ _ _ _ Hd), lookup_insert_eq.
      eexists. split; [done|]. unfold append_to.
      by destruct (files w !! self_log_file (self w)).
  - run_log_alert; by repeat split.
Qed.


(** X12. A webhook that fails leaves no trace but the console: when
    [send_webhook_alert] returns false (channel off, [requests] missing, the
    request raising, or a status other than 200) the history, the files and
    the mail are as they were and the calendar was not read; without the
    [requests] module no request is attempted at all. (A failed email, by
    contrast, is recorded.) *)
Theorem webhook_failure_is_not_recorded (msg : string) (w : World) :
  fst (send_webhook_alert E msg w) = Ok false →
  let w' := snd (send_webhook_alert E msg w) in
  self w' = self w ∧ files w' = files w ∧ outbox w' = outbox w
  ∧ n_date (ticks w') = n_date (ticks w) ∧ n_file (ticks w') = n_file (ticks w)
  ∧ (requests_installed E = false →
     requests w' = requests w ∧ n_http (ticks w') = n_http (ticks w)).
Proof.
  unfold send_webhook_alert.
  run_channel; simplify_eq; try congruence; intros _; by repeat split.
Qed.

(** X13. When the probe of a service fails (the command is missing, or
    times out), [check_service_down] reports the failure on the console
    and answers false: no alert is raised, nothing is recorded or sent, and
    the cooldown of the service is not touched. *)
Theorem service_probe_failure_is_no_alert (service reason : string) (w : World) :
  systemctl_answer E (n_proc (ticks w)) service = ProcError reason →
  check_service_down E service w
  = (Ok false,
     with_console
       (fun c => (c ++ [("⚠️  Erreur vérification service " ++ service ++ ": "
                         ++ reason)%string])%list)
       (with_ticks tick_proc w)).
Proof. intros H. by rewrite check_service_down_dispatch, H. Qed.

(** *** The status display *)

Lemma show_status_run w :
  show_status E w
  = (Ok tt,
     {| self := self w;
        console := (console w
                    ++ status_report E (thresholds (config (self w))) (n_probe (ticks w)))%list;
        files := files w; outbox := outbox w; requests := requests w;
        ticks := tick_probe (tick_probe (tick_probe (tick_probe (ticks w)))) |}).
Proof.
  destruct w as [s c f o r [np nt nd nf ns nh nc]].
  unfold show_status, status_report, status_line.
  cbv [mbind M_bind mret M_ret gets modify when print psutil_cpu_percent
       psutil_virtual_memory psutil_disk_usage psutil_swap_memory
       with_console with_ticks self console files outbox requests ticks
       tick_probe n_probe n_time n_date n_file n_smtp n_http n_proc].
  destruct (0 <? fst (probe_swap E (S (S (S np))))).
  all: cbv [with_console with_ticks self console files outbox requests ticks
            tick_probe n_probe n_time n_date n_file n_smtp n_http n_proc].
  all: repeat rewrite <- app_assoc.
  all: reflexivity.
Qed.

(** [r > t] excludes [r < t], and so does [r == t]. *)
Lemma SFcompare_Lt_asym x y : SFcompare x y = Some Lt → SFcompare y x ≠ Some Lt.
Proof.
  destruct x as [[]|[]| |[] m1 e1], y as [[]|[]| |[] m2 e2]; simpl; try done.
  all: rewrite (Z.compare_antisym e1 e2).
  all: change (PosDef.Pos.compare_cont Eq m1 m2) with (Pos.compare m1 m2).
  all: change (PosDef.Pos.compare_cont Eq m2 m1) with (Pos.compare m2 m1).
  all: rewrite (Pos.compare_antisym m1 m2).
  all: destruct (e1 ?= e2); simpl; try done.
  all: destruct (Pos.compare m1 m2); simpl; done.
Qed.

Lemma float_gt_not_lt r t : float_gt r t = true → float_lt r t = false.
Proof.
  unfold float_gt, float_lt. rewrite !FloatAxioms.ltb_spec. unfold SFltb.
  destruct (SFcompare (Prim2SF t) (Prim2SF r)) as [[]|] eqn:H; try done.
  intros _. apply SFcompare_Lt_asym in H.
  by destruct (SFcompare (Prim2SF r) (Prim2SF t)) as [[]|].
Qed.

Lemma float_eq_not_lt r t : PrimFloat.eqb r t = true → float_lt r t = false.
Proof.
  unfold float_lt. rewrite FloatAxioms.eqb_spec, FloatAxioms.ltb_spec.
  unfold SFeqb, SFltb.
  by destruct (SFcompare (Prim2SF r) (Prim2SF t)) as [[]|].
Qed.

(** X14. [show_status] only looks and prints. Whenever it returns, it has
    asked each of the four probes once and nothing else, has left the object,
    the files, the mail and the webhook requests alone, and has added to the
    console the heading, one line for the CPU, the memory and the disk, a
    line for the swap only when there is some, and the closing rule: seven
    or eight lines. *)
Theorem show_status_only_observes (w : World) :
  fst (show_status E w) = Ok tt →
  let w' := snd (show_status E w) in
  let report := status_report E (thresholds (config (self w))) (n_probe (ticks w)) in
  declined w w'
  ∧ n_probe (ticks w') = (4 + n_probe (ticks w))%nat
  ∧ n_time (ticks w') = n_time (ticks w) ∧ n_proc (ticks w') = n_proc (ticks w)
  ∧ console w' = (console w ++ report)%list
  ∧ length report
    = if 0 <? fst (probe_swap E (3 + n_probe (ticks w))%nat) then 8%nat else 7%nat.
Proof.
  intros _ w' report. subst w' report. rewrite show_status_run. cbn [fst snd].
  split; [by repeat split|]. repeat split; try done.
  unfold status_report. cbn [Nat.add].
  by destruct (0 <? fst (probe_swap E (S (S (S (n_probe (ticks w))))))).
Qed.

(** X15. The display and the check do not draw the line at the same place:
    [show_status] marks a reading as fine only when it is below the
    threshold, [check_cpu] alerts only when it is above. So every reading
    that makes the check alert is shown with the warning sign, and a reading
    equal to the threshold is shown with the warning sign although the check
    stays silent. *)
Theorem status_warns_where_the_check_is_silent (w : World) :
  let r := probe_cpu E (n_probe (ticks w)) in
  let t := cpu (thresholds (config (self w))) in
  let shown := console (snd (show_status E w)) !! (length (console w) + 3)%nat in
  let warning := "⚠️" ++ " CPU:     " ++ rjust 5 (format_1f E r)
                 ++ "% (seuil: " ++ str_float E t ++ "%)" in
  (fst (check_cpu E w) = Ok true → shown = Some warning)
  ∧ (PrimFloat.eqb r t = true → shown = Some warning ∧ fst (check_cpu E w) = Ok false).
Proof.
  intros r t shown warning.
  assert (Hshown : shown = Some (status_line E " CPU:     " r t)).
  { subst shown. rewrite show_status_run. cbn [snd console].
    rewrite lookup_app_r by lia.
    by replace (length (console w) + 3 - length (console w))%nat with 3%nat by lia. }
  destruct (check_cpu_outcome w) as (Hv & _). cbv zeta in Hv. fold r t in Hv.
  rewrite Hshown, Hv. unfold status_line. split.
  - intros [= Halert]. apply andb_true_iff in Halert as [Hgt _].
    by rewrite (float_gt_not_lt _ _ Hgt).
  - intros Heq. rewrite (float_eq_not_lt _ _ Heq), (float_eq_not_gt _ _ Heq). done.
Qed.

(** *** The monitoring loop *)

Lemma show_status_safe : safe (show_status E).
Proof. intros w. rewrite show_status_run. by eexists. Qed.

Lemma bind_print {B} s (k : unit → M B) w :
  (print s ≫= k) w = k tt (with_console (fun c => (c ++ [s])%list) w).
Proof. reflexivity. Qed.

(** The lengths [time.sleep] accepts, and the negative ones. *)
Lemma time_sleep_accepts secs w :
  0 ≤ secs ≤ sleep_max → time_sleep E secs w = (Ok tt, w).
Proof.
  intros [Hlo Hhi]. unfold time_sleep.
  destruct (Z.ltb_spec secs (- sleep_max)); [unfold sleep_max in *; lia|].
  destruct (Z.ltb_spec sleep_max secs); [lia|]. cbn [orb].
  by destruct (Z.ltb_spec secs 0); [lia|].
Qed.


(** A turn of the loop up to its sleep: [alerts] is what the checks report,
    [v] the state when the sleep begins. *)
Lemma monitor_iteration_sleep interval w :
  ∃ v, monitor_iteration E interval w = time_sleep E interval v
       ∧ last (console v)
         = Some (nl ++ "⏳ Prochaine vérification dans " ++ str_int E interval ++ "s...").
Proof.
  unfold monitor_iteration.
  match goal with |- context [(show_status E ≫= ?k) ?v] =>
    destruct (bind_safe (show_status E) k v show_status_safe) as ([] & _ & ->) end.
  match goal with |- context [(run_checks E ≫= ?k) ?v] =>
    destruct (bind_safe (run_checks E) k v run_checks_safe) as (alerts & _ & ->) end.
  destruct alerts; rewrite !bind_print; eexists; (split; [reflexivity|]);
    cbn [console with_console]; by rewrite last_snoc.
Qed.

(** A turn of the loop with an interval that [time.sleep] accepts. *)
Lemma monitor_iteration_run interval w :
  0 ≤ interval ≤ sleep_max →
  monitor_iteration E interval w = (Ok tt, snd (monitor_iteration E interval w)).
Proof.
  intros Hpos. destruct (monitor_iteration_sleep interval w) as (v & -> & _).
  by rewrite time_sleep_accepts.
Qed.

Lemma monitor_turns_run interval turns w :
  0 ≤ interval ≤ sleep_max →
  monitor_turns E interval turns w = (Ok tt, snd (monitor_turns E interval turns w)).
Proof.
  intros Hpos. revert w. induction turns as [|n IH]; intros w; [done|].
  cbn [monitor_turns].
  rewrite (bind_ok _ _ _ _ _ (monitor_iteration_run interval w Hpos)). apply IH.
Qed.


(** X16. The history never holds more than a hundred records: it is empty
    when the object is built, and no cycle of checks and no number of turns
    of the loop takes it above the bound. *)
Theorem history_never_exceeds_100 (path : string) (interval : Z) (turns : nat)
    (w : World) :
  bounded (snd (init E path w))
  ∧ bounded (snd (monitor_turns E interval turns (snd (init E path w))))
  ∧ (∀ v, bounded v → bounded (snd (run_checks E v)))
  ∧ (∀ v, bounded v → bounded (snd (monitor_turns E interval turns v))).
Proof.
  assert (H0 : bounded (snd (init E path w))).
  { unfold init. destruct (load_config_run path w) as [c Hc].
    rewrite (bind_ok _ _ _ _ _ Hc). unfold bounded. cbn. lia. }
  split; [done|]. split; [|split].
  - by apply (kept_monitor_turns _ kept_bounded).
  - apply (kept_run_checks _ kept_bounded).
  - apply (kept_monitor_turns _ kept_bounded).
Qed.

(** The loop, from its heading to its farewell: [v] is the state when the
    first turn begins. Either the turns go through and the farewell follows,
    or an exception leaves one of them and the method with it. *)
Lemma monitor_loop_cases (turns : nat) (w : World) :
  ∃ v,
    (∀ P, kept_by_checks E P → P w → P v)
    ∧ monitor_loop E turns w
      = match monitor_turns E (check_interval (config (self w))) turns v with
        | (Ok _, w1) =>
            (Ok 0,
             with_console
               (fun c =>
                  (c ++ [ (nl ++ nl ++ "✋ Arrêt du système d'alertes...")%string;
                          ("📊 Total d'alertes dans cette session: "
                           ++ str_int E (Z.of_nat (length (alert_history (self w1)))))%string;
                          ("👋 Au revoir!" ++ nl)%string ])%list) w1)
        | (Raise e, w1) => (Raise e, w1)
        end.
Proof.
  unfold monitor_loop.
  rewrite bind_gets, !bind_print, bind_gets, !bind_print, bind_gets, !bind_print.
  cbn [self with_console].
  set (v := with_console _ _).
  assert (Hv : ∀ P, kept_by_checks E P → P w → P v).
  { intros P K Hw. subst v. by repeat apply (kept_console E P K). }
  clearbody v. exists v. split; [exact Hv|].
  destruct (monitor_turns E (check_interval (config (self w))) turns v)
    as [[[]|e] w1] eqn:Ht.
  - rewrite (bind_ok _ _ v _ _ Ht).
    rewrite bind_print, bind_gets, !bind_print. unfold mret, M_ret.
    cbn [self with_console]. f_equal.
    unfold with_console. cbn [self console files outbox requests ticks].
    f_equal. by rewrite <- !app_assoc.
  - by rewrite (bind_raise _ _ v _ _ Ht).
Qed.

(** The same with an interval that [time.sleep] accepts: [w1] is the state
    when the interrupt arrives. *)
Lemma monitor_loop_run (turns : nat) (w : World) :
  0 ≤ check_interval (config (self w)) ≤ sleep_max →
  ∃ v w1,
    w1 = snd (monitor_turns E (check_interval (config (self w))) turns v)
    ∧ (∀ P, kept_by_checks E P → P w → P v)
    ∧ monitor_loop E turns w
      = (Ok 0,
         with_console
           (fun c =>
              (c ++ [ (nl ++ nl ++ "✋ Arrêt du système d'alertes...")%string;
                      ("📊 Total d'alertes dans cette session: "
                       ++ str_int E (Z.of_nat (length (alert_history (self w1)))))%string;
                      ("👋 Au revoir!" ++ nl)%string ])%list) w1).
Proof.
  intros Hpos. destruct (monitor_loop_cases turns w) as (v & Hv & ->).
  exists v, (snd (monitor_turns E (check_interval (config (self w))) turns v)).
  split; [done|]. split; [exact Hv|].
  by rewrite (monitor_turns_run _ turns v Hpos).
Qed.

(** X17. When [monitor_loop] ends by the interrupt, no exception having
    left it before, it exits with status 0 after a farewell whose total is
    the length of the history at that moment: at most 100 (when it was so
    at the start), however many alerts the session has raised. *)
Theorem monitor_loop_exit_report (turns : nat) (w : World) (status : Z) :
  bounded w →
  fst (monitor_loop E turns w) = Ok status →
  let r := monitor_loop E turns w in
  let total := length (alert_history (self (snd r))) in
  status = 0
  ∧ (total ≤ 100)%nat
  ∧ ∃ before,
      console (snd r)
      = (before
         ++ [ (nl ++ nl ++ "✋ Arrêt du système d'alertes...")%string;
              ("📊 Total d'alertes dans cette session: "
               ++ str_int E (Z.of_nat total))%string;
              ("👋 Au revoir!" ++ nl)%string ])%list.
Proof.
  intros Hb Hret r total. subst total r.
  destruct (monitor_loop_cases turns w) as (v & Hv & Heq). rewrite Heq in *.
  assert (Hb' : bounded (snd (monitor_turns E (check_interval (config (self w))) turns v))).
  { apply (kept_monitor_turns _ kept_bounded). by apply (Hv _ kept_bounded). }
  destruct (monitor_turns E (check_interval (config (self w))) turns v)
    as [[[]|e] w1]; [|done].
  cbn [fst snd self console with_console] in *.
  split; [by simplify_eq|]. split; [exact Hb'|]. by exists (console w1).
Qed.


(** *** The main program *)

Lemma kept_and (P Q : World → Prop) :
  kept_by_checks E P → kept_by_checks E Q → kept_by_checks E (fun w => P w ∧ Q w).
Proof.
  intros KP KQ. constructor.
  - intros w [HP HQ]. split; [by apply (kept_probe E P KP)|by apply (kept_probe E Q KQ)].
  - intros w [HP HQ]. split; [by apply (kept_time E P KP)|by apply (kept_time E Q KQ)].
  - intros w [HP HQ]. split; [by apply (kept_proc E P KP)|by apply (kept_proc E Q KQ)].
  - intros f w [HP HQ].
    split; [by apply (kept_console E P KP)|by apply (kept_console E Q KQ)].
  - intros key now w [HP HQ].
    split; [by apply (kept_stamp E P KP)|by apply (kept_stamp E Q KQ)].
  - intros ty msg lvl w [HP HQ].
    split; [by apply (kept_log E P KP)|by apply (kept_log E Q KQ)].
  - intros subject msg w [HP HQ].
    split; [by apply (kept_email E P KP)|by apply (kept_email E Q KQ)].
  - intros msg w [HP HQ].
    split; [by apply (kept_webhook E P KP)|by apply (kept_webhook E Q KQ)].
Qed.

Lemma load_config_absent path w :
  files w !! path = None →
  fst (load_config E path w) = Ok default_config.
Proof.
  intros Hnone. unfold load_config, path_exists. rewrite bind_gets, Hnone.
  rewrite bool_decide_eq_false_2 by (by intros [? ?]).
  unfold create_example_config, try_except, open_write_json_dump, print.
  cbv [mbind M_bind mret M_ret modify]. cbn [ticks with_console].
  by destruct (disk_write E (n_file (ticks w))).
Qed.

(** [load_config] sends no mail and no request. *)
Lemma load_config_sides path w :
  email_side (snd (load_config E path w)) = email_side w
  ∧ webhook_side (snd (load_config E path w)) = webhook_side w.
Proof.
  unfold load_config, path_exists. rewrite bind_gets.
  unfold create_example_config, try_except, open_write_json_dump,
    open_read_json_load, print.
  cbv [mbind M_bind mret M_ret modify]. cbn [ticks files with_console].
  destruct (bool_decide _).
  - destruct (files w !! path) as [f|]; [|done].
    destruct (document f); [|done]. by destruct (forallb json_blank (appended f)).
  - by destruct (disk_write E (n_file (ticks w))).
Qed.

Lemma init_run path w c :
  fst (load_config E path w) = Ok c →
  init E path w
  = (Ok tt,
     with_self (fun _ => {| config := c; alert_history := []; last_alert_time := ∅;
                            self_log_file := log_file c |})
       (snd (load_config E path w))).
Proof.
  intros Hc. unfold init, mbind, M_bind.
  destruct (load_config E path w) as [res w1]. simpl in Hc. subst res. done.
Qed.

(** X19. A first run, with no configuration file at the path, works on the
    defaults, and the defaults switch both channels off: whatever the
    probes answer, the program opens no SMTP session and posts no webhook,
    in test mode and in monitoring mode over any number of turns, and it
    ends with status 0. *)
Theorem first_run_sends_nothing (path : string) (test : bool) (turns : nat)
    (w : World) :
  files w !! path = None →
  let r := main E path test turns w in
  fst r = Ok 0
  ∧ config (self (snd r)) = default_config
  ∧ outbox (snd r) = outbox w ∧ n_smtp (ticks (snd r)) = n_smtp (ticks w)
  ∧ requests (snd r) = requests w ∧ n_http (ticks (snd r)) = n_http (ticks w).
Proof.
  intros Hnone r. subst r. unfold main.
  rewrite (bind_ok _ _ _ _ _ (init_run path w _ (load_config_absent path w Hnone))).
  destruct (load_config_sides path w) as [He Hw].
  set (w1 := snd (load_config E path w)) in *. clearbody w1.
  set (w2 := with_self _ w1).
  set (P := fun v : World =>
    ((email_enabled (email (config (self v))) = false ∧ email_side v = email_side w)
     ∧ (webhook_enabled (webhook (config (self v))) = false
        ∧ webhook_side v = webhook_side w))
    ∧ (config (self v) = default_config ∧ self_log_file (self v) = "alerts.log")).
  assert (K : kept_by_checks E P)
    by (apply kept_and; [apply kept_and|];
        [apply kept_email_side|apply kept_webhook_side|apply kept_static]).
  assert (H2 : P w2) by (subst P w2; by repeat split).
  assert (Hend : ∀ v, P v →
    config (self v) = default_config
    ∧ outbox v = outbox w ∧ n_smtp (ticks v) = n_smtp (ticks w)
    ∧ requests v = requests w ∧ n_http (ticks v) = n_http (ticks w)).
  { intros v [[[_ Hv1] [_ Hv2]] [Hv3 _]].
    unfold email_side in Hv1. unfold webhook_side in Hv2. by simplify_eq. }
  clearbody w2. destruct test.
  - rewrite bind_print.
    match goal with |- context [(show_status E ≫= ?k) ?v] =>
      destruct (bind_safe (show_status E) k v show_status_safe) as ([] & _ & ->);
      assert (H3 : P (snd (show_status E v)))
        by (apply (kept_show_status _ K), (kept_console E P K), H2);
      set (w3 := snd (show_status E v)) in *; clearbody w3
    end.
    match goal with |- context [(run_checks E ≫= ?k) ?v] =>
      destruct (bind_safe (run_checks E) k v run_checks_safe) as (alerts & _ & ->);
      assert (H4 : P (snd (run_checks E v))) by (apply (kept_run_checks _ K), H3);
      set (w4 := snd (run_checks E v)) in *; clearbody w4
    end.
    destruct alerts; rewrite bind_print; unfold mret, M_ret; cbn [fst snd];
      (split; [done|]); apply Hend, (kept_console E P K), H4.
  - destruct (monitor_loop_run turns w2) as (v & w3 & Hw3 & Hv & ->).
    { destruct H2 as [_ [-> _]]. unfold sleep_max. simpl. lia. }
    cbn [fst snd]. split; [done|].
    apply Hend, (kept_console E P K). subst w3.
    apply (kept_monitor_turns _ K), Hv; done.
Qed.

End Properties.

(** ** The claims on the sample *)

(** C1 at the boundary: an alert of kind CPU fired at time 1000, the window
    is 300 seconds and the clock reads 1300. *)
Lemma can_send_alert_cooldown_witness :
  fst (can_send_alert Sample.env "CPU"
         (Sample.fired_at default_config ["CPU"] 1000)) = Ok true.
Proof.
  apply (proj1 (proj2 (proj2 (can_send_alert_cooldown Sample.env "CPU"
                                (Sample.fired_at default_config ["CPU"] 1000))))
           1000%float).
  - vm_compute. reflexivity.
  - vm_compute. reflexivity.
Defined.

(** C2 at the boundary: the CPU reads 81.0 and the threshold is 81.0. *)
Lemma threshold_is_strict_witness :
  check_cpu Sample.env (Sample.started Sample.cpu_at_reading)
  = (Ok false, with_ticks tick_probe (Sample.started Sample.cpu_at_reading)).
Proof.
  apply (proj2 (proj1 (threshold_is_strict Sample.env
                         (Sample.started Sample.cpu_at_reading)))).
  vm_compute. reflexivity.
Defined.

(** C3 under suppression: the CPU reads 81.0 against a threshold of 80.0, an
    alert of kind CPU fired at time 1250 and the clock reads 1300. *)
Lemma timestamp_only_on_dispatch_witness :
  fst (check_cpu Sample.env (Sample.fired_at default_config ["CPU"] 1250)) = Ok false
  ∧ quiet (Sample.fired_at default_config ["CPU"] 1250)
      (snd (check_cpu Sample.env (Sample.fired_at default_config ["CPU"] 1250))).
Proof.
  apply (proj1 (proj2 (proj2 (proj2 (proj2
           (timestamp_only_on_dispatch Sample.env "CPU" "mysql"
              (Sample.fired_at default_config ["CPU"] 1250))))))).
  - vm_compute. reflexivity.
  - vm_compute. reflexivity.
Defined.

(** C4 on a full history: the 101st record evicts the first. *)
Lemma log_alert_keeps_last_100_witness :
  alert_history
    (self (snd (log_alert Sample.env "CPU" "CPU élevé: 81.0% (seuil: 80.0%)" "WARNING"
                  (Sample.with_history default_config 100))))
  = (tail (alert_history (self (Sample.with_history default_config 100)))
     ++ [new_record Sample.env "CPU" "CPU élevé: 81.0% (seuil: 80.0%)" "WARNING"
           (Sample.with_history default_config 100)])%list.
Proof.
  apply (proj2 (proj2 (proj2 (proj2
           (log_alert_keeps_last_100 Sample.env "CPU" "CPU élevé: 81.0% (seuil: 80.0%)"
              "WARNING" (Sample.with_history default_config 100)))))
           (hd (new_record Sample.env "" "" "" (Sample.started default_config))
               (alert_history (self (Sample.with_history default_config 100))))).
  - vm_compute. reflexivity.
  - vm_compute. reflexivity.
Defined.

(** C5 on the sample: every channel is enabled, the SMTP server refuses the
    login, and the webhook request is made all the same. *)
Lemma email_failure_is_contained_witness :
  fst (check_cpu Sample.env (Sample.started Sample.all_channels)) = Ok true
  ∧ ∃ msg,
      requests (snd (check_cpu Sample.env (Sample.started Sample.all_channels)))
      = [webhook_payload "https://hooks.example.com/T000" msg].
Proof.
  pose proof (email_failure_is_contained Sample.env "mysql"
                (Sample.started Sample.all_channels)
                Login "(535, b'Authentication failed')"
                eq_refl eq_refl eq_refl) as (_ & Hcpu & Hall).
  split.
  - apply Hcpu; reflexivity.
  - destruct (Hall (check_cpu Sample.env) "CPU" "CPU" "WARNING"
                (list_elem_of_here _ _)) as (_ & H).
    destruct (H (Hcpu eq_refl eq_refl)) as (msg & _ & _ & _ & Hreq).
    exists msg. apply Hreq. reflexivity.
Defined.

(** C6 on the sample: no swap, and a reported percentage of 99.5. *)
Lemma check_swap_without_swap_witness :
  check_swap Sample.env (Sample.started default_config)
  = (Ok false, with_ticks tick_probe (Sample.started default_config)).
Proof.
  apply (proj1 (check_swap_without_swap Sample.env (Sample.started default_config)
                  eq_refl)).
Defined.

(** C7 on the sample: the probe prints [unknown] for [mysql], the check
    alerts, and the alert's record is of type [SERVICE]. *)
Lemma service_alerts_unless_active_witness :
  {| timestamp := "2024-05-17 10:15:00"; type := "SERVICE";
     message := "Service mysql est arrêté"; level := "CRITICAL" |}
  ∈ alert_history
      (self (snd (check_service_down Sample.env "mysql" (Sample.started default_config)))).
Proof.
  pose proof (service_alerts_unless_active Sample.env "mysql" ("unknown" ++ nl)
                (Sample.started default_config) eq_refl) as (_ & H & _).
  destruct H as (_ & H & _).
  - vm_compute. discriminate.
  - apply H. reflexivity.
Defined.

(** C7 as the specification states it fails on the same input: the only
    record of the history is of type [SERVICE], neither [SERVICE:mysql] nor
    [SERVICE_mysql]. *)
Lemma service_record_kind_counterexample :
  fst (check_service_down Sample.env "mysql" (Sample.started default_config)) = Ok true
  ∧ alert_history
      (self (snd (check_service_down Sample.env "mysql" (Sample.started default_config))))
    = [ {| timestamp := "2024-05-17 10:15:00"; type := "SERVICE";
           message := "Service mysql est arrêté"; level := "CRITICAL" |} ]
  ∧ ¬ (∃ r, r ∈ alert_history
                  (self (snd (check_service_down Sample.env "mysql"
                                (Sample.started default_config))))
            ∧ (type r = "SERVICE:mysql" ∨ type r = "SERVICE_mysql")
            ∧ level r = "CRITICAL").
Proof.
  assert (H : alert_history
      (self (snd (check_service_down Sample.env "mysql" (Sample.started default_config))))
    = [ {| timestamp := "2024-05-17 10:15:00"; type := "SERVICE";
           message := "Service mysql est arrêté"; level := "CRITICAL" |} ])
    by (vm_compute; reflexivity).
  split; [vm_compute; reflexivity|]. split; [exact H|].
  rewrite H. intros (r & Hin & Hty & _).
  apply list_elem_of_singleton in Hin. subst r. simpl in Hty.
  destruct Hty; discriminate.
Qed.

(** C8 on the sample: the CPU alert is recorded as a WARNING. *)
Lemma severity_fixed_by_kind_witness :
  ∃ msg,
    fired Sample.env "CPU" "CPU" msg "WARNING" (Sample.started default_config)
      (snd (check_cpu Sample.env (Sample.started default_config)))
    ∧ new_record Sample.env "CPU" msg "WARNING" (Sample.started default_config)
      ∈ alert_history (self (snd (check_cpu Sample.env (Sample.started default_config)))).
Proof.
  apply (proj1 (severity_fixed_by_kind Sample.env "mysql" (Sample.started default_config))).
  vm_compute. reflexivity.
Defined.

(** C9 on the sample: [alerts.json] does not exist at the first load. *)
Lemma default_config_round_trip_witness :
  fst (load_config Sample.env "alerts.json"
         (snd (load_config Sample.env "alerts.json" (Sample.started default_config))))
  = Ok example_config.
Proof.
  apply (proj1 (proj2 (proj2 (default_config_round_trip Sample.env "alerts.json"
                                (Sample.started default_config) eq_refl eq_refl)))).
Defined.

(** C10 on a log file that cannot be written. *)
Lemma log_alert_records_despite_write_failure_witness :
  files (snd (log_alert Sample.env_read_only "DISK" "Disque plein" "CRITICAL"
                (Sample.started default_config))) = ∅
  ∧ console (snd (log_alert Sample.env_read_only "DISK" "Disque plein" "CRITICAL"
                    (Sample.started default_config)))
    = ["⚠️  Erreur écriture log: [Errno 13] Permission denied: 'alerts.log'"]
  ∧ alert_history (self (snd (log_alert Sample.env_read_only "DISK" "Disque plein" "CRITICAL"
                                (Sample.started default_config))))
    = [ {| timestamp := "2024-05-17 10:15:00"; type := "DISK";
           message := "Disque plein"; level := "CRITICAL" |} ].
Proof.
  apply (proj2 (proj2 (log_alert_records_despite_write_failure Sample.env_read_only
                         "DISK" "Disque plein" "CRITICAL" (Sample.started default_config)))
           "[Errno 13] Permission denied: 'alerts.log'").
  reflexivity.
Defined.

(** ** The scenarios of the specification

    Thresholds at their defaults (CPU 80), a cooldown of 300 seconds, no
    channel but the console and the log. The first check reads 81.0 at time
    1000 and fires; the second reads 90.0 at time 1100 and is suppressed; the
    third reads 90.0 at time 1301 and fires again. *)
Example cooldown_scenario :
  let c1 := check_cpu Sample.scenario (Sample.started default_config) in
  let c2 := check_cpu Sample.scenario (snd c1) in
  let c3 := check_cpu Sample.scenario (snd c2) in
  (fst c1, fst c2, fst c3) = (Ok true, Ok false, Ok true)
  ∧ alert_history (self (snd c1))
    = [ {| timestamp := "2024-05-17 10:15:00"; type := "CPU";
           message := "CPU élevé: 81.0% (seuil: 80.0%)"; level := "WARNING" |} ]
  ∧ last_alert_time (self (snd c1)) !! "CPU" = Some 1000%float
  ∧ alert_history (self (snd c2)) = alert_history (self (snd c1))
  ∧ last_alert_time (self (snd c2)) !! "CPU" = Some 1000%float
  ∧ length (alert_history (self (snd c3))) = 2%nat
  ∧ last_alert_time (self (snd c3)) !! "CPU" = Some 1301%float.
Proof. vm_compute. repeat split; reflexivity. Qed.

(** The boundary of the cooldown is a boundary on the difference the code
    computes. In binary64 a sum [T0 + window] need not differ from [T0] by
    [window]: with a timestamp of 1e16 and a window of one second, the clock
    reading [1e16 + 1] is [1e16] again, and the alert is still suppressed. *)
Example cooldown_boundary_in_binary64 :
  (1e16 + 1 = 1e16)%float
  ∧ may_fire {["CPU" := 1e16%float]} 1 "CPU" (1e16 + 1)%float = false
  ∧ may_fire {["CPU" := 1000%float]} 300 "CPU" (1000 + 300)%float = true.
Proof. vm_compute. repeat split; reflexivity. Qed.

(** A stopped service, with every channel off but the console and the log:
    one record, and the kind under which the cycle reports it. *)
Example service_scenario :
  fst (run_checks Sample.env (Sample.started default_config))
  = Ok ["CPU"; "DISK"; "SERVICE_mysql"].
Proof. vm_compute. reflexivity. Qed.

(** ** The further properties on the sample *)

(** X1 on the sample: the CPU, the disk and [mysql] alert. *)
Lemma run_checks_reports_in_order_witness :
  ∃ bs, verdicts (cycle Sample.env) (Sample.started default_config)
        = Some (bs, snd (run_checks Sample.env (Sample.started default_config)))
        ∧ ["CPU"; "DISK"; "SERVICE_mysql"] = alerting (cycle Sample.env) bs.
Proof.
  destruct (run_checks_reports_in_order Sample.env (Sample.started default_config)
              ["CPU"; "DISK"; "SERVICE_mysql"]) as (bs & Hv & Hl & _).
  - vm_compute. reflexivity.
  - exists bs. split; [exact Hv|exact Hl].
Defined.


(** X5 on the sample: three alerts with the default configuration, and no
    mail. *)
Lemma disabled_channels_stay_silent_witness :
  outbox (snd (run_checks Sample.env (Sample.started default_config))) = []
  ∧ n_smtp (ticks (snd (run_checks Sample.env (Sample.started default_config)))) = 0%nat.
Proof.
  apply (proj1 (disabled_channels_stay_silent Sample.env (Sample.started default_config))).
  reflexivity.
Defined.

(** X7 on the sample: a file that sets the thresholds only, and ends with
    a line feed. *)
Lemma load_config_reads_without_writing_witness :
  fst (load_config Sample.env "alerts.json"
         (Sample.on_disk "alerts.json"
            {| document := Some Sample.thresholds_only; appended := [nl] |}
            (Sample.started default_config)))
  = Ok (update default_config Sample.thresholds_only).
Proof.
  apply (proj1 (load_config_reads_without_writing Sample.env "alerts.json"
                  {| document := Some Sample.thresholds_only; appended := [nl] |}
                  (Sample.on_disk "alerts.json"
                     {| document := Some Sample.thresholds_only; appended := [nl] |}
                     (Sample.started default_config))
                  eq_refl)).
Defined.

(** X8 on the sample: a directory that cannot be written. *)
Lemma load_config_survives_a_failed_write_witness :
  fst (load_config Sample.env_read_only "alerts.json" (Sample.started default_config))
  = Ok default_config.
Proof.
  apply (proj1 (load_config_survives_a_failed_write Sample.env_read_only "alerts.json"
                  "[Errno 13] Permission denied: 'alerts.log'"
                  (Sample.started default_config) eq_refl eq_refl)).
Defined.


(** X12 on the sample: the webhook is enabled and [requests] is missing. *)
Lemma webhook_failure_is_not_recorded_witness :
  self (snd (send_webhook_alert Sample.env_without_requests "Disque plein"
               (Sample.started Sample.all_channels)))
  = self (Sample.started Sample.all_channels).
Proof.
  apply (proj1 (webhook_failure_is_not_recorded Sample.env_without_requests
                  "Disque plein" (Sample.started Sample.all_channels) eq_refl)).
Defined.

(** X13 on the sample: a host without [systemctl]. *)
Lemma service_probe_failure_is_no_alert_witness :
  fst (check_service_down Sample.env_without_systemctl "nginx"
         (Sample.started default_config)) = Ok false.
Proof.
  rewrite (service_probe_failure_is_no_alert Sample.env_without_systemctl "nginx"
             "[Errno 2] No such file or directory: 'systemctl'"
             (Sample.started default_config) eq_refl).
  reflexivity.
Defined.

(** X14 on the sample: a host without swap. *)
Lemma show_status_only_observes_witness :
  declined (Sample.started default_config)
    (snd (show_status Sample.env (Sample.started default_config)))
  ∧ n_probe (ticks (snd (show_status Sample.env (Sample.started default_config))))
    = 4%nat.
Proof.
  destruct (show_status_only_observes Sample.env (Sample.started default_config))
    as (H1 & H2 & _).
  - vm_compute. reflexivity.
  - split; [exact H1|exact H2].
Defined.

(** X15 on the sample: the CPU reads 81.0 and the threshold is 81.0. *)
Lemma status_warns_where_the_check_is_silent_witness :
  console (snd (show_status Sample.env (Sample.started Sample.cpu_at_reading))) !! 3%nat
  = Some "⚠️ CPU:      81.0% (seuil: 80.0%)"
  ∧ fst (check_cpu Sample.env (Sample.started Sample.cpu_at_reading)) = Ok false.
Proof.
  apply (proj2 (status_warns_where_the_check_is_silent Sample.env
                  (Sample.started Sample.cpu_at_reading))).
  vm_compute. reflexivity.
Defined.

(** X17 on the sample: two turns with the default interval, three alerts
    in the first and none in the second. *)
Lemma monitor_loop_exit_report_witness :
  (length (alert_history
             (self (snd (monitor_loop Sample.env 2 (Sample.started default_config)))))
   ≤ 100)%nat.
Proof.
  apply (monitor_loop_exit_report Sample.env 2 (Sample.started default_config) 0).
  - unfold bounded. simpl. lia.
  - vm_compute. reflexivity.
Defined.


(** X19 on the sample: an empty directory, test mode. *)
Lemma first_run_sends_nothing_witness :
  fst (main Sample.env "alerts.json" true 0 (Sample.started default_config)) = Ok 0.
Proof.
  apply (first_run_sends_nothing Sample.env "alerts.json" true 0
           (Sample.started default_config) eq_refl).
Defined.
